(** * A model of the reactive core ([src/core/reactive.ts])

    The library is written with closures over mutable local variables,
    callbacks that are stored and invoked later (timers, event listeners,
    Subject observers) and subscriptions handed around by reference.  The
    model keeps these features:

    - every function value the library creates is a constructor of
      [NextCallback], [ErrorCallback], [CompleteCallback], [Disposer] or
      [Task], holding the variables the closure captures;
    - mutable locals captured by closures ([i], [isdisposed],
      [completeCount], the [subscriptions] and [values] arrays, the late
      bound [subscription] of [take]) live in frames of a heap;
    - the host (timers, event targets) is part of the state: a queue of
      pending [setTimeout] callbacks, the active [setInterval] timers and
      the registered listeners;
    - invoking a function value is done by the interpreters [call_next],
      [call_error], [call_complete], [dispose] and [_subscribe], which
      follow the bodies of the source functions.  Their [fuel] argument
      bounds the nesting depth of calls (not the number of steps).

    User code is observable through the [trace]: a callback supplied by the
    user records its tag and the signal it received. *)

From Stdlib Require Import ZArith List String Bool Lia.
From stdpp Require Import base list.
Import ListNotations.

Set Warnings "-register-all,-non-full-mutual".
Local Open Scope Z_scope.

(** ** Values and signals *)

(** Run-time values carried by streams: numbers (integers, the only numbers
    the library computes with), arrays (produced by [join]) and DOM events
    (produced by [fromEvent]). *)
Inductive value :=
| VNum (z : Z)
| VArr (items : list value)
| VEvent (e : nat).

(** The three calls an observer can receive. *)
Inductive Signal :=
| Next (v : value)
| Error (message : string)
| Complete.

Definition loc := nat.

(** ** Observables

    An [Observable] wraps a subscribe function.  The constructors name the
    subscribe functions the library builds; [Custom] stands for
    [new Observable(fn)] with a user-written [fn] that calls its observer
    with the signals of [sync] before it returns, schedules one zero-delay
    timer per batch of [deferred], each delivering its signals in turn, and
    returns a [Subscription] whose disposal does nothing. *)
Inductive Observable :=
| Custom (sync : list Signal) (deferred : list (list Signal))
| SubjectObs (s : loc)                                   (* Subject.asObservable *)
| Take (n : Z) (this : Observable)                       (* this.take(n) *)
| Map (map : value -> value) (this : Observable)         (* this.map(map) *)
| MergeMap (mergeMap : value -> Observable) (this : Observable)
| Join (this : Observable)                               (* this.join() *)
| Empty                                                  (* empty() *)
| Of (v : value)                                         (* of(v) *)
| From (values : list value)                             (* from(values) *)
| Interval (period : Z)                                  (* interval(period) *)
| Merge (observables : list Observable)                  (* merge(...observables) *)
| FromEvent (element : nat) (eventName : string).        (* fromEvent(element, eventName) *)

(** ** Function values *)

(** Callbacks.  [UserNext], [UserError] and [UserComplete] are callbacks
    written by the user of the library; [ObserverNext o] is the arrow
    function stored in the [next] property of the observer [o] (likewise
    for [error] and [complete]); the others are the arrow functions and
    inner functions of the operators, with their captured variables. *)
Inductive NextCallback :=
| UserNext (tag : nat)
| ObserverNext (o : Observer)
| TakeNext (fr : loc) (n : Z) (observer : Observer)
| MapNext (map : value -> value) (observer : Observer)
| MergeMapOuterNext (fr : loc) (mergeMap : value -> Observable) (observer : Observer)
| MergeMapInnerNext (observer : Observer)
| JoinNext (fr : loc)
with ErrorCallback :=
| UserError (tag : nat)
| ObserverError (o : Observer)
| MergeMapError (observer : Observer)
with CompleteCallback :=
| UserComplete (tag : nat)
| ObserverComplete (o : Observer)
| MergeMapComplete (fr : loc) (observer : Observer)
| JoinComplete (fr : loc) (observer : Observer)
| MergeComplete (fr : loc) (observer : Observer)
with Observer :=
| mkObserver (_next : option NextCallback)
             (_error : option ErrorCallback)
             (_complete : option CompleteCallback).

Definition _next (o : Observer) := let 'mkObserver n _ _ := o in n.
Definition _error (o : Observer) := let 'mkObserver _ e _ := o in e.
Definition _complete (o : Observer) := let 'mkObserver _ _ c := o in c.

(** [new Observer(obs.next, obs.error, obs.complete)] *)
Definition wrap (obs : Observer) : Observer :=
  mkObserver (Some (ObserverNext obs)) (Some (ObserverError obs))
             (Some (ObserverComplete obs)).

(** A [Subscription] holds one disposal function. *)
Inductive Subscription :=
| mkSubscription (dispose : Disposer)
with Disposer :=
| UserTeardown (tag : nat)                 (* a teardown written by the user *)
| NoTeardown                               (* () => {} *)
| SubjectRemove (s : loc) (oid : nat)      (* Subject.subscribe *)
| DisposeUpstream (subscription : Subscription)  (* take, map, join *)
| DisposeAll (fr : loc)                    (* mergeMap, merge *)
| FlagDispose (fr : loc)                   (* empty, of, from *)
| IntervalDispose (fr : loc)               (* interval *)
| EventDispose (fr : loc) (element : nat) (eventName : string) (eventHandler : nat).

(** Callbacks handed to the host. *)
Inductive Task :=
| CustomTask (obs : Observer) (batch : list Signal)
| OfTask (observer : Observer) (v : value)
| FromTask (fr : loc) (observer : Observer) (values : list value)
| IntervalTask (fr : loc) (observer : Observer).

Inductive Listener :=
| EventHandler (observer : Observer).

(** ** State *)

(** Heap frames: the mutable locals of one activation of a subscribe
    function, or the fields of a [Subject]. *)
Inductive Cell :=
| CSubject (observers : list (nat * Observer))
| CTake (i : Z) (subscription : option Subscription)
| CMergeMap (subscriptions : list Subscription) (completeCount : Z)
| CJoin (values : list value)
| CMerge (subscriptions : list Subscription) (completeCount : Z)
| CProducer (isdisposed : bool)
| CInterval (intervalHandler : option nat) (isdisposed : bool) (i : Z).

(** Host calls that release a resource. *)
Inductive HostCall :=
| ClearInterval (handle : nat)
| RemoveEventListener (element : nat) (eventName : string) (eventHandler : nat)
| Teardown (tag : nat).

Record State := mkState {
  heap : list Cell;
  timeouts : list Task;                          (* pending setTimeout callbacks, oldest first *)
  intervals : list (nat * Task);                 (* active setInterval timers, by handle *)
  listeners : list (nat * string * nat * Listener);
                             (* element, event name, handler identity, handler *)
  supply : nat;                                  (* next fresh identity *)
  trace : list (nat * Signal);                   (* calls received by user callbacks *)
  host : list HostCall                           (* resource releases, in order *)
}.

Definition init : State := mkState [] [] [] [] 0%nat [] [].

Definition set_heap (h : list Cell) (st : State) : State :=
  mkState h (timeouts st) (intervals st) (listeners st) (supply st) (trace st) (host st).
Definition set_timeouts (q : list Task) (st : State) : State :=
  mkState (heap st) q (intervals st) (listeners st) (supply st) (trace st) (host st).
Definition set_intervals (q : list (nat * Task)) (st : State) : State :=
  mkState (heap st) (timeouts st) q (listeners st) (supply st) (trace st) (host st).
Definition set_listeners (q : list (nat * string * nat * Listener)) (st : State) : State :=
  mkState (heap st) (timeouts st) (intervals st) q (supply st) (trace st) (host st).
Definition set_supply (n : nat) (st : State) : State :=
  mkState (heap st) (timeouts st) (intervals st) (listeners st) n (trace st) (host st).
Definition set_trace (t : list (nat * Signal)) (st : State) : State :=
  mkState (heap st) (timeouts st) (intervals st) (listeners st) (supply st) t (host st).
Definition set_host (t : list HostCall) (st : State) : State :=
  mkState (heap st) (timeouts st) (intervals st) (listeners st) (supply st) (trace st) t.

(** ** The monad of effects *)

(** A call returns normally, throws (the exceptions the library can
    raise by itself are the use of [take]'s [subscription] before it is
    initialised and the [RangeError] of a [push] on a full array in
    [range]), or is cut off by the model: the call depth, or the number
    of iterations of the loop of [range], exceeded the fuel, or a closure
    pointed to a frame that does not hold its variables (which no closure
    built by [_subscribe] does). *)
Inductive Cut := OutOfFuel | BadFrame.

Inductive Result (A : Type) :=
| Ok (a : A) (st : State)
| Throw (st : State)
| Abort (c : Cut).
Arguments Ok {A} a st.
Arguments Throw {A} st.
Arguments Abort {A} c.

Definition M (A : Type) := State -> Result A.

Definition ret {A} (a : A) : M A := fun st => Ok a st.
Definition bind {A B} (m : M A) (k : A -> M B) : M B :=
  fun st => match m st with
            | Ok a st' => k a st'
            | Throw st' => Throw st'
            | Abort c => Abort c
            end.
Definition throw {A} : M A := fun st => Throw st.
Definition abort {A} (c : Cut) : M A := fun _ => Abort c.

Declare Scope rx_scope.
Delimit Scope rx_scope with rx.
Notation "'let*' x := m 'in' k" := (bind m (fun x => k))
  (at level 10, x name, m at level 100, k at level 200) : rx_scope.
Notation "m >> k" := (bind m (fun _ => k))
  (at level 65, right associativity) : rx_scope.
Local Open Scope rx_scope.

Definition when (b : bool) (m : M unit) : M unit := if b then m else ret tt.

(** [array.forEach(f)] *)
Fixpoint forEach {A} (f : A -> M unit) (l : list A) : M unit :=
  match l with
  | [] => ret tt
  | x :: l' => f x >> forEach f l'
  end.

Definition get_cell (fr : loc) : M Cell :=
  fun st => match heap st !! fr with
            | Some c => Ok c st
            | None => Abort BadFrame
            end.
Definition set_cell (fr : loc) (c : Cell) : M unit :=
  fun st => Ok tt (set_heap (<[fr := c]> (heap st)) st).
Definition alloc (c : Cell) : M loc :=
  fun st => Ok (length (heap st)) (set_heap (heap st ++ [c]) st).
Definition fresh_id : M nat :=
  fun st => Ok (supply st) (set_supply (S (supply st)) st).
Definition emit (tag : nat) (s : Signal) : M unit :=
  fun st => Ok tt (set_trace (trace st ++ [(tag, s)]) st).
Definition release (h : HostCall) : M unit :=
  fun st => Ok tt (set_host (host st ++ [h]) st).

(** [setTimeout(task, 0)] *)
Definition setTimeout (task : Task) : M unit :=
  fun st => Ok tt (set_timeouts (timeouts st ++ [task]) st).
(** [setInterval(task, period)] returns a fresh handle. *)
Definition setInterval (task : Task) (period : Z) : M nat :=
  let* h := fresh_id in
  fun st => Ok h (set_intervals (intervals st ++ [(h, task)]) st).
(** [clearInterval(handle)] *)
Definition clearInterval (handle : option nat) : M unit :=
  match handle with
  | Some h =>
      release (ClearInterval h) >>
      fun st => Ok tt (set_intervals
                         (List.filter (fun e => negb (Nat.eqb (fst e) h)) (intervals st)) st)
  | None => ret tt
  end.
(** [element.addEventListener(eventName, handler)]: the handler is a new
    function object, identified by [id]. *)
Definition addEventListener (element : nat) (eventName : string) (id : nat) (handler : Listener)
  : M unit :=
  fun st => Ok tt (set_listeners (listeners st ++ [(element, eventName, id, handler)]) st).
(** [element.removeEventListener(eventName, handler)] *)
Definition removeEventListener (element : nat) (eventName : string) (id : nat) : M unit :=
  release (RemoveEventListener element eventName id) >>
  fun st => Ok tt (set_listeners
                     (List.filter (fun e => negb (Nat.eqb (snd (fst e)) id)) (listeners st)) st).

(** ** Subject: registration (lines 65-76) *)

Definition get_observers (s : loc) : M (list (nat * Observer)) :=
  let* c := get_cell s in
  match c with
  | CSubject observers => ret observers
  | _ => abort BadFrame
  end.

(** [new Subject()] *)
Definition new_Subject : M loc := alloc (CSubject []).

(** [Subject.subscribe]: the new observer is pushed on [observers]; the
    returned subscription filters it out again, by identity. *)
Definition Subject_subscribe (s : loc)
    (next : option NextCallback) (error : option ErrorCallback)
    (complete : option CompleteCallback) : M Subscription :=
  let* oid := fresh_id in
  let observer := mkObserver next error complete in
  let* observers := get_observers s in
  set_cell s (CSubject (observers ++ [(oid, observer)])) >>
  ret (mkSubscription (SubjectRemove s oid)).

(** ** Reading and writing the locals of the operators *)

Definition get_i (fr : loc) : M Z :=
  let* c := get_cell fr in
  match c with
  | CTake i _ => ret i
  | CInterval _ _ i => ret i
  | _ => abort BadFrame
  end.
Definition set_i (fr : loc) (i : Z) : M unit :=
  let* c := get_cell fr in
  match c with
  | CTake _ s => set_cell fr (CTake i s)
  | CInterval h d _ => set_cell fr (CInterval h d i)
  | _ => abort BadFrame
  end.
(** Reading [subscription] in [take]: a fault while it is not initialised. *)
Definition get_subscription (fr : loc) : M Subscription :=
  let* c := get_cell fr in
  match c with
  | CTake _ (Some s) => ret s
  | CTake _ None => throw
  | _ => abort BadFrame
  end.
Definition init_subscription (fr : loc) (s : Subscription) : M unit :=
  let* c := get_cell fr in
  match c with
  | CTake i _ => set_cell fr (CTake i (Some s))
  | _ => abort BadFrame
  end.
Definition get_subscriptions (fr : loc) : M (list Subscription) :=
  let* c := get_cell fr in
  match c with
  | CMergeMap subscriptions _ => ret subscriptions
  | CMerge subscriptions _ => ret subscriptions
  | _ => abort BadFrame
  end.
(** [subscriptions.push(s)] *)
Definition push_subscription (fr : loc) (s : Subscription) : M unit :=
  let* c := get_cell fr in
  match c with
  | CMergeMap subscriptions n => set_cell fr (CMergeMap (subscriptions ++ [s]) n)
  | CMerge subscriptions n => set_cell fr (CMerge (subscriptions ++ [s]) n)
  | _ => abort BadFrame
  end.
Definition get_completeCount (fr : loc) : M Z :=
  let* c := get_cell fr in
  match c with
  | CMergeMap _ n => ret n
  | CMerge _ n => ret n
  | _ => abort BadFrame
  end.
Definition set_completeCount (fr : loc) (n : Z) : M unit :=
  let* c := get_cell fr in
  match c with
  | CMergeMap subscriptions _ => set_cell fr (CMergeMap subscriptions n)
  | CMerge subscriptions _ => set_cell fr (CMerge subscriptions n)
  | _ => abort BadFrame
  end.
Definition get_values (fr : loc) : M (list value) :=
  let* c := get_cell fr in
  match c with
  | CJoin values => ret values
  | _ => abort BadFrame
  end.
(** [values.push(v)] *)
Definition push_value (fr : loc) (v : value) : M unit :=
  let* values := get_values fr in
  set_cell fr (CJoin (values ++ [v])).
Definition get_isdisposed (fr : loc) : M bool :=
  let* c := get_cell fr in
  match c with
  | CProducer d => ret d
  | CInterval _ d _ => ret d
  | _ => abort BadFrame
  end.
Definition set_isdisposed (fr : loc) (d : bool) : M unit :=
  let* c := get_cell fr in
  match c with
  | CProducer _ => set_cell fr (CProducer d)
  | CInterval h _ i => set_cell fr (CInterval h d i)
  | _ => abort BadFrame
  end.
Definition get_intervalHandler (fr : loc) : M (option nat) :=
  let* c := get_cell fr in
  match c with
  | CInterval h _ _ => ret h
  | _ => abort BadFrame
  end.
Definition set_intervalHandler (fr : loc) (h : nat) : M unit :=
  let* c := get_cell fr in
  match c with
  | CInterval _ d i => set_cell fr (CInterval (Some h) d i)
  | _ => abort BadFrame
  end.

(** ** The interpreters

    One function per kind of function value; each case is the body of the
    corresponding function of [reactive.ts]. *)

Definition deliver_with (next : value -> M unit) (error : string -> M unit)
    (complete : M unit) (s : Signal) : M unit :=
  match s with
  | Next v => next v
  | Error message => error message
  | Complete => complete
  end.

Fixpoint call_next (fuel : nat) (cb : NextCallback) (value : value) {struct fuel} : M unit :=
  match fuel with
  | O => abort OutOfFuel
  | S fuel =>
    match cb with
    | UserNext tag => emit tag (Next value)
    (* Observer.next, lines 22-26 *)
    | ObserverNext o =>
        match _next o with
        | Some f => call_next fuel f value
        | None => ret tt
        end
    (* take, lines 116-128 *)
    | TakeNext fr n observer =>
        (let* i := get_i fr in
         when (i <? n - 1) (call_next fuel (ObserverNext observer) value)) >>
        (let* i := get_i fr in
         when (i =? n - 1)
           (call_next fuel (ObserverNext observer) value >>
            call_complete fuel (ObserverComplete observer) >>
            let* subscription := get_subscription fr in
            dispose fuel subscription)) >>
        let* i := get_i fr in
        set_i fr (i + 1)
    (* map, line 191 *)
    | MapNext map observer => call_next fuel (ObserverNext observer) (map value)
    (* mergeMap, lines 219-227 *)
    | MergeMapOuterNext fr mergeMap observer =>
        let* s := _subscribe fuel (mergeMap value)
                    (mkObserver (Some (MergeMapInnerNext observer))
                                (Some (MergeMapError observer))
                                (Some (MergeMapComplete fr observer))) in
        push_subscription fr s
    (* mergeMap, line 222 *)
    | MergeMapInnerNext observer => call_next fuel (ObserverNext observer) value
    (* join, line 267 *)
    | JoinNext fr => push_value fr value
    end
  end

with call_error (fuel : nat) (cb : ErrorCallback) (message : string) {struct fuel} : M unit :=
  match fuel with
  | O => abort OutOfFuel
  | S fuel =>
    match cb with
    | UserError tag => emit tag (Error message)
    (* Observer.error, lines 28-32 *)
    | ObserverError o =>
        match _error o with
        | Some f => call_error fuel f message
        | None => ret tt
        end
    (* mergeMap, lines 239-241 *)
    | MergeMapError observer => call_error fuel (ObserverError observer) message
    end
  end

with call_complete (fuel : nat) (cb : CompleteCallback) {struct fuel} : M unit :=
  match fuel with
  | O => abort OutOfFuel
  | S fuel =>
    match cb with
    | UserComplete tag => emit tag Complete
    (* Observer.complete, lines 34-38 *)
    | ObserverComplete o =>
        match _complete o with
        | Some f => call_complete fuel f
        | None => ret tt
        end
    (* mergeMap, lines 243-248 *)
    | MergeMapComplete fr observer =>
        (let* n := get_completeCount fr in
         set_completeCount fr (n + 1)) >>
        let* n := get_completeCount fr in
        let* subscriptions := get_subscriptions fr in
        when (n =? Z.of_nat (length subscriptions))
          (call_complete fuel (ObserverComplete observer))
    (* join, lines 269-272 *)
    | JoinComplete fr observer =>
        let* values := get_values fr in
        call_next fuel (ObserverNext observer) (VArr values) >>
        call_complete fuel (ObserverComplete observer)
    (* merge, lines 426-431 *)
    | MergeComplete fr observer =>
        (let* n := get_completeCount fr in
         set_completeCount fr (n + 1)) >>
        let* n := get_completeCount fr in
        let* subscriptions := get_subscriptions fr in
        when (n =? Z.of_nat (length subscriptions))
          (call_complete fuel (ObserverComplete observer))
    end
  end

(** [subscription.dispose()] *)
with dispose (fuel : nat) (subscription : Subscription) {struct fuel} : M unit :=
  match fuel with
  | O => abort OutOfFuel
  | S fuel =>
    let 'mkSubscription d := subscription in
    match d with
    | UserTeardown tag => release (Teardown tag)
    | NoTeardown => ret tt
    (* Subject.subscribe, line 74 *)
    | SubjectRemove s oid =>
        let* observers := get_observers s in
        set_cell s (CSubject (List.filter (fun obs => negb (Nat.eqb (fst obs) oid)) observers))
    (* take 133-135, map 196-198, join 275-277 *)
    | DisposeUpstream subscription => dispose fuel subscription
    (* mergeMap 233-237, merge 436-440 *)
    | DisposeAll fr =>
        let* subscriptions := get_subscriptions fr in
        forEach (dispose fuel) subscriptions
    (* empty 299-303, of 324-328, from 352-356 *)
    | FlagDispose fr =>
        let* isdisposed := get_isdisposed fr in
        when (negb isdisposed) (set_isdisposed fr true)
    (* interval, lines 394-399 *)
    | IntervalDispose fr =>
        let* isdisposed := get_isdisposed fr in
        when (negb isdisposed)
          (let* intervalHandler := get_intervalHandler fr in
           clearInterval intervalHandler >>
           set_isdisposed fr true)
    (* fromEvent, lines 461-466 *)
    | EventDispose fr element eventName eventHandler =>
        let* isdisposed := get_isdisposed fr in
        when (negb isdisposed)
          (removeEventListener element eventName eventHandler >>
           set_isdisposed fr true)
    end
  end

(** [this._subscribe(obs)], by the function that built [this]. *)
with _subscribe (fuel : nat) (this : Observable) (obs : Observer) {struct fuel}
  : M Subscription :=
  match fuel with
  | O => abort OutOfFuel
  | S fuel =>
    match this with
    | Custom sync deferred =>
        forEach (deliver_with (call_next fuel (ObserverNext obs))
                              (call_error fuel (ObserverError obs))
                              (call_complete fuel (ObserverComplete obs))) sync >>
        forEach (fun batch => setTimeout (CustomTask obs batch)) deferred >>
        ret (mkSubscription NoTeardown)
    (* Subject.asObservable, lines 59-63 *)
    | SubjectObs s =>
        Subject_subscribe s (Some (ObserverNext obs)) (Some (ObserverError obs))
                          (Some (ObserverComplete obs))
    (* take, lines 110-137 *)
    | Take n this =>
        let observer := wrap obs in
        let* fr := alloc (CTake 0 None) in
        let* subscription :=
          _subscribe fuel this
            (mkObserver (Some (TakeNext fr n observer))
                        (Some (ObserverError observer))
                        (Some (ObserverComplete observer))) in
        init_subscription fr subscription >>
        ret (mkSubscription (DisposeUpstream subscription))
    (* map, lines 186-200 *)
    | Map map this =>
        let observer := wrap obs in
        let* subscription :=
          _subscribe fuel this
            (mkObserver (Some (MapNext map observer))
                        (Some (ObserverError observer))
                        (Some (ObserverComplete observer))) in
        ret (mkSubscription (DisposeUpstream subscription))
    (* mergeMap, lines 211-250 *)
    | MergeMap mergeMap this =>
        let observer := wrap obs in
        let* fr := alloc (CMergeMap [] 0) in
        let* s :=
          _subscribe fuel this
            (mkObserver (Some (MergeMapOuterNext fr mergeMap observer))
                        (Some (MergeMapError observer))
                        (Some (MergeMapComplete fr observer))) in
        push_subscription fr s >>
        ret (mkSubscription (DisposeAll fr))
    (* join, lines 261-279 *)
    | Join this =>
        let observer := wrap obs in
        let* fr := alloc (CJoin []) in
        let* subscription :=
          _subscribe fuel this
            (mkObserver (Some (JoinNext fr))
                        (Some (ObserverError observer))
                        (Some (JoinComplete fr observer))) in
        ret (mkSubscription (DisposeUpstream subscription))
    (* empty, lines 291-305 *)
    | Empty =>
        let observer := wrap obs in
        let* fr := alloc (CProducer false) in
        call_complete fuel (ObserverComplete observer) >>
        ret (mkSubscription (FlagDispose fr))
    (* of, lines 314-330 *)
    | Of v =>
        let observer := wrap obs in
        let* fr := alloc (CProducer false) in
        setTimeout (OfTask observer v) >>
        ret (mkSubscription (FlagDispose fr))
    (* from, lines 339-358 *)
    | From values =>
        let observer := wrap obs in
        let* fr := alloc (CProducer false) in
        setTimeout (FromTask fr observer values) >>
        ret (mkSubscription (FlagDispose fr))
    (* interval, lines 382-401 *)
    | Interval period =>
        let observer := wrap obs in
        let* fr := alloc (CInterval None false 0) in
        let* h := setInterval (IntervalTask fr observer) period in
        set_intervalHandler fr h >>
        ret (mkSubscription (IntervalDispose fr))
    (* merge, lines 415-442 *)
    | Merge observables =>
        let observer := wrap obs in
        let* fr := alloc (CMerge [] 0) in
        forEach (fun source =>
                   let* s :=
                     _subscribe fuel source
                       (mkObserver (Some (ObserverNext observer))
                                   (Some (ObserverError observer))
                                   (Some (MergeComplete fr observer))) in
                   push_subscription fr s) observables >>
        ret (mkSubscription (DisposeAll fr))
    (* fromEvent, lines 447-468 *)
    | FromEvent element eventName =>
        let observer := wrap obs in
        let* fr := alloc (CProducer false) in
        let* eventHandler := fresh_id in
        addEventListener element eventName eventHandler (EventHandler observer) >>
        ret (mkSubscription (EventDispose fr element eventName eventHandler))
    end
  end.

(** [obs.next(v)], [obs.error(m)] or [obs.complete()], by the signal. *)
Definition deliver (fuel : nat) (obs : Observer) : Signal -> M unit :=
  deliver_with (call_next fuel (ObserverNext obs))
               (call_error fuel (ObserverError obs))
               (call_complete fuel (ObserverComplete obs)).

(** [Observable.subscribe(next?, error?, complete?)], lines 92-98 *)
Definition subscribe (fuel : nat) (this : Observable)
    (next : option NextCallback) (error : option ErrorCallback)
    (complete : option CompleteCallback) : M Subscription :=
  _subscribe fuel this (mkObserver next error complete).

(** A subscriber whose three callbacks are user callbacks with one tag. *)
Definition subscribe_user (fuel : nat) (this : Observable) (tag : nat) : M Subscription :=
  subscribe fuel this (Some (UserNext tag)) (Some (UserError tag)) (Some (UserComplete tag)).

(** ** Numbers in the loop of [range]

    JavaScript numbers are IEEE 754 doubles.  The integers among them are
    modelled by their value: the doubles hold every integer of magnitude
    up to 2^53 and, above, with [e] the position of the leading bit of
    the magnitude, the multiples of [2^(e - 52)]. *)

(** [Number.MAX_SAFE_INTEGER], 2^53 - 1 *)
Definition MAX_SAFE_INTEGER : Z := 9007199254740991.

(** The double nearest to the integer [z]; of two nearest doubles, the
    one with the even significand. *)
Definition round_double (z : Z) : Z :=
  if Z.abs z <=? MAX_SAFE_INTEGER then z
  else
    let ulp := 2 ^ (Z.log2 (Z.abs z) - 52) in
    let q := z / ulp in
    let r := z mod ulp in
    if 2 * r <? ulp then q * ulp
    else if ulp <? 2 * r then (q + 1) * ulp
    else if Z.even q then q * ulp
    else (q + 1) * ulp.

(** [i++] on a number that holds the integer [i] *)
Definition increment (i : Z) : Z := round_double (i + 1).

(** The length of an array is below 2^32: [push] on an array that holds
    2^32 - 1 elements throws a [RangeError]. *)
Definition MAX_ARRAY_LENGTH : Z := 4294967295.

(** [range(min, max)], lines 367-375: the loop pushes [i] on [values]
    and increments it while [i <= max].  The loop need not end: [steps]
    bounds the number of iterations the model follows. *)
Fixpoint range_loop (steps : nat) (i max : Z) (values : list value) : M (list value) :=
  match steps with
  | O => abort OutOfFuel
  | S steps' =>
      if i <=? max then
        if Z.of_nat (length values) <? MAX_ARRAY_LENGTH
        then range_loop steps' (increment i) max (values ++ [VNum i])
        else throw
      else ret values
  end.

Definition range (steps : nat) (min max : Z) : M Observable :=
  let* values := range_loop steps min max [] in
  ret (From values).

(** ** Subject: broadcast (lines 47-57) *)

Definition Subject_next (fuel : nat) (s : loc) (value : value) : M unit :=
  let* observers := get_observers s in
  forEach (fun observer => call_next fuel (ObserverNext (snd observer)) value) observers.

Definition Subject_error (fuel : nat) (s : loc) (err : string) : M unit :=
  let* observers := get_observers s in
  forEach (fun observer => call_error fuel (ObserverError (snd observer)) err) observers.

Definition Subject_complete (fuel : nat) (s : loc) : M unit :=
  let* observers := get_observers s in
  forEach (fun observer => call_complete fuel (ObserverComplete (snd observer))) observers.

(** ** The host *)

(** The body of a callback handed to [setTimeout] or [setInterval]. *)
Definition run_task (fuel : nat) (task : Task) : M unit :=
  match task with
  | CustomTask obs batch => forEach (deliver fuel obs) batch
  (* of, lines 319-322 *)
  | OfTask observer v =>
      call_next fuel (ObserverNext observer) v >>
      call_complete fuel (ObserverComplete observer)
  (* from, lines 344-350 *)
  | FromTask fr observer values =>
      forEach (fun value =>
                 let* isdisposed := get_isdisposed fr in
                 when (negb isdisposed) (call_next fuel (ObserverNext observer) value))
              values >>
      let* isdisposed := get_isdisposed fr in
      when (negb isdisposed) (call_complete fuel (ObserverComplete observer))
  (* interval, lines 389-392 *)
  | IntervalTask fr observer =>
      (let* i := get_i fr in
       call_next fuel (ObserverNext observer) (VNum i)) >>
      let* i := get_i fr in
      set_i fr (i + 1)
  end.

(** The host runs the oldest pending zero-delay timer, if any. *)
Definition run_timeout (fuel : nat) : M unit :=
  fun st => match timeouts st with
            | [] => Ok tt st
            | task :: rest => run_task fuel task (set_timeouts rest st)
            end.

(** The host runs pending timers, at most [k] of them; the run is cut at
    a callback that faults. *)
Fixpoint run_timeouts (fuel : nat) (k : nat) : M unit :=
  match k with
  | O => ret tt
  | S k' => run_timeout fuel >> run_timeouts fuel k'
  end.

(** The interval timer [handle] fires, if it is still active. *)
Definition tick (fuel : nat) (handle : nat) : M unit :=
  fun st => match List.find (fun e => Nat.eqb (fst e) handle) (intervals st) with
            | Some (_, task) => run_task fuel task st
            | None => Ok tt st
            end.

(** The event [e] named [eventName] is dispatched on [element]. *)
Definition dispatch (fuel : nat) (element : nat) (eventName : string) (e : nat) : M unit :=
  fun st =>
    forEach (fun l : nat * string * nat * Listener =>
               let '(el, name, _, EventHandler observer) := l in
               when (Nat.eqb el element && String.eqb name eventName)
                    (call_next fuel (ObserverNext observer) (VEvent e)))
            (listeners st) st.

(** Nothing is scheduled and nobody listens: no callback can run again
    unless the user acts. *)
Definition quiescent (st : State) : Prop :=
  timeouts st = [] /\ intervals st = [] /\ listeners st = [].


(** * Scenarios

    The programs the properties are about, written against the interface
    of the library, and the pure functions their outcomes are stated
    with. *)

(** A user observer: three user callbacks sharing one tag. *)
Definition user (tag : nat) : Observer :=
  mkObserver (Some (UserNext tag)) (Some (UserError tag)) (Some (UserComplete tag)).

(** The state after user callback [tag] received [s]. *)
Definition log (tag : nat) (s : Signal) (st : State) : State :=
  set_trace (trace st ++ [(tag, s)]) st.

(** The values among signals, in order. *)
Fixpoint nexts (l : list Signal) : list value :=
  match l with
  | [] => []
  | Next v :: l' => v :: nexts l'
  | _ :: l' => nexts l'
  end.

(** The errors among signals, in order. *)
Fixpoint errors (l : list Signal) : list Signal :=
  match l with
  | [] => []
  | Error m :: l' => Error m :: errors l'
  | _ :: l' => errors l'
  end.

(** The number of completions among signals. *)
Fixpoint completions (l : list Signal) : nat :=
  match l with
  | [] => 0
  | Complete :: l' => S (completions l')
  | _ :: l' => completions l'
  end.

(** [count] consecutive integers from [first]. *)
Fixpoint ascending (first : Z) (count : nat) : list Z :=
  match count with
  | O => []
  | S c => first :: ascending (first + 1) c
  end.

(** The shortest prefix of [l] that holds [m] values (all of [l] when it
    holds fewer). *)
Fixpoint through (m : nat) (l : list Signal) : list Signal :=
  match m, l with
  | O, _ => []
  | _, [] => []
  | S m', Next v :: l' => Next v :: through m' l'
  | S _, s :: l' => s :: through m l'
  end.

(** ** Library sources *)

(** Subscribe a user observer, let one timer run. *)
Definition run_once (fuel : nat) (this : Observable) (tag : nat) : M unit :=
  subscribe_user fuel this tag >> run_timeout fuel.

(** Subscribe a user observer to [from(values)], let the timer run. *)
Definition run_from (fuel : nat) (values : list value) (tag : nat) : M unit :=
  subscribe_user fuel (From values) tag >> run_timeout fuel.

(** Call [range(min, max)], subscribe a user observer to the result, let
    the timer run. *)
Definition run_range (steps fuel : nat) (min max : Z) (tag : nat) : M unit :=
  let* source := range steps min max in
  subscribe_user fuel source tag >> run_timeout fuel.

Definition run_take_from (fuel : nat) (values : list value) (n : Z) (tag : nat) : M unit :=
  subscribe_user fuel (Take n (From values)) tag >> run_timeout fuel.

(** Subscribe, dispose at once, then let the timer run. *)
Definition dispose_then_run (fuel : nat) (this : Observable) (tag : nat) : M unit :=
  let* s := subscribe_user fuel this tag in
  dispose fuel s >> run_timeout fuel.

(** The number of values [range(min, max)] delivers, as the specification
    words it: the call returns, and the subscriber receives
    [max - min + 1] values. *)
Definition range_count_as_stated (min max : Z) : Prop :=
  exists steps, forall tag k,
    exists st,
      run_range steps (5 + k) min max tag init = Ok tt st /\
      Z.of_nat (length (nexts (List.map snd (trace st)))) = max - min + 1.

(** The number of values [from(values).take(n)] delivers, as the
    specification words it: [min(n, values.length)]. *)
Definition take_count_as_stated (values : list value) (n : Z) : Prop :=
  forall tag k st,
    run_take_from (6 + k) values n tag init = Ok tt st ->
    Z.of_nat (length (nexts (List.map snd (trace st))))
    = Z.min n (Z.of_nat (length values)).

(** The observer [take(n)] subscribes upstream with, its locals in frame
    [fr], for a user observer [tag] downstream. *)
Definition take_observer (fr : loc) (n : Z) (tag : nat) : Observer :=
  mkObserver (Some (TakeNext fr n (wrap (user tag))))
             (Some (ObserverError (wrap (user tag))))
             (Some (ObserverComplete (wrap (user tag)))).

(** The states of a run of [from(values).take(n)] once subscribed:
    [take]'s frame, then [from]'s. *)
Definition st_take (i : Z) (isdisposed : bool) (tr : list (nat * Signal)) : State :=
  mkState [CTake i (Some (mkSubscription (FlagDispose 1%nat))); CProducer isdisposed]
          [] [] [] 0%nat tr [].

(** The states of [take(n)] while its upstream is still inside
    [subscribe]: [subscription] is not initialised. *)
Definition st_take_sync (i : Z) (tr : list (nat * Signal)) : State :=
  mkState [CTake i None] [] [] [] 0%nat tr [].

(** ** Scripted sources *)

(** All signals of a scripted source, in delivery order. *)
Definition script (sync : list Signal) (deferred : list (list Signal)) : list Signal :=
  sync ++ concat deferred.

(** Subscribe a user observer to [op] applied to a scripted source, then
    let [timers] of the pending timers run. *)
Definition run_script (fuel : nat) (op : Observable -> Observable)
    (sync : list Signal) (deferred : list (list Signal)) (tag : nat) (timers : nat)
  : M unit :=
  subscribe_user fuel (op (Custom sync deferred)) tag >> run_timeouts fuel timers.

(** An observer as a transition function: from its state and a signal,
    the next state and the signals passed downstream. *)
Fixpoint reacts {T : Type} (react : T -> Signal -> T * list Signal)
    (t : T) (l : list Signal) : T * list Signal :=
  match l with
  | [] => (t, [])
  | s :: l' =>
      let '(t', out) := react t s in
      let '(t'', out') := reacts react t' l' in
      (t'', out ++ out')
  end.

(** What [join]'s handlers do with a signal, given the values buffered. *)
Definition join_react (values : list value) (s : Signal) : list value * list Signal :=
  match s with
  | Next v => (values ++ [v], [])
  | Error m => (values, [Error m])
  | Complete => (values, [Next (VArr values); Complete])
  end.

(** The observer [join] subscribes upstream with. *)
Definition join_observer (fr : loc) (tag : nat) : Observer :=
  mkObserver (Some (JoinNext fr))
             (Some (ObserverError (wrap (user tag))))
             (Some (JoinComplete fr (wrap (user tag)))).

(** What [map(f)]'s handlers pass downstream. *)
Definition map_signal (f : value -> value) (s : Signal) : Signal :=
  match s with
  | Next v => Next (f v)
  | _ => s
  end.

Definition map_react {T : Type} (f : value -> value) (t : T) (s : Signal)
  : T * list Signal :=
  (t, [map_signal f s]).

(** The observer [map(f)] subscribes upstream with, for [obs] downstream. *)
Definition map_observer (f : value -> value) (obs : Observer) : Observer :=
  mkObserver (Some (MapNext f (wrap obs)))
             (Some (ObserverError (wrap obs)))
             (Some (ObserverComplete (wrap obs))).

(** ** Subjects *)

(** The callbacks of a subscriber to a Subject: user callback [tag] for
    values, any callbacks (or none) for errors and completion. *)
Definition listener (tag : nat) (error : option ErrorCallback)
    (complete : option CompleteCallback) : Observer :=
  mkObserver (Some (UserNext tag)) error complete.

(** [values.forEach(v => subject.next(v))] *)
Definition Subject_nexts (fuel : nat) (s : loc) (values : list value) : M unit :=
  forEach (Subject_next fuel s) values.

(** Observers whose value callback is a user callback, or absent. *)
Definition plain (o : Observer) : Prop :=
  match _next o with
  | Some (UserNext _) | None => True
  | _ => False
  end.

(** The calls a broadcast of [v] makes on plain observers, in the order of
    the collection. *)
Definition heard (observers : list (nat * Observer)) (v : value) : list (nat * Signal) :=
  flat_map (fun o => match _next (snd o) with
                     | Some (UserNext tag) => [(tag, Next v)]
                     | _ => []
                     end) observers.

(** The states of a program that created a Subject in state [st]: its
    observers, the next fresh identity and the trace have changed. *)
Definition with_subject (st : State) (observers : list (nat * Observer)) (fresh : nat)
    (tr : list (nat * Signal)) : State :=
  mkState (heap st ++ [CSubject observers]) (timeouts st) (intervals st) (listeners st)
          fresh tr (host st).

(** Two subscriptions to a new Subject, then a broadcast of [values]. *)
Definition two_subscribers (fuel : nat) (a b : Observer) (values : list value) : M loc :=
  let* s := new_Subject in
  let* _ := Subject_subscribe s (_next a) (_error a) (_complete a) in
  let* _ := Subject_subscribe s (_next b) (_error b) (_complete b) in
  Subject_nexts fuel s values >> ret s.

(** The second subscription is made after the values [early]. *)
Definition late_subscriber (fuel : nat) (a b : Observer) (early later : list value)
  : M loc :=
  let* s := new_Subject in
  let* _ := Subject_subscribe s (_next a) (_error a) (_complete a) in
  Subject_nexts fuel s early >>
  let* _ := Subject_subscribe s (_next b) (_error b) (_complete b) in
  Subject_nexts fuel s later >> ret s.

(** One of the two subscriptions is disposed before the broadcast. *)
Definition disposed_subscriber (fuel : nat) (first : bool) (a b : Observer)
    (values : list value) : M loc :=
  let* s := new_Subject in
  let* sa := Subject_subscribe s (_next a) (_error a) (_complete a) in
  let* sb := Subject_subscribe s (_next b) (_error b) (_complete b) in
  dispose fuel (if first then sa else sb) >>
  Subject_nexts fuel s values >> ret s.

(** The creation functions whose subscriptions carry an [isdisposed]
    guard. *)
Definition guarded_creation (this : Observable) : bool :=
  match this with
  | Empty | Of _ | From _ | Interval _ | FromEvent _ _ => true
  | _ => false
  end.

(** Subscribe, then dispose [times] times in a row. *)
Fixpoint dispose_times (fuel : nat) (s : Subscription) (times : nat) : M unit :=
  match times with
  | O => ret tt
  | S t => dispose fuel s >> dispose_times fuel s t
  end.

(** ** mergeMap and merge with a source that completes inside subscribe *)

(** [subject.asObservable().mergeMap(v => empty())], then [subject.next(1)]. *)
Definition mergeMap_empty_on_subject (fuel : nat) (tag : nat) : M unit :=
  let* s := new_Subject in
  let* _ := subscribe_user fuel (MergeMap (fun _ => Empty) (SubjectObs s)) tag in
  Subject_next fuel s (VNum 1).

(** [from([1, 2]).mergeMap(v => empty())], after its timer ran. *)
Definition mergeMap_empty_on_from (fuel : nat) (tag : nat) : M unit :=
  subscribe_user fuel (MergeMap (fun _ => Empty) (From [VNum 1; VNum 2])) tag >>
  run_timeout fuel.

(** A source that delivers 1 and 2 inside subscribe, mapped by [mergeMap]
    to the Subject [s] (which never completes) and to [empty()]. *)
Definition mergeMap_pending_inner (fuel : nat) (tag : nat) : M unit :=
  let* s := new_Subject in
  let* _ := subscribe_user fuel
              (MergeMap (fun v => match v with VNum 1 => SubjectObs s | _ => Empty end)
                        (Custom [Next (VNum 1); Next (VNum 2)] [])) tag in
  ret tt.

(** [merge(from([1]), empty())] *)
Definition merge_from_empty : Observable := Merge [From [VNum 1]; Empty].

(** * Further scenarios

    Programs and outcome functions for the parts of the library the
    properties above leave out. *)

(** ** Subject: all three broadcasts *)

(** [subject.next(v)], [subject.error(m)] or [subject.complete()], by the
    signal. *)
Definition Subject_signal (fuel : nat) (s : loc) (sig : Signal) : M unit :=
  match sig with
  | Next v => Subject_next fuel s v
  | Error m => Subject_error fuel s m
  | Complete => Subject_complete fuel s
  end.

Definition Subject_signals (fuel : nat) (s : loc) (sigs : list Signal) : M unit :=
  forEach (Subject_signal fuel s) sigs.

(** A collection of observers with user callbacks, given as identity and
    tag of each. *)
Definition user_observers (subs : list (nat * nat)) : list (nat * Observer) :=
  List.map (fun p => (fst p, user (snd p))) subs.

(** One broadcast as the subscribers [subs] see it. *)
Definition relayed (subs : list (nat * nat)) (sig : Signal) : list (nat * Signal) :=
  List.map (fun p => (snd p, sig)) subs.

(** The identities of the observers were issued earlier. *)
Definition issued (st : State) (observers : list (nat * Observer)) : Prop :=
  Forall (fun o => (fst o < supply st)%nat) observers.

(** A Subject is created; it publishes [before]; a user subscribes to
    [subject.asObservable().map(f)]; it publishes [during]; the
    subscription is disposed; it publishes [after]. *)
Definition published_through_map (fuel : nat) (f : value -> value) (tag : nat)
    (before during after : list value) : M loc :=
  let* s := new_Subject in
  Subject_nexts fuel s before >>
  let* sub := subscribe_user fuel (Map f (SubjectObs s)) tag in
  Subject_nexts fuel s during >>
  dispose fuel sub >>
  Subject_nexts fuel s after >>
  ret s.

(** ** interval and fromEvent driven by the host *)

(** The interval timer [handle] fires [count] times. *)
Fixpoint ticks (fuel : nat) (handle : nat) (count : nat) : M unit :=
  match count with
  | O => ret tt
  | S c => tick fuel handle >> ticks fuel handle c
  end.

(** A user subscribes to [interval(period)] in the initial state (the timer
    gets handle 0); the timer fires [before] times; the subscription is
    disposed; the host is asked to fire the timer [after] more times. *)
Definition interval_run (fuel : nat) (period : Z) (tag : nat) (before after : nat)
  : M unit :=
  let* sub := subscribe_user fuel (Interval period) tag in
  ticks fuel 0 before >>
  dispose fuel sub >>
  ticks fuel 0 after.

(** The states of a subscription to [interval]: the counter and the trace
    change. *)
Definition st_interval (tag : nat) (i : Z) (tr : list (nat * Signal)) : State :=
  mkState [CInterval (Some 0%nat) false i] []
          [(0%nat, IntervalTask 0%nat (wrap (user tag)))] [] 1%nat tr [].

(** Events dispatched in turn, each on an element, with a name. *)
Definition dispatches (fuel : nat) (events : list (nat * string * nat)) : M unit :=
  forEach (fun ev => dispatch fuel (fst (fst ev)) (snd (fst ev)) (snd ev)) events.

(** The events among [events] that are dispatched on [element] with the
    name [eventName]. *)
Definition events_on (element : nat) (eventName : string)
    (events : list (nat * string * nat)) : list nat :=
  List.map snd
    (List.filter (fun ev => Nat.eqb element (fst (fst ev))
                            && String.eqb eventName (snd (fst ev))) events).

(** A user subscribes to [fromEvent(element, eventName)] in the initial
    state; the events [before] are dispatched; the subscription is
    disposed; the events [after] are dispatched. *)
Definition fromEvent_run (fuel : nat) (element : nat) (eventName : string) (tag : nat)
    (before after : list (nat * string * nat)) : M unit :=
  let* sub := subscribe_user fuel (FromEvent element eventName) tag in
  dispatches fuel before >>
  dispose fuel sub >>
  dispatches fuel after.

(** The states of a subscription to [fromEvent]: the trace changes. *)
Definition st_listening (element : nat) (eventName : string) (tag : nat)
    (tr : list (nat * Signal)) : State :=
  mkState [CProducer false] [] []
          [(element, eventName, 0%nat, EventHandler (wrap (user tag)))] 1%nat tr [].

(** A user subscribes to [interval(period).take(n)] in the initial state;
    the host is asked to fire the timer [count] times. *)
Definition interval_take_run (fuel : nat) (period n : Z) (tag : nat) (count : nat)
  : M unit :=
  subscribe_user fuel (Take n (Interval period)) tag >> ticks fuel 0 count.

(** The states of a subscription to [interval(period).take(n)]: [take]'s
    frame, then [interval]'s; while the timer is [live] it is registered
    with the host, afterwards it has been cleared. *)
Definition st_interval_take (n : Z) (tag : nat) (live : bool) (i : Z)
    (tr : list (nat * Signal)) : State :=
  mkState [CTake i (Some (mkSubscription (IntervalDispose 1%nat)));
           CInterval (Some 0%nat) (negb live) i]
          []
          (if live then [(0%nat, IntervalTask 1%nat (wrap (take_observer 0%nat n tag)))]
           else [])
          [] 1%nat tr
          (if live then [] else [ClearInterval 0]).

(** ** take over any scripted source *)

(** What [take(n)]'s handlers pass downstream, given the counter [i]
    (lines 116-130): values while [i < n - 1], the [n]-th value together
    with a completion, and every error and completion of the source. *)
Definition take_react (n : Z) (i : Z) (s : Signal) : Z * list Signal :=
  match s with
  | Next v =>
      (i + 1,
       (if i <? n - 1 then [Next v] else [])
       ++ (if i =? n - 1 then [Next v; Complete] else []))
  | Error m => (i, [Error m])
  | Complete => (i, [Complete])
  end.

(** ** Observers with absent callbacks *)

(** The observer built by [subscribe(next?, error?, complete?)] from user
    callbacks, each given or not. *)
Definition partial_user (tag : nat) (next error complete : bool) : Observer :=
  mkObserver (if next then Some (UserNext tag) else None)
             (if error then Some (UserError tag) else None)
             (if complete then Some (UserComplete tag) else None).

(** The signals for which a callback was given. *)
Definition accepts (next error complete : bool) (s : Signal) : bool :=
  match s with
  | Next _ => next
  | Error _ => error
  | Complete => complete
  end.

Definition partial_react {T : Type} (next error complete : bool) (t : T) (s : Signal)
  : T * list Signal :=
  (t, if accepts next error complete s then [s] else []).

(** Subscribe to a scripted source with the callbacks given, then let
    [timers] timers run. *)
Definition run_partial (fuel : nat) (sync : list Signal) (deferred : list (list Signal))
    (tag : nat) (next error complete : bool) (timers : nat) : M unit :=
  _subscribe fuel (Custom sync deferred) (partial_user tag next error complete) >>
  run_timeouts fuel timers.

(** ** The first pipeline of [src/index.ts] (lines 8-10) *)




(** [range(min, max).take(n)], subscribed by a user, after its timer. *)
Definition run_take_range (steps fuel : nat) (min max n : Z) (tag : nat) : M unit :=
  let* source := range steps min max in
  subscribe_user fuel (Take n source) tag >> run_timeout fuel.

(** ** merge and mergeMap over [from] sources *)

(** The timer callbacks of [from(values)] for each of [sources],
    subscribed in turn with [observer], the first frame at [fr]. *)
Fixpoint from_tasks (observer : Observer) (fr : loc) (sources : list (list value))
  : list Task :=
  match sources with
  | [] => []
  | values :: rest => FromTask fr observer values :: from_tasks observer (S fr) rest
  end.

(** The subscriptions these subscribe calls return. *)
Fixpoint from_subscriptions (fr : loc) (count : nat) : list Subscription :=
  match count with
  | O => []
  | S c => mkSubscription (FlagDispose fr) :: from_subscriptions (S fr) c
  end.

(** What [from] delivers for each of [sources], one after the other. *)
Definition from_signals (sources : list (list value)) : list Signal :=
  concat (List.map (fun values => List.map Next values ++ [Complete]) sources).

(** The observer [merge] subscribes every source with (lines 424-431),
    its frame at [fr]. *)
Definition merge_observer (fr : loc) (obs : Observer) : Observer :=
  mkObserver (Some (ObserverNext (wrap obs)))
             (Some (ObserverError (wrap obs)))
             (Some (MergeComplete fr (wrap obs))).

(** The observer [mergeMap] subscribes every inner Observable with
    (lines 221-225). *)
Definition mergeMap_observer (fr : loc) (obs : Observer) : Observer :=
  mkObserver (Some (MergeMapInnerNext (wrap obs)))
             (Some (MergeMapError (wrap obs)))
             (Some (MergeMapComplete fr (wrap obs))).

(** What the handlers of [merge] and of [mergeMap] pass downstream when
    [subscriptions] holds [registered] subscriptions and [completeCount]
    is as given: values and errors, and a completion when the count
    reaches the length of [subscriptions]. *)
Definition merge_react (registered : nat) (completeCount : Z) (s : Signal)
  : Z * list Signal :=
  match s with
  | Complete =>
      (completeCount + 1,
       if completeCount + 1 =? Z.of_nat registered then [Complete] else [])
  | _ => (completeCount, [s])
  end.

(** [merge(from(a), from(b), ...)] *)
Definition merge_from (sources : list (list value)) : Observable :=
  Merge (List.map From sources).

(** Subscribe a user observer to it, then let [timers] timers run. *)
Definition run_merge_from (fuel : nat) (sources : list (list value)) (tag : nat)
    (timers : nat) : M unit :=
  subscribe_user fuel (merge_from sources) tag >> run_timeouts fuel timers.

(** Subscribe, dispose at once, then let the timers run. *)
Definition dispose_merge_from (fuel : nat) (sources : list (list value)) (tag : nat)
    (timers : nat) : M unit :=
  let* s := subscribe_user fuel (merge_from sources) tag in
  dispose fuel s >> run_timeouts fuel timers.

(** [from(values).mergeMap(v => from(inner(v)))], as in the comment of
    lines 202-210. *)
Definition mergeMap_from (inner : value -> list value) (values : list value) : Observable :=
  MergeMap (fun v => From (inner v)) (From values).

(** Subscribe a user observer to it; let the timer of the outer [from]
    run, then [timers] of the timers of the inner ones. *)
Definition run_mergeMap_from (fuel : nat) (inner : value -> list value)
    (values : list value) (tag : nat) (timers : nat) : M unit :=
  subscribe_user fuel (mergeMap_from inner values) tag >>
  run_timeout fuel >>
  run_timeouts fuel timers.

(** The observer [mergeMap] subscribes its source with (lines 218-230). *)
Definition mergeMap_outer_observer (fr : loc) (mergeMap : value -> Observable)
    (obs : Observer) : Observer :=
  mkObserver (Some (MergeMapOuterNext fr mergeMap (wrap obs)))
             (Some (MergeMapError (wrap obs)))
             (Some (MergeMapComplete fr (wrap obs))).

(** ** Disposal through a chain of operators *)

(** The operators whose subscription disposes the one upstream
    (take 133-135, map 196-198, join 275-277). *)
Inductive Operator :=
| OpTake (n : Z)
| OpMap (map : value -> value)
| OpJoin.

Definition apply_operator (this : Observable) (op : Operator) : Observable :=
  match op with
  | OpTake n => Take n this
  | OpMap map => Map map this
  | OpJoin => Join this
  end.

(** [source.op1().op2()...] *)
Definition pipe (source : Observable) (ops : list Operator) : Observable :=
  fold_left apply_operator ops source.

(** The subscription [s] behind [n] operators. *)
Definition upstream (n : nat) (s : Subscription) : Subscription :=
  Nat.iter n (fun s' => mkSubscription (DisposeUpstream s')) s.

(** The creation functions that call their observer from the host only. *)
Definition async_creation (this : Observable) : bool :=
  match this with
  | Of _ | From _ | Interval _ | FromEvent _ _ => true
  | _ => false
  end.

(** What subscribing to a creation function with observer [obs] leaves
    behind: its frame at [fr], the disposal function it returns, and what
    it registers with the host under the fresh identity [h]. *)
Definition source_cell (source : Observable) (h : nat) : Cell :=
  match source with
  | Interval _ => CInterval (Some h) false 0
  | _ => CProducer false
  end.

Definition source_disposer (source : Observable) (fr : loc) (h : nat) : Disposer :=
  match source with
  | Interval _ => IntervalDispose fr
  | FromEvent element eventName => EventDispose fr element eventName h
  | _ => FlagDispose fr
  end.

Definition source_timeouts (source : Observable) (fr : loc) (obs : Observer) : list Task :=
  match source with
  | Of v => [OfTask (wrap obs) v]
  | From values => [FromTask fr (wrap obs) values]
  | _ => []
  end.

Definition source_intervals (source : Observable) (fr : loc) (h : nat) (obs : Observer)
  : list (nat * Task) :=
  match source with
  | Interval _ => [(h, IntervalTask fr (wrap obs))]
  | _ => []
  end.

Definition source_listeners (source : Observable) (fr : loc) (h : nat) (obs : Observer)
  : list (nat * string * nat * Listener) :=
  match source with
  | FromEvent element eventName => [(element, eventName, h, EventHandler (wrap obs))]
  | _ => []
  end.

(** The creation functions whose timer or listener reads the disposal
    (all but [of], whose timer callback does not look at the flag). *)
Definition silenced_by_dispose (source : Observable) : bool :=
  match source with
  | From _ | Interval _ | FromEvent _ _ => true
  | _ => false
  end.

(** The host resources a disposal gives back, the subscription being the
    first of the run. *)
Definition released (source : Observable) : list HostCall :=
  match source with
  | Interval _ => [ClearInterval 0]
  | FromEvent element eventName => [RemoveEventListener element eventName 0]
  | _ => []
  end.

(** Subscribe a user observer to [source] behind [ops], dispose, then
    let the host run [timers] timers, fire the interval timers [handles]
    and dispatch [events]. *)
Definition dispose_pipe (fuel : nat) (source : Observable) (ops : list Operator) (tag : nat)
    (timers : nat) (handles : list nat) (events : list (nat * string * nat)) : M unit :=
  let* s := subscribe_user fuel (pipe source ops) tag in
  dispose fuel s >>
  run_timeouts fuel timers >>
  forEach (tick fuel) handles >>
  dispatches fuel events.

From Stdlib Require Import Ascii.

(** * A model of the DOM wrappers ([src/core/dom.ts])

    Elements are numbers; strings stand for JavaScript strings of
    characters below 256.  The document is known by its three lookup
    functions; an element by the value of [style.display] and by the
    listeners registered on it. *)

Module Dom.

Local Open Scope string_scope.

(** The text of [s] after the first occurrence of [c], if there is one. *)
Fixpoint after (c : ascii) (s : string) : option string :=
  match s with
  | EmptyString => None
  | String a s' => if Ascii.eqb a c then Some s' else after c s'
  end.

(** The line terminators below 256: line feed and carriage return. *)
Definition line_terminator (a : ascii) : bool :=
  Ascii.eqb a "010" || Ascii.eqb a "013".

(** What [.*] matches at the start of [s]: everything up to the first
    line terminator. *)
Fixpoint line (s : string) : string :=
  match s with
  | EmptyString => EmptyString
  | String a s' => if line_terminator a then EmptyString else String a (line s')
  end.

(** No line terminator occurs in [s]. *)
Fixpoint one_line (s : string) : bool :=
  match s with
  | EmptyString => true
  | String a s' => negb (line_terminator a) && one_line s'
  end.

(** [s] is empty or starts with a line terminator. *)
Definition ends_line (s : string) : bool :=
  match s with
  | EmptyString => true
  | String a _ => line_terminator a
  end.

(** The group captured by the regular expression of lines 12-13 (with
    [c] the hash sign) or 23-24 (with [c] the dot), or [None] when its
    test fails: the match starts at the first [c] and the group takes the
    rest of the line. *)
Definition capture (c : ascii) (selector : string) : option string :=
  option_map line (after c selector).

Record Document := mkDocument {
  getElementById : string -> option nat;
  (* called on the document ([None]) or on an element *)
  getElementsByClassName : option nat -> string -> list nat;
  getElementsByTagName : option nat -> string -> list nat
}.

(** [class ElementWrapper], lines 44-47: the element and the private
    field [display]. *)
Record ElementWrapper := mkElementWrapper {
  nativeElement : nat;
  display : option string
}.

Definition new_ElementWrapper (nativeElement : nat) : ElementWrapper :=
  mkElementWrapper nativeElement None.

Inductive Selected :=
| One (element : ElementWrapper)
| Many (elements : list ElementWrapper).

Inductive Outcome (A : Type) :=
| Returns (a : A)
| Throws (message : string).
Arguments Returns {A} a.
Arguments Throws {A} message.

(** [elementCollectionFromHTML], lines 32-42 *)
Definition elementCollectionFromHTML (htmlElements : list nat) : list ElementWrapper :=
  List.map new_ElementWrapper htmlElements.

(** [select(element, selector)], lines 7-30 *)
Definition select (document : Document) (element : option nat) (selector : string)
  : Outcome Selected :=
  match capture "#" selector with
  | Some id =>
      match getElementById document id with
      | Some found => Returns (One (new_ElementWrapper found))
      | None => Throws ("Element with id " ++ id ++ " not found")
      end
  | None =>
      match capture "." selector with
      | Some className =>
          Returns (Many (elementCollectionFromHTML
                           (getElementsByClassName document element className)))
      | None =>
          Returns (Many (elementCollectionFromHTML
                           (getElementsByTagName document element selector)))
      end
  end.

(** [$(selector)], lines 3-5 *)
Definition dollar (document : Document) (selector : string) : Outcome Selected :=
  select document None selector.

(** [ElementWrapper.select(selector)], lines 53-55 *)
Definition ElementWrapper_select (document : Document) (this : ElementWrapper)
    (selector : string) : Outcome Selected :=
  select document (Some (nativeElement this)) selector.

(** [if (this.display)]: neither [null] nor the empty string. *)
Definition truthy (s : option string) : bool :=
  match s with
  | None => false
  | Some EmptyString => false
  | Some _ => true
  end.

(** [hide()], lines 71-77, on the wrapper and the [style.display] of its
    element. *)
Definition hide (this : ElementWrapper) (style_display : string)
  : ElementWrapper * string :=
  if negb (String.eqb style_display "none")
  then (mkElementWrapper (nativeElement this) (Some style_display), "none")
  else (this, style_display).

(** [show()], lines 79-90 *)
Definition show (this : ElementWrapper) (style_display : string)
  : ElementWrapper * string :=
  if truthy (display this) then
    if String.eqb style_display "none"
    then (mkElementWrapper (nativeElement this) None,
          match display this with Some d => d | None => style_display end)
    else (this, style_display)
  else (this, "initial").

Inductive Toggle := CallHide | CallShow.

Definition toggle (t : Toggle) (view : ElementWrapper * string) : ElementWrapper * string :=
  match t with
  | CallHide => hide (fst view) (snd view)
  | CallShow => show (fst view) (snd view)
  end.

(** Calls of [hide()] and [show()] on one wrapper, in order. *)
Definition toggles (calls : list Toggle) (view : ElementWrapper * string)
  : ElementWrapper * string :=
  fold_left (fun v t => toggle t v) calls view.

(** [addEventListener$(eventName)], lines 102-125: the variables
    [isdisposed] and [eventHandler] belong to the call that built the
    Observable, so all its subscriptions share them.  [handlers] are the
    listeners of the element for [eventName], each a new function
    (identified by a number) that calls its subscriber. *)
Record Listening := mkListening {
  isdisposed : bool;
  eventHandler : option nat;
  handlers : list (nat * nat);
  fresh : nat
}.

(** Lines 104-105 *)
Definition new_Listening : Listening := mkListening false None [] 0.

(** Subscribing (lines 107-116): [eventHandler] is assigned a new
    function, which is registered. *)
Definition listen (subscriber : nat) (st : Listening) : Listening :=
  mkListening (isdisposed st) (Some (fresh st))
              (handlers st ++ [(fresh st, subscriber)]) (S (fresh st)).

(** The disposal function of any of the subscriptions (lines 118-123):
    it removes the function [eventHandler] holds when it is called. *)
Definition unlisten (st : Listening) : Listening :=
  if isdisposed st then st
  else mkListening true (eventHandler st)
         (match eventHandler st with
          | Some h => List.filter (fun l => negb (Nat.eqb (fst l) h)) (handlers st)
          | None => handlers st
          end)
         (fresh st).

Definition listen_all (subscribers : list nat) (st : Listening) : Listening :=
  fold_left (fun s subscriber => listen subscriber s) subscribers st.

(** The subscribers an event reaches, in order. *)
Definition reached (st : Listening) : list nat := List.map snd (handlers st).

End Dom.

(** * The last pipeline of [src/index.ts] (lines 24-28) *)

(** [interval(period).mergeMap((i) => of(i)).take(n).join()] *)
Definition index_pipeline (period n : Z) : Observable :=
  Join (Take n (MergeMap (fun i => Of i) (Interval period))).

(** The timer of [interval] fires, then the zero-delay timer that its
    callback has set runs. *)
Definition round (fuel : nat) : M unit := tick fuel 0 >> run_timeout fuel.

Fixpoint rounds (fuel : nat) (count : nat) : M unit :=
  match count with
  | O => ret tt
  | S c => round fuel >> rounds fuel c
  end.

(** [.subscribe(console.log)], then [count] rounds. *)
Definition run_index_pipeline (fuel : nat) (period n : Z) (tag : nat) (count : nat)
  : M unit :=
  subscribe fuel (index_pipeline period n) (Some (UserNext tag)) None None >>
  rounds fuel count.

(** The observers handed upstream along that pipeline: by [join] (frame
    0) to [take], by [take] (frame 1) to [mergeMap], and by [mergeMap]
    (frame 2) to [interval] and to every [of(i)]. *)
Definition index_join_observer (tag : nat) : Observer :=
  mkObserver (Some (JoinNext 0%nat))
             (Some (ObserverError (wrap (partial_user tag true false false))))
             (Some (JoinComplete 0%nat (wrap (partial_user tag true false false)))).

Definition index_take_observer (n : Z) (tag : nat) : Observer :=
  mkObserver (Some (TakeNext 1%nat n (wrap (index_join_observer tag))))
             (Some (ObserverError (wrap (index_join_observer tag))))
             (Some (ObserverComplete (wrap (index_join_observer tag)))).

Definition index_interval_task (n : Z) (tag : nat) : Task :=
  IntervalTask 3%nat
    (wrap (mergeMap_outer_observer 2%nat (fun i => Of i) (index_take_observer n tag))).

Definition index_of_task (n : Z) (tag : nat) (i : Z) : Task :=
  OfTask (wrap (mergeMap_observer 2%nat (index_take_observer n tag))) (VNum i).

(** The states of the pipeline between rounds: after [m] rounds, and
    with the interval timer still set ([live]) or after [take] has
    disposed its source. *)
Definition st_index (n : Z) (tag : nat) (live : bool) (m : nat)
    (tr : list (nat * Signal)) : State :=
  mkState (CJoin (List.map VNum (ascending 0 m))
           :: CTake (Z.of_nat m) (Some (mkSubscription (DisposeAll 2%nat)))
           :: CMergeMap (mkSubscription (IntervalDispose 3%nat) :: from_subscriptions 4%nat m)
                        (Z.of_nat m)
           :: CInterval (Some 0%nat) (negb live) (Z.of_nat m)
           :: replicate m (CProducer (negb live)))
          []
          (if live then [(0%nat, index_interval_task n tag)] else [])
          [] 1%nat tr
          (if live then [] else [ClearInterval 0]).

(** The state inside round [m], after the interval timer fired. *)
Definition st_index_fired (n : Z) (tag : nat) (m : nat) : State :=
  mkState (CJoin (List.map VNum (ascending 0 m))
           :: CTake (Z.of_nat m) (Some (mkSubscription (DisposeAll 2%nat)))
           :: CMergeMap (mkSubscription (IntervalDispose 3%nat)
                         :: from_subscriptions 4%nat (S m))
                        (Z.of_nat m)
           :: CInterval (Some 0%nat) false (Z.of_nat m + 1)
           :: replicate (S m) (CProducer false))
          [index_of_task n tag (Z.of_nat m)]
          [(0%nat, index_interval_task n tag)]
          [] 1%nat []
          [].

(** * take on a Subject *)

(** A new Subject, a user subscribed to [subject.asObservable().take(n)],
    then [values] published one by one. *)
Definition subject_take_run (fuel : nat) (n : Z) (tag : nat) (values : list value) : M loc :=
  let* s := new_Subject in
  let* _ := subscribe_user fuel (Take n (SubjectObs s)) tag in
  Subject_nexts fuel s values >>
  ret s.

(** The states of that run: the Subject at frame 0 with the observer of
    [take] registered ([live]) or removed, the frame of [take] after it. *)
Definition st_subject_take (n : Z) (tag : nat) (live : bool) (i : Z)
    (tr : list (nat * Signal)) : State :=
  mkState [CSubject (if live then [(0%nat, wrap (take_observer 1%nat n tag))] else []);
           CTake i (Some (mkSubscription (SubjectRemove 0%nat 0%nat)))]
          [] [] [] 1%nat tr [].

(** * Proofs *)

(** Symbolic execution: normalise a run, keeping integer arithmetic and
    operations on unknown lists folded. *)
Ltac exec :=
  lazy -[Z.ltb Z.eqb Z.add Z.sub Z.of_nat Z.to_nat app firstn skipn List.map concat].

(** ** User observers *)

Lemma wrap_user_next k tag v st :
  call_next (4 + k) (ObserverNext (wrap (user tag))) v st = Ok tt (log tag (Next v) st).
Proof. reflexivity. Qed.

(** ** The guard of from's loop *)

Lemma guarded_live fr (m : M unit) st :
  heap st !! fr = Some (CProducer false) ->
  (let* isdisposed := get_isdisposed fr in when (negb isdisposed) m) st = m st.
Proof.
  intros H. unfold bind, get_isdisposed, bind, get_cell. rewrite H. reflexivity.
Qed.

Lemma guarded_disposed fr (m : M unit) st :
  heap st !! fr = Some (CProducer true) ->
  (let* isdisposed := get_isdisposed fr in when (negb isdisposed) m) st = Ok tt st.
Proof.
  intros H. unfold bind, get_isdisposed, bind, get_cell. rewrite H. reflexivity.
Qed.

Lemma from_loop_disposed (f : value -> M unit) fr values : forall st,
  heap st !! fr = Some (CProducer true) ->
  forEach (fun value =>
             let* isdisposed := get_isdisposed fr in
             when (negb isdisposed) (f value))
          values st
  = Ok tt st.
Proof.
  induction values as [|v values IH]; intros st H; [reflexivity|].
  cbn [forEach]. unfold bind at 1.
  rewrite guarded_disposed by exact H. now apply IH.
Qed.

Lemma from_loop_user k tag fr values : forall st,
  heap st !! fr = Some (CProducer false) ->
  forEach (fun value =>
             let* isdisposed := get_isdisposed fr in
             when (negb isdisposed)
                  (call_next (4 + k) (ObserverNext (wrap (user tag))) value))
          values st
  = Ok tt (set_trace (trace st ++ List.map (fun v => (tag, Next v)) values) st).
Proof.
  induction values as [|v values IH]; intros st H.
  - simpl. unfold ret. rewrite app_nil_r. destruct st; reflexivity.
  - cbn [forEach]. unfold bind at 1.
    rewrite guarded_live by exact H.
    rewrite wrap_user_next. rewrite IH by exact H.
    simpl. rewrite <- app_assoc. reflexivity.
Qed.

Lemma run_from_delivers k values tag :
  run_from (5 + k) values tag init
  = Ok tt (mkState [CProducer false] [] [] [] 0%nat
             (List.map (fun v => (tag, Next v)) values ++ [(tag, Complete)]) []).
Proof.
  unfold run_from, subscribe_user, subscribe.
  cbn -[forEach call_next call_complete].
  unfold bind at 1.
  change (wrap _) with (wrap (user tag)).
  rewrite (from_loop_user (1 + k) tag 0%nat values) by reflexivity.
  reflexivity.
Qed.

(** ** Pure facts *)

Lemma nexts_map_Next vs : nexts (List.map Next vs ++ [Complete]) = vs.
Proof. induction vs; simpl; congruence. Qed.

Lemma nexts_app l1 l2 : nexts (l1 ++ l2) = nexts l1 ++ nexts l2.
Proof. induction l1 as [|[]]; simpl; congruence. Qed.

Lemma length_ascending first count : length (ascending first count) = count.
Proof. revert first; induction count; intros; simpl; auto. Qed.

Lemma increment_safe i :
  - MAX_SAFE_INTEGER - 1 <= i <= MAX_SAFE_INTEGER -> increment i = i + 1.
Proof.
  intros H. unfold increment, round_double.
  destruct (Z.leb_spec (Z.abs (i + 1)) MAX_SAFE_INTEGER) as [_|Hbig]; [reflexivity|].
  assert (E : i = MAX_SAFE_INTEGER) by (unfold MAX_SAFE_INTEGER in *; lia).
  rewrite E. reflexivity.
Qed.

(** At 2^53 the increment is lost: 2^53 + 1 is no double, and of its
    two neighbours 2^53 has the even significand. *)
Lemma increment_stuck : increment 9007199254740992 = 9007199254740992.
Proof. reflexivity. Qed.

Lemma range_loop_step steps i max values :
  range_loop (S steps) i max values
  = if i <=? max then
      if Z.of_nat (length values) <? MAX_ARRAY_LENGTH
      then range_loop steps (increment i) max (values ++ [VNum i])
      else throw
    else ret values.
Proof. reflexivity. Qed.

Lemma range_loop_ascending (count j : nat) : forall i max values st,
  count = Z.to_nat (max + 1 - i) ->
  - MAX_SAFE_INTEGER - 1 <= i ->
  max <= MAX_SAFE_INTEGER ->
  Z.of_nat (length values) + Z.of_nat count <= MAX_ARRAY_LENGTH ->
  range_loop (S count + j) i max values st
  = Ok (values ++ List.map VNum (ascending i count)) st.
Proof.
  induction count as [|c IH]; intros i max values st Hc Hi Hmax Hlen;
    change (S ?n + j)%nat with (S (n + j)); rewrite range_loop_step.
  - replace (i <=? max) with false by (symmetry; apply Z.leb_gt; lia).
    cbn. now rewrite app_nil_r.
  - replace (i <=? max) with true by (symmetry; apply Z.leb_le; lia).
    replace (Z.of_nat (length values) <? MAX_ARRAY_LENGTH) with true
      by (symmetry; apply Z.ltb_lt; lia).
    rewrite increment_safe by lia.
    rewrite (IH (i + 1) max) by (rewrite ?length_app; cbn [length]; lia).
    cbn [ascending List.map]. now rewrite <- app_assoc.
Qed.

(** The loop at 2^53 with 2^53 as the bound: [i] stays below the bound
    for ever, and the call ends, if at all, in the [RangeError] of a full
    array. *)
Lemma range_loop_stuck : forall steps values st r st',
  range_loop steps 9007199254740992 9007199254740992 values st <> Ok r st'.
Proof.
  induction steps as [|steps IH]; intros values st r st'; [discriminate|].
  rewrite range_loop_step, Z.leb_refl, increment_stuck.
  destruct (Z.of_nat (length values) <? MAX_ARRAY_LENGTH); [apply IH | discriminate].
Qed.

(** More values than an array holds: the call does not return. *)
Lemma range_loop_overflows : forall steps i max values st r st',
  - MAX_SAFE_INTEGER - 1 <= i <= max + 1 ->
  max <= MAX_SAFE_INTEGER ->
  Z.of_nat (length values) <= MAX_ARRAY_LENGTH ->
  MAX_ARRAY_LENGTH < Z.of_nat (length values) + (max + 1 - i) ->
  range_loop steps i max values st <> Ok r st'.
Proof.
  induction steps as [|steps IH]; intros i max values st r st' Hi Hmax Hlen Hover;
    [discriminate|].
  rewrite range_loop_step.
  destruct (Z.leb_spec i max); [|lia].
  destruct (Z.ltb_spec (Z.of_nat (length values)) MAX_ARRAY_LENGTH); [|discriminate].
  rewrite increment_safe by lia.
  apply IH; rewrite ?length_app; cbn [length]; lia.
Qed.

Lemma run_range_from steps fuel min max tag values st :
  range_loop steps min max [] st = Ok values st ->
  run_range steps fuel min max tag st = run_from fuel values tag st.
Proof.
  intros H. unfold run_range, range, run_from, bind. now rewrite H.
Qed.

(** ** range *)

(** C7, as amended: for all integers [min] and [max] with
    [-2^53 <= min], [max <= 2^53 - 1] and [max - min + 1] at most
    2^32 - 1, the length of the longest array, the call [range(min, max)]
    returns, and a subscriber receives the integers [min], [min + 1], ..., [max] in
    ascending order, which are [max - min + 1] values when
    [min <= max + 1] and none when [max < min], followed by one
    completion, after which nothing remains scheduled; [range(4, 8)]
    delivers 4, 5, 6, 7, 8 and completes. *)
Theorem range_delivers (min max : Z) (tag j k : nat) :
  - MAX_SAFE_INTEGER - 1 <= min ->
  max <= MAX_SAFE_INTEGER ->
  max - min + 1 <= MAX_ARRAY_LENGTH ->
  (exists st,
     run_range (S (Z.to_nat (max - min + 1)) + j) (5 + k) min max tag init = Ok tt st /\
     trace st
     = List.map (fun z => (tag, Next (VNum z))) (ascending min (Z.to_nat (max - min + 1)))
       ++ [(tag, Complete)] /\
     Z.of_nat (length (nexts (List.map snd (trace st)))) = Z.max 0 (max - min + 1) /\
     quiescent st) /\
  (exists st,
     run_range (6 + j) (5 + k) 4 8 tag init = Ok tt st /\
     trace st = [(tag, Next (VNum 4)); (tag, Next (VNum 5)); (tag, Next (VNum 6));
                 (tag, Next (VNum 7)); (tag, Next (VNum 8)); (tag, Complete)]).
Proof.
  intros Hmin Hmax Hcount.
  split.
  - rewrite (run_range_from _ _ _ _ _
               ([] ++ List.map VNum (ascending min (Z.to_nat (max - min + 1)))))
      by (apply range_loop_ascending; unfold MAX_ARRAY_LENGTH in *; cbn [length]; lia).
    rewrite app_nil_l, run_from_delivers.
    eexists; split; [reflexivity|].
    cbn [trace]. repeat split.
    + now rewrite map_map.
    + rewrite map_app, !map_map. cbn [List.map snd].
      rewrite <- (map_map VNum Next), nexts_map_Next, length_map, length_ascending.
      lia.
  - rewrite (run_range_from _ _ _ _ _ ([] ++ List.map VNum (ascending 4 5)))
      by (apply (range_loop_ascending 5 j); reflexivity || (cbn; discriminate)).
    rewrite app_nil_l, run_from_delivers.
    eexists; split; reflexivity.
Qed.

(** C7 at [range(4, 8)]. *)
Lemma range_delivers_witness :
  exists st,
    run_range 6 5 4 8 0 init = Ok tt st /\
    trace st = [(0%nat, Next (VNum 4)); (0%nat, Next (VNum 5)); (0%nat, Next (VNum 6));
                (0%nat, Next (VNum 7)); (0%nat, Next (VNum 8)); (0%nat, Complete)].
Proof.
  assert (H4 : - MAX_SAFE_INTEGER - 1 <= 4) by (unfold MAX_SAFE_INTEGER; lia).
  assert (H8 : 8 <= MAX_SAFE_INTEGER) by (unfold MAX_SAFE_INTEGER; lia).
  assert (Hc : 8 - 4 + 1 <= MAX_ARRAY_LENGTH) by (unfold MAX_ARRAY_LENGTH; lia).
  exact (proj2 (range_delivers 4 8 0 0 0 H4 H8 Hc)).
Defined.

(** C7, as stated, fails in three ways.  When [max < min - 1] the count
    is wrong: [range(5, 3)] delivers no value, and [3 - 5 + 1] is
    negative.  From 2^53 on the loop counter no longer advances:
    [range(2^53, 2^53)] does not return.  And more than 2^32 - 1 values do
    not fit an array: [range(0, 2^32 - 1)] does not return either. *)
Lemma range_count_counterexample :
  ~ range_count_as_stated 5 3 /\
  ~ range_count_as_stated 9007199254740992 9007199254740992 /\
  ~ range_count_as_stated 0 4294967295.
Proof.
  split; [|split]; intros [steps H]; destruct (H 0%nat 0%nat) as (st & Hrun & Hc).
  - destruct steps as [|steps]; [discriminate Hrun|].
    rewrite (run_range_from (S steps) (5 + 0) 5 3 0 [] init eq_refl), run_from_delivers
      in Hrun.
    injection Hrun as <-. vm_compute in Hc. discriminate Hc.
  - unfold run_range, range, bind in Hrun.
    destruct (range_loop steps 9007199254740992 9007199254740992 [] init)
      as [values st'| |] eqn:E; try discriminate Hrun.
    exact (range_loop_stuck _ _ _ _ _ E).
  - unfold run_range, range, bind in Hrun.
    destruct (range_loop steps 0 4294967295 [] init) as [values st'| |] eqn:E;
      try discriminate Hrun.
    refine (range_loop_overflows _ _ _ _ _ _ _ _ _ _ _ E);
      unfold MAX_SAFE_INTEGER, MAX_ARRAY_LENGTH; cbn [length]; lia.
Qed.

(** ** of and from under early disposal *)

(** C9: disposing the subscription to [of(v)] before its timer runs leaves
    the timer pending, and the timer callback still delivers [next(v)]
    and [complete()], once each; the same disposal of a subscription to
    [from(values)] silences it: its callback checks the flag before each
    value and before completing. *)
Theorem of_delivers_after_dispose (v : value) (values : list value) (tag k : nat) :
  (exists s st,
     subscribe_user (5 + k) (Of v) tag init = Ok s st /\
     exists st', dispose (5 + k) s st = Ok tt st' /\
     heap st' = [CProducer true] /\
     timeouts st' = [OfTask (wrap (user tag)) v] /\
     exists st'', run_timeout (5 + k) st' = Ok tt st'' /\
     trace st'' = [(tag, Next v); (tag, Complete)] /\
     quiescent st'') /\
  (exists st,
     dispose_then_run (5 + k) (Of v) tag init = Ok tt st /\
     trace st = [(tag, Next v); (tag, Complete)] /\ quiescent st) /\
  (exists st,
     dispose_then_run (5 + k) (From values) tag init = Ok tt st /\
     heap st = [CProducer true] /\
     trace st = [] /\ quiescent st).
Proof.
  split; [|split].
  - cbn. do 2 eexists; split; [reflexivity|].
    cbn. eexists; split; [reflexivity|]. do 2 (split; [reflexivity|]).
    cbn. eexists; split; [reflexivity|]. split; [reflexivity|]. repeat split.
  - cbn. eexists; split; [reflexivity|]. split; [reflexivity|]. repeat split.
  - unfold dispose_then_run, subscribe_user, subscribe.
    cbn -[forEach call_next call_complete].
    unfold bind at 1.
    rewrite from_loop_disposed by reflexivity.
    eexists; split; [reflexivity|]. do 2 (split; [reflexivity|]). repeat split.
Qed.

(** ** take over from *)

Lemma take_next_step n tag k i tr v :
  call_next (6 + k) (ObserverNext (wrap (take_observer 0%nat n tag))) v (st_take i false tr)
  = Ok tt (st_take (i + 1) (i =? n - 1)
             (tr ++ (if i <? n - 1 then [(tag, Next v)] else [])
                 ++ (if i =? n - 1 then [(tag, Next v); (tag, Complete)] else []))).
Proof.
  destruct (i <? n - 1) eqn:Hlt, (i =? n - 1) eqn:Heq;
    do 2 (exec; rewrite ?Hlt, ?Heq); exec;
    rewrite ?app_nil_r, <- ?app_assoc; reflexivity.
Qed.

Lemma take_from_task n tag k : forall values i tr,
  exists i' d,
    run_task (6 + k) (FromTask 1%nat (wrap (take_observer 0%nat n tag)) values)
             (st_take i false tr)
    = Ok tt (st_take i' d
               (tr ++ List.map (fun v => (tag, Next v)) (firstn (Z.to_nat (n - i)) values)
                   ++ [(tag, Complete)])).
Proof.
  induction values as [|v values IH]; intros i tr.
  - exists i, false. rewrite firstn_nil. reflexivity.
  - unfold run_task. cbn [forEach]. unfold bind at 1. unfold bind at 1.
    rewrite guarded_live by reflexivity. rewrite take_next_step.
    destruct (Z.eqb_spec i (n - 1)) as [E|E].
    + (* the n-th value: forwarded, completed, upstream disposed *)
      rewrite from_loop_disposed by reflexivity.
      rewrite guarded_disposed by reflexivity.
      exists (i + 1), true.
      replace (i <? n - 1) with false by (symmetry; apply Z.ltb_ge; lia).
      replace (Z.to_nat (n - i)) with 1%nat by lia.
      cbn. rewrite firstn_0. reflexivity.
    + destruct (IH (i + 1) (tr ++ (if i <? n - 1 then [(tag, Next v)] else []) ++ []))
        as (i' & d & H).
      exists i', d. unfold run_task in H. unfold bind in H at 1.
      rewrite H. f_equal. f_equal.
      rewrite app_nil_r, <- !app_assoc. f_equal.
      destruct (Z.ltb_spec i (n - 1)).
      * replace (Z.to_nat (n - i)) with (S (Z.to_nat (n - (i + 1)))) by lia.
        reflexivity.
      * replace (Z.to_nat (n - i)) with 0%nat by lia.
        replace (Z.to_nat (n - (i + 1))) with 0%nat by lia.
        reflexivity.
Qed.

Lemma firstn_min_length (values : list value) (n : Z) :
  firstn (Z.to_nat (Z.min n (Z.of_nat (length values)))) values
  = firstn (Z.to_nat n) values.
Proof.
  destruct (Z.le_gt_cases n (Z.of_nat (length values))).
  - now rewrite Z.min_l.
  - rewrite Z.min_r by lia. rewrite Nat2Z.id.
    rewrite !firstn_all2 by lia. reflexivity.
Qed.

(** C1, as amended: for every list of values and every integer [n], a
    subscriber to [from(values).take(n)] receives the first
    [min(n, values.length)] elements of [values], in their order (none
    when [n] is negative, so [max(0, min(n, values.length))] values),
    followed by one completion; nothing is received after it, as no timer
    or listener remains. *)
Theorem take_from_delivers (values : list value) (n : Z) (tag k : nat) :
  exists st,
    run_take_from (6 + k) values n tag init = Ok tt st /\
    trace st
    = List.map (fun v => (tag, Next v))
               (firstn (Z.to_nat (Z.min n (Z.of_nat (length values)))) values)
      ++ [(tag, Complete)] /\
    Z.of_nat (length (nexts (List.map snd (trace st))))
    = Z.max 0 (Z.min n (Z.of_nat (length values))) /\
    quiescent st.
Proof.
  destruct (take_from_task n tag k values 0 []) as (i' & d & H).
  exists (st_take i' d
            ([] ++ List.map (fun v => (tag, Next v)) (firstn (Z.to_nat (n - 0)) values)
                ++ [(tag, Complete)])).
  split; [exact H|]. cbn [st_take trace app].
  rewrite Z.sub_0_r, firstn_min_length. split; [reflexivity|]. split; [|repeat split].
  rewrite map_app, !map_map. cbn [List.map snd].
  rewrite <- (map_map (fun v => v) Next), nexts_map_Next, map_id.
  rewrite length_firstn. lia.
Qed.

(** C1, as stated, fails for negative [n]: [from([1]).take(-1)] delivers
    no value, and [min(-1, 1)] is negative. *)
Lemma take_count_counterexample : ~ take_count_as_stated [VNum 1] (-1).
Proof.
  intros H. specialize (H 0%nat 0%nat _ eq_refl). vm_compute in H. discriminate H.
Qed.

(** ** Scripted sources *)

Lemma schedule_all obs : forall l st,
  forEach (fun batch => setTimeout (CustomTask obs batch)) l st
  = Ok tt (set_timeouts (timeouts st ++ List.map (CustomTask obs) l) st).
Proof.
  induction l as [|b l IH]; intros st.
  - cbn. unfold ret. rewrite app_nil_r. destruct st; reflexivity.
  - cbn [forEach]. unfold bind at 1. unfold setTimeout at 1. rewrite IH.
    cbn. rewrite <- app_assoc. reflexivity.
Qed.

(** ** Scripted sources driving an observer

    An observer whose handlers act as a transition function [react] on a
    frame: whatever a scripted source delivers, at subscribe time or from
    its timers, the observer passes on what [reacts] computes. *)

Section Scripted.

Variables (obs : Observer) (tag : nat).
Variable T : Type.
Variable heap_of : T -> list Cell.
Variable react : T -> Signal -> T * list Signal.
Variable depth : nat.

Hypothesis react_ok : forall j t s st,
  heap st = heap_of t ->
  deliver (depth + j) obs s st
  = Ok tt (set_trace (trace st ++ List.map (pair tag) (snd (react t s)))
             (set_heap (heap_of (fst (react t s))) st)).

Lemma deliver_all j : forall l t st,
  heap st = heap_of t ->
  forEach (deliver (depth + j) obs) l st
  = Ok tt (set_trace (trace st ++ List.map (pair tag) (snd (reacts react t l)))
             (set_heap (heap_of (fst (reacts react t l))) st)).
Proof.
  induction l as [|s l IH]; intros t st H.
  - cbn. unfold ret. rewrite app_nil_r, <- H. destruct st; reflexivity.
  - cbn [forEach reacts]. unfold bind at 1. rewrite (react_ok j t s st H).
    destruct (react t s) as [t' out] eqn:E. cbn [fst snd].
    rewrite (IH t') by reflexivity.
    destruct (reacts react t' l) as [t'' out']. cbn [fst snd].
    cbn. rewrite map_app, app_assoc. reflexivity.
Qed.

Lemma reacts_app : forall l1 l2 t,
  reacts react t (l1 ++ l2)
  = (fst (reacts react (fst (reacts react t l1)) l2),
     snd (reacts react t l1) ++ snd (reacts react (fst (reacts react t l1)) l2)).
Proof.
  induction l1 as [|s l1 IH]; intros l2 t.
  - cbn. now destruct (reacts react t l2).
  - cbn [app reacts]. destruct (react t s) as [t' out]. rewrite IH.
    destruct (reacts react t' l1) as [t1 out1]. cbn [fst snd].
    destruct (reacts react t1 l2) as [t2 out2]. cbn [fst snd].
    now rewrite app_assoc.
Qed.

(** The timers of the source run in turn. *)
Lemma run_batches j : forall timers batches t st,
  heap st = heap_of t ->
  timeouts st = List.map (CustomTask obs) batches ->
  run_timeouts (depth + j) timers st
  = Ok tt (set_timeouts (List.map (CustomTask obs) (skipn timers batches))
             (set_trace (trace st ++ List.map (pair tag)
                                       (snd (reacts react t (concat (firstn timers batches)))))
                (set_heap (heap_of (fst (reacts react t (concat (firstn timers batches)))))
                   st))).
Proof.
  induction timers as [|timers IH]; intros batches t st H Hq.
  - rewrite firstn_O, skipn_O. cbn. unfold ret.
    rewrite app_nil_r, <- H, <- Hq. destruct st; reflexivity.
  - cbn [run_timeouts]. unfold bind at 1. unfold run_timeout.
    destruct batches as [|b batches].
    + cbn in Hq. rewrite Hq.
      rewrite (IH [] t st H Hq). now rewrite !firstn_nil, !skipn_nil.
    + cbn in Hq. rewrite Hq. cbn [run_task].
      rewrite (deliver_all j b t) by exact H.
      rewrite (IH batches (fst (reacts react t b))) by reflexivity.
      cbn [firstn skipn concat]. rewrite reacts_app. cbn [fst snd].
      cbn. rewrite map_app, app_assoc. reflexivity.
Qed.

(** Subscribing the observer to the source: the synchronous signals are
    delivered, the batches scheduled. *)
Lemma scripted_subscribe j sync deferred t st :
  heap st = heap_of t ->
  timeouts st = [] ->
  _subscribe (S (depth + j)) (Custom sync deferred) obs st
  = Ok (mkSubscription NoTeardown)
       (set_timeouts (List.map (CustomTask obs) deferred)
          (set_trace (trace st ++ List.map (pair tag) (snd (reacts react t sync)))
             (set_heap (heap_of (fst (reacts react t sync))) st))).
Proof.
  intros H Hq. cbn [_subscribe].
  unfold bind at 1.
  change (forEach _ sync st) with (forEach (deliver (depth + j) obs) sync st).
  rewrite (deliver_all j sync t st H).
  unfold bind at 1.
  rewrite schedule_all. cbn [ret timeouts set_trace set_heap]. rewrite Hq. reflexivity.
Qed.

(** Subscribing, then letting [timers] timers run: the observer has
    passed on what [reacts] computes from the signals delivered so far. *)
Lemma scripted_run j j' sync deferred timers t st :
  heap st = heap_of t ->
  timeouts st = [] ->
  exists st',
    _subscribe (S (depth + j)) (Custom sync deferred) obs st
    = Ok (mkSubscription NoTeardown) st' /\
    run_timeouts (depth + j') timers st'
    = Ok tt (set_timeouts (List.map (CustomTask obs) (skipn timers deferred))
               (set_trace (trace st ++ List.map (pair tag)
                             (snd (reacts react t (script sync (firstn timers deferred)))))
                  (set_heap (heap_of (fst (reacts react t
                                             (script sync (firstn timers deferred)))))
                     st))).
Proof.
  intros H Hq. eexists. split; [exact (scripted_subscribe j sync deferred t st H Hq)|].
  rewrite (run_batches j' timers deferred (fst (reacts react t sync))) by reflexivity.
  unfold script. rewrite reacts_app. cbn [fst snd].
  cbn. rewrite map_app, app_assoc. reflexivity.
Qed.

(** The timer callback of [from(values)], subscribed with the observer:
    the values, then the completion, as long as the observer leaves
    [from]'s flag alone. *)
Lemma from_task_reacts j fr values t st :
  heap st = heap_of t ->
  (forall t', heap_of t' !! fr = Some (CProducer false)) ->
  run_task (S (depth + j)) (FromTask fr (wrap obs) values) st
  = Ok tt (set_trace (trace st ++ List.map (pair tag)
                        (snd (reacts react t (List.map Next values ++ [Complete]))))
             (set_heap (heap_of (fst (reacts react t (List.map Next values ++ [Complete]))))
                st)).
Proof.
  intros H Hfr. revert t st H.
  induction values as [|v values IH]; intros t st H.
  - unfold run_task. cbn [forEach List.map app]. unfold bind at 1. cbn [ret].
    rewrite guarded_live by (rewrite H; apply Hfr).
    change (call_complete _ _ st) with (deliver (depth + j) obs Complete st).
    rewrite (react_ok j t Complete st H). cbn [reacts].
    destruct (react t Complete) as [t' out]. cbn [fst snd]. now rewrite app_nil_r.
  - unfold run_task. cbn [forEach List.map app]. unfold bind at 1. unfold bind at 1.
    rewrite guarded_live by (rewrite H; apply Hfr).
    change (call_next _ _ v st) with (deliver (depth + j) obs (Next v) st).
    rewrite (react_ok j t (Next v) st H).
    specialize (IH (fst (react t (Next v)))
                   (set_trace (trace st ++ List.map (pair tag) (snd (react t (Next v))))
                      (set_heap (heap_of (fst (react t (Next v)))) st))
                   eq_refl).
    unfold run_task in IH. unfold bind in IH at 1.
    destruct (forEach _ values _) as [[] st'| |]; try discriminate IH.
    rewrite IH. cbn [reacts].
    destruct (react t (Next v)) as [t' out]. cbn [fst snd].
    destruct (reacts react t' _) as [t'' out']. cbn [fst snd].
    cbn. rewrite map_app, app_assoc. reflexivity.
Qed.

End Scripted.

(** ** map *)

Lemma map_reacts {T} (f : value -> value) : forall l (t : T),
  reacts (map_react f) t l = (t, List.map (map_signal f) l).
Proof.
  induction l as [|s l IH]; intros t; [reflexivity|].
  cbn [reacts map_react]. now rewrite IH.
Qed.

Lemma map_react_ok f tag j (h : list Cell) s st :
  heap st = h ->
  deliver (5 + j) (map_observer f (user tag)) s st
  = Ok tt (set_trace (trace st ++ List.map (pair tag) (snd (map_react f h s)))
             (set_heap h st)).
Proof. intros <-. destruct s, st; reflexivity. Qed.

Lemma map_map_react_ok f g tag j (h : list Cell) s st :
  heap st = h ->
  deliver (8 + j) (map_observer f (map_observer g (user tag))) s st
  = Ok tt (set_trace (trace st ++ List.map (pair tag)
                                   (snd (map_react (fun v => g (f v)) h s)))
             (set_heap h st)).
Proof. intros <-. destruct s, st; reflexivity. Qed.

Lemma run_script_map F f sync deferred tag timers st :
  run_script (S F) (Map f) sync deferred tag timers st
  = match _subscribe F (Custom sync deferred) (map_observer f (user tag)) st with
    | Ok _ st' => run_timeouts (S F) timers st'
    | Throw st' => Throw st'
    | Abort c => Abort c
    end.
Proof.
  unfold run_script, subscribe_user, subscribe. cbn. unfold bind.
  fold (map_observer f (user tag)).
  destruct (_subscribe F _ _ st); reflexivity.
Qed.

Lemma run_script_map_map F f g sync deferred tag timers st :
  run_script (S (S F)) (fun source => Map g (Map f source)) sync deferred tag timers st
  = match _subscribe F (Custom sync deferred)
                     (map_observer f (map_observer g (user tag))) st with
    | Ok _ st' => run_timeouts (S (S F)) timers st'
    | Throw st' => Throw st'
    | Abort c => Abort c
    end.
Proof.
  unfold run_script, subscribe_user, subscribe. cbn. unfold bind.
  fold (map_observer g (user tag)). fold (map_observer f (map_observer g (user tag))).
  destruct (_subscribe F _ _ st); reflexivity.
Qed.

Lemma run_once_map_from F f values tag :
  run_once (S (S F)) (Map f (From values)) tag init
  = run_task (S (S F)) (FromTask 0%nat (wrap (map_observer f (user tag))) values)
             (mkState [CProducer false] [] [] [] 0%nat [] []).
Proof. reflexivity. Qed.

Lemma run_once_map_map_from F f g values tag :
  run_once (S (S (S F))) (Map g (Map f (From values))) tag init
  = run_task (S (S (S F)))
             (FromTask 0%nat (wrap (map_observer f (map_observer g (user tag)))) values)
             (mkState [CProducer false] [] [] [] 0%nat [] []).
Proof. reflexivity. Qed.

(** C6: for every scripted source (any signals delivered inside subscribe,
    any signals delivered later from timers), for [from(values)] with any
    [values], and all functions [f] and [g], a subscriber to
    [source.map(f).map(g)] and a subscriber to [source.map(v => g(f(v)))]
    have received the same calls at every point of the run: each value [v]
    of the source as [g(f(v))], each error and each completion unchanged,
    in the order of the source. *)
Theorem map_fusion (f g : value -> value) (sync : list Signal)
    (deferred : list (list Signal)) (values : list value) (tag k timers : nat) :
  (exists st1 st2,
     run_script (11 + k) (fun source => Map g (Map f source)) sync deferred tag timers init
     = Ok tt st1 /\
     run_script (11 + k) (Map (fun v => g (f v))) sync deferred tag timers init
     = Ok tt st2 /\
     trace st1 = trace st2 /\
     trace st2 = List.map (fun s => (tag, map_signal (fun v => g (f v)) s))
                          (script sync (firstn timers deferred))) /\
  (exists st1 st2,
     run_once (11 + k) (Map g (Map f (From values))) tag init = Ok tt st1 /\
     run_once (11 + k) (Map (fun v => g (f v)) (From values)) tag init = Ok tt st2 /\
     trace st1 = trace st2 /\
     trace st2 = List.map (fun v => (tag, Next (g (f v)))) values ++ [(tag, Complete)]).
Proof.
  split.
  - destruct (scripted_run _ tag _ (fun h => h) _ 8 (map_map_react_ok f g tag)
                k (3 + k) sync deferred timers [] init eq_refl eq_refl)
      as (sa & Ha1 & Ha2).
    destruct (scripted_run _ tag _ (fun h => h) _ 5
                (map_react_ok (fun v => g (f v)) tag)
                (4 + k) (6 + k) sync deferred timers [] init eq_refl eq_refl)
      as (sb & Hb1 & Hb2).
    do 2 eexists. split; [|split; [|split]].
    + change (11 + k)%nat with (S (S (S (8 + k)))).
      rewrite run_script_map_map, Ha1. exact Ha2.
    + change (11 + k)%nat with (S (S (5 + (4 + k)))).
      rewrite run_script_map, Hb1. exact Hb2.
    + reflexivity.
    + cbn [trace set_timeouts set_trace set_heap init app].
      rewrite map_reacts. cbn [snd]. now rewrite map_map.
  - pose proof (from_task_reacts _ tag unit (fun _ => [CProducer false])
                  (map_react (fun v => g (f v))) 8
                  (fun j _ => map_map_react_ok f g tag j [CProducer false])
                  (2 + k) 0%nat values tt
                  (mkState [CProducer false] [] [] [] 0%nat [] [])
                  eq_refl (fun _ => eq_refl)) as Ha.
    pose proof (from_task_reacts _ tag unit (fun _ => [CProducer false])
                  (map_react (fun v => g (f v))) 5
                  (fun j _ => map_react_ok (fun v => g (f v)) tag j [CProducer false])
                  (5 + k) 0%nat values tt
                  (mkState [CProducer false] [] [] [] 0%nat [] [])
                  eq_refl (fun _ => eq_refl)) as Hb.
    do 2 eexists.
    split; [change (11 + k)%nat with (S (S (S (8 + k)))); rewrite run_once_map_map_from;
            exact Ha|].
    split; [change (11 + k)%nat with (S (S (9 + k))); rewrite run_once_map_from;
            exact Hb|].
    split; [reflexivity|].
    cbn [trace set_trace set_heap app]. rewrite map_reacts. cbn [snd].
    rewrite !map_app, !map_map. reflexivity.
Qed.

(** ** join *)

Lemma join_react_ok tag j (rest : list Cell) (values : list value) s st :
  heap st = CJoin values :: rest ->
  deliver (5 + j) (join_observer 0%nat tag) s st
  = Ok tt (set_trace (trace st ++ List.map (pair tag) (snd (join_react values s)))
             (set_heap (CJoin (fst (join_react values s)) :: rest) st)).
Proof.
  intros H. destruct st as [h q iv ls su tr ho]. cbn in H. subst h.
  destruct s; exec; rewrite ?app_nil_r, <- ?app_assoc; reflexivity.
Qed.

Lemma join_reacts : forall body values,
  completions body = 0%nat ->
  reacts join_react values body = (values ++ nexts body, errors body).
Proof.
  induction body as [|s body IH]; intros values H.
  - cbn. now rewrite app_nil_r.
  - destruct s; cbn [reacts join_react nexts errors]; cbn in H.
    + rewrite IH by exact H. now rewrite <- app_assoc.
    + now rewrite IH by exact H.
    + discriminate H.
Qed.

Lemma join_reacts_complete body values :
  completions body = 0%nat ->
  reacts join_react values (body ++ [Complete])
  = (values ++ nexts body,
     errors body ++ [Next (VArr (values ++ nexts body)); Complete]).
Proof.
  intros H. rewrite reacts_app, (join_reacts body values H). reflexivity.
Qed.

Lemma run_script_join F sync deferred tag timers :
  run_script (S F) Join sync deferred tag timers init
  = match _subscribe F (Custom sync deferred) (join_observer 0%nat tag)
                     (set_heap [CJoin []] init) with
    | Ok _ st' => run_timeouts (S F) timers st'
    | Throw st' => Throw st'
    | Abort c => Abort c
    end.
Proof.
  unfold run_script, subscribe_user, subscribe. cbn. unfold bind, alloc.
  cbn [heap init length app]. fold (join_observer 0%nat tag).
  change (set_heap [CJoin []] init) with (mkState [CJoin []] [] [] [] 0%nat [] []).
  destruct (_subscribe F _ _ _); reflexivity.
Qed.

Lemma errors_map_Next vs : errors (List.map Next vs) = [].
Proof. induction vs; simpl; auto. Qed.

Lemma completions_map_Next vs : completions (List.map Next vs) = 0%nat.
Proof. induction vs; simpl; auto. Qed.

Lemma nexts_map_Next' vs : nexts (List.map Next vs) = vs.
Proof. induction vs; simpl; congruence. Qed.

Lemma nexts_errors l : nexts (errors l) = [].
Proof. induction l as [|[]]; simpl; auto. Qed.

Lemma run_once_join_from k values tag :
  run_once (7 + k) (Join (From values)) tag init
  = Ok tt (set_trace
             (List.map (pair tag)
                (snd (reacts join_react [] (List.map Next values ++ [Complete]))))
             (mkState [CJoin (fst (reacts join_react []
                                     (List.map Next values ++ [Complete])));
                       CProducer false] [] [] [] 0%nat [] [])).
Proof.
  exact (from_task_reacts _ tag _ (fun values => [CJoin values; CProducer false]) _ 5
           (fun j => join_react_ok tag j [CProducer false])
           (1 + k) 1%nat values []
           (mkState [CJoin []; CProducer false] [] [] [] 0%nat [] [])
           eq_refl (fun _ => eq_refl)).
Qed.

(** C4: let a scripted source deliver the signals [body] and then complete,
    where [body] holds values and errors, some inside subscribe and the rest
    from its timers.  Once all timers have run, a subscriber to
    [source.join()] has received the errors of [body], unchanged and in
    order, then one value, the array of all values of [body] in order, then
    one completion, and nothing is left scheduled; if the source delivers
    values only, that is one array and one completion.  At any earlier
    point, while the source has not completed, the subscriber has received
    no value.  For every array [values], [from(values).join()] delivers
    the one value [values] and completes; so [from([0,1,2,3]).join()]
    delivers [[0,1,2,3]] and completes. *)
Theorem join_collects (sync body : list Signal) (deferred : list (list Signal))
    (tag k : nat) :
  completions body = 0%nat ->
  script sync deferred = body ++ [Complete] ->
  (exists st,
     run_script (7 + k) Join sync deferred tag (length deferred) init = Ok tt st /\
     trace st = List.map (pair tag)
                         (errors body ++ [Next (VArr (nexts body)); Complete]) /\
     (forall vs, body = List.map Next vs ->
                 trace st = [(tag, Next (VArr vs)); (tag, Complete)]) /\
     quiescent st) /\
  (forall timers, exists st,
     run_script (7 + k) Join sync deferred tag timers init = Ok tt st /\
     (completions (script sync (firstn timers deferred)) = 0%nat ->
      nexts (List.map snd (trace st)) = [])) /\
  (forall values, exists st,
     run_once (7 + k) (Join (From values)) tag init = Ok tt st /\
     trace st = [(tag, Next (VArr values)); (tag, Complete)] /\
     quiescent st) /\
  (exists st,
     run_once (7 + k) (Join (From [VNum 0; VNum 1; VNum 2; VNum 3])) tag init = Ok tt st /\
     trace st = [(tag, Next (VArr [VNum 0; VNum 1; VNum 2; VNum 3])); (tag, Complete)] /\
     quiescent st).
Proof.
  intros Hbody Hscript.
  assert (Hrun : forall timers,
             run_script (7 + k) Join sync deferred tag timers init
             = Ok tt (set_timeouts
                        (List.map (CustomTask (join_observer 0%nat tag))
                                  (skipn timers deferred))
                        (set_trace
                           (List.map (pair tag)
                              (snd (reacts join_react []
                                      (script sync (firstn timers deferred)))))
                           (set_heap
                              [CJoin (fst (reacts join_react []
                                             (script sync (firstn timers deferred))))]
                              init)))).
  { intros timers.
    destruct (scripted_run _ tag _ (fun values => [CJoin values]) _ 5
                (fun j => join_react_ok tag j [])
                k (2 + k) sync deferred timers [] (set_heap [CJoin []] init)
                eq_refl eq_refl) as (st' & H1 & H2).
    change (7 + k)%nat with (S (S (5 + k))).
    rewrite run_script_join, H1. exact H2. }
  split; [|split; [|split]].
  - eexists. split; [apply Hrun|].
    rewrite firstn_all, skipn_all, Hscript, join_reacts_complete by exact Hbody.
    cbn [trace set_timeouts set_trace set_heap snd app].
    split; [reflexivity|]. split; [|repeat split].
    intros vs ->. now rewrite errors_map_Next, nexts_map_Next'.
  - intros timers. eexists. split; [apply Hrun|].
    intros Hc. rewrite join_reacts by exact Hc.
    cbn [trace set_timeouts set_trace set_heap snd app].
    rewrite map_map. cbn [snd]. rewrite map_id. apply nexts_errors.
  - intros values. eexists. split; [apply run_once_join_from|].
    cbn [trace set_trace set_heap app].
    rewrite join_reacts_complete by apply completions_map_Next.
    rewrite errors_map_Next, nexts_map_Next'. split; [reflexivity|]. repeat split.
  - eexists. split; [apply run_once_join_from|].
    split; [reflexivity|]. repeat split.
Qed.

(** C4 at a source that delivers 1 inside subscribe, then 2 and its
    completion from a timer. *)
Lemma join_collects_witness :
  exists st,
    run_script 7 Join [Next (VNum 1)] [[Next (VNum 2); Complete]] 0 1 init = Ok tt st /\
    trace st = [(0%nat, Next (VArr [VNum 1; VNum 2])); (0%nat, Complete)].
Proof.
  destruct (join_collects [Next (VNum 1)] [Next (VNum 1); Next (VNum 2)]
              [[Next (VNum 2); Complete]] 0 0 eq_refl eq_refl)
    as [(st & Hrun & Htrace & _) _].
  exists st. split; [exact Hrun | exact Htrace].
Defined.

(** ** take over a source that emits inside subscribe *)

Lemma take_sync_value n tag j i tr v :
  deliver (5 + j) (take_observer 0%nat n tag) (Next v) (st_take_sync i tr)
  = if i =? n - 1
    then Throw (st_take_sync i (tr ++ (if i <? n - 1 then [(tag, Next v)] else [])
                                   ++ [(tag, Next v); (tag, Complete)]))
    else Ok tt (st_take_sync (i + 1)
                  (tr ++ (if i <? n - 1 then [(tag, Next v)] else []))).
Proof.
  destruct (i <? n - 1) eqn:Hlt, (i =? n - 1) eqn:Heq;
    do 2 (exec; rewrite ?Hlt, ?Heq); exec;
    rewrite ?app_nil_r, <- ?app_assoc; reflexivity.
Qed.

Lemma take_sync_other n tag j i tr s :
  (forall v, s <> Next v) ->
  deliver (5 + j) (take_observer 0%nat n tag) s (st_take_sync i tr)
  = Ok tt (st_take_sync i (tr ++ [(tag, s)])).
Proof. destruct s; intros H; [now destruct (H v)| |]; reflexivity. Qed.

(** While fewer than [n] values have arrived, everything is forwarded. *)
Lemma take_sync_safe n tag j : forall sync i tr,
  i + Z.of_nat (length (nexts sync)) < n ->
  forEach (deliver (5 + j) (take_observer 0%nat n tag)) sync (st_take_sync i tr)
  = Ok tt (st_take_sync (i + Z.of_nat (length (nexts sync)))
             (tr ++ List.map (pair tag) sync)).
Proof.
  induction sync as [|s sync IH]; intros i tr H.
  - cbn. unfold ret. now rewrite Z.add_0_r, app_nil_r.
  - cbn [forEach]. unfold bind at 1. destruct s as [v|m|].
    + cbn [nexts length] in H |- *. rewrite take_sync_value.
      replace (i =? n - 1) with false by (symmetry; apply Z.eqb_neq; lia).
      replace (i <? n - 1) with true by (symmetry; apply Z.ltb_lt; lia).
      rewrite IH by lia. cbn [List.map]. rewrite <- app_assoc.
      replace (i + 1 + Z.of_nat (length (nexts sync)))
        with (i + Z.of_nat (S (length (nexts sync)))) by lia.
      reflexivity.
    + rewrite take_sync_other by discriminate. cbn [nexts] in H |- *.
      rewrite IH by exact H. cbn [List.map]. now rewrite <- app_assoc.
    + rewrite take_sync_other by discriminate. cbn [nexts] in H |- *.
      rewrite IH by exact H. cbn [List.map]. now rewrite <- app_assoc.
Qed.

Lemma through_0 l : through 0 l = [].
Proof. now destruct l. Qed.

(** The [n]-th value is forwarded, the subscriber completed, and the use
    of [subscription] faults. *)
Lemma take_sync_fault n tag j : forall sync i tr,
  i <= n - 1 ->
  n <= i + Z.of_nat (length (nexts sync)) ->
  forEach (deliver (5 + j) (take_observer 0%nat n tag)) sync (st_take_sync i tr)
  = Throw (st_take_sync (n - 1)
             (tr ++ List.map (pair tag) (through (Z.to_nat (n - i)) sync)
                 ++ [(tag, Complete)])).
Proof.
  induction sync as [|s sync IH]; intros i tr Hi H.
  - cbn in H. lia.
  - cbn [forEach]. unfold bind at 1.
    destruct (Z.to_nat (n - i)) as [|m] eqn:Em; [lia|].
    destruct s as [v|msg|].
    + cbn [nexts length] in H. rewrite take_sync_value.
      destruct (Z.eqb_spec i (n - 1)) as [E|E].
      * replace (i <? n - 1) with false by (symmetry; apply Z.ltb_ge; lia).
        replace m with 0%nat by lia. subst i.
        cbn [through]. rewrite through_0. reflexivity.
      * replace (i <? n - 1) with true by (symmetry; apply Z.ltb_lt; lia).
        rewrite IH by lia.
        replace (Z.to_nat (n - (i + 1))) with m by lia.
        cbn [through List.map]. now rewrite <- !app_assoc.
    + rewrite take_sync_other by discriminate. cbn [nexts] in H.
      rewrite IH by assumption. rewrite Em.
      cbn [through List.map]. now rewrite <- !app_assoc.
    + rewrite take_sync_other by discriminate. cbn [nexts] in H.
      rewrite IH by assumption. rewrite Em.
      cbn [through List.map]. now rewrite <- !app_assoc.
Qed.

Lemma subscribe_take_throw F n sync deferred tag st' :
  forEach (deliver F (take_observer 0%nat n tag)) sync (st_take_sync 0 []) = Throw st' ->
  subscribe_user (S (S F)) (Take n (Custom sync deferred)) tag init = Throw st'.
Proof.
  intros H. unfold subscribe_user, subscribe. cbn. unfold bind, alloc.
  cbn [heap init length app]. fold (take_observer 0%nat n tag).
  change (forEach _ sync _)
    with (forEach (deliver F (take_observer 0%nat n tag)) sync (st_take_sync 0 [])).
  now rewrite H.
Qed.

Lemma subscribe_take_ok F n sync deferred tag i tr :
  forEach (deliver F (take_observer 0%nat n tag)) sync (st_take_sync 0 [])
  = Ok tt (st_take_sync i tr) ->
  subscribe_user (S (S F)) (Take n (Custom sync deferred)) tag init
  = Ok (mkSubscription (DisposeUpstream (mkSubscription NoTeardown)))
       (mkState [CTake i (Some (mkSubscription NoTeardown))]
                (List.map (CustomTask (take_observer 0%nat n tag)) deferred)
                [] [] 0%nat tr []).
Proof.
  intros H. unfold subscribe_user, subscribe. cbn. unfold bind, alloc.
  cbn [heap init length app]. fold (take_observer 0%nat n tag).
  change (forEach _ sync _)
    with (forEach (deliver F (take_observer 0%nat n tag)) sync (st_take_sync 0 [])).
  rewrite H, schedule_all. reflexivity.
Qed.

Lemma nexts_through : forall l m, nexts (through m l) = firstn m (nexts l).
Proof.
  induction l as [|s l IH]; intros m.
  - now destruct m.
  - destruct m as [|m]; [reflexivity|].
    destruct s; cbn [through nexts]; rewrite IH; reflexivity.
Qed.

(** C10: for every [n >= 1] and every source that delivers its signals
    [sync] inside subscribe, subscribing to [source.take(n)] faults when
    [sync] holds [n] or more values: the signals up to the [n]-th value
    have been forwarded and the subscriber completed, then the handler
    uses [subscription], which is not initialised as the source's
    subscribe has not returned; the counter still reads [n - 1] and the
    rest of [sync] is never delivered.  When [sync] holds fewer than [n]
    values the subscribe call returns normally, all of [sync]
    forwarded. *)
Theorem take_sync_faults (n : Z) (sync : list Signal) (deferred : list (list Signal))
    (tag k : nat) :
  1 <= n ->
  (n <= Z.of_nat (length (nexts sync)) ->
   exists st,
     subscribe_user (7 + k) (Take n (Custom sync deferred)) tag init = Throw st /\
     heap st = [CTake (n - 1) None] /\
     trace st = List.map (pair tag) (through (Z.to_nat n) sync) ++ [(tag, Complete)] /\
     nexts (List.map snd (trace st)) = firstn (Z.to_nat n) (nexts sync)) /\
  (Z.of_nat (length (nexts sync)) < n ->
   exists s st,
     subscribe_user (7 + k) (Take n (Custom sync deferred)) tag init = Ok s st /\
     heap st = [CTake (Z.of_nat (length (nexts sync))) (Some (mkSubscription NoTeardown))] /\
     trace st = List.map (pair tag) sync).
Proof.
  intros Hn. split; intros H.
  - eexists. split.
    + change (7 + k)%nat with (S (S (5 + k))). apply subscribe_take_throw.
      apply take_sync_fault; lia.
    + cbn [st_take_sync heap trace app]. rewrite Z.sub_0_r.
      split; [reflexivity|]. split; [reflexivity|].
      rewrite map_app, map_map. cbn [snd List.map]. rewrite map_id.
      rewrite nexts_app, nexts_through. cbn [nexts]. now rewrite app_nil_r.
  - do 2 eexists. split.
    + change (7 + k)%nat with (S (S (5 + k))). apply subscribe_take_ok.
      apply take_sync_safe. lia.
    + cbn [heap trace app]. split; reflexivity.
Qed.

(** C10 at [n = 1] and a source that delivers one value inside
    subscribe. *)
Lemma take_sync_faults_witness :
  exists st,
    subscribe_user 7 (Take 1 (Custom [Next (VNum 5)] [])) 0 init = Throw st /\
    trace st = [(0%nat, Next (VNum 5)); (0%nat, Complete)].
Proof.
  destruct (take_sync_faults 1 [Next (VNum 5)] [] 0 0 ltac:(lia)) as [H _].
  destruct (H ltac:(cbn; lia)) as (st & Hrun & _ & Htrace & _).
  exists st. split; [exact Hrun | exact Htrace].
Defined.

(** ** Subject *)

Lemma get_observers_spec s observers st :
  heap st !! s = Some (CSubject observers) ->
  get_observers s st = Ok observers st.
Proof. intros H. unfold get_observers, bind, get_cell. now rewrite H. Qed.

Lemma Subject_subscribe_spec s observers next error complete st :
  heap st !! s = Some (CSubject observers) ->
  Subject_subscribe s next error complete st
  = Ok (mkSubscription (SubjectRemove s (supply st)))
       (set_heap (<[s := CSubject (observers ++ [(supply st, mkObserver next error complete)])]>
                    (heap st))
          (set_supply (S (supply st)) st)).
Proof.
  intros H. unfold Subject_subscribe, bind, fresh_id.
  rewrite (get_observers_spec s observers) by exact H. reflexivity.
Qed.

Lemma Subject_dispose_spec k s oid observers st :
  heap st !! s = Some (CSubject observers) ->
  dispose (S k) (mkSubscription (SubjectRemove s oid)) st
  = Ok tt (set_heap (<[s := CSubject (List.filter (fun o => negb (Nat.eqb (fst o) oid))
                                                  observers)]> (heap st)) st).
Proof.
  intros H. cbn [dispose]. unfold bind.
  rewrite (get_observers_spec s observers) by exact H. reflexivity.
Qed.

Lemma broadcast_plain k v : forall observers st,
  Forall (fun o => plain (snd o)) observers ->
  forEach (fun observer => call_next (2 + k) (ObserverNext (snd observer)) v) observers st
  = Ok tt (set_trace (trace st ++ heard observers v) st).
Proof.
  induction observers as [|[oid o] observers IH]; intros st H.
  - cbn. unfold ret. rewrite app_nil_r. destruct st; reflexivity.
  - inversion H as [|? ? Ho Hos]; subst. cbn [forEach]. unfold bind at 1.
    cbn [snd] in Ho |- *. unfold plain in Ho. unfold heard. cbn [flat_map snd].
    fold (heard observers v).
    destruct o as [[[]|] e c]; cbn [_next] in Ho |- *; try contradiction;
      cbn [call_next Nat.add _next]; unfold emit, ret;
      rewrite IH by exact Hos; cbn; rewrite <- ?app_assoc; reflexivity.
Qed.

Lemma Subject_nexts_plain k s observers : forall values st,
  heap st !! s = Some (CSubject observers) ->
  Forall (fun o => plain (snd o)) observers ->
  Subject_nexts (2 + k) s values st
  = Ok tt (set_trace (trace st ++ flat_map (heard observers) values) st).
Proof.
  induction values as [|v values IH]; intros st H Hp.
  - cbn. unfold ret. rewrite app_nil_r. destruct st; reflexivity.
  - unfold Subject_nexts. cbn [forEach]. unfold bind at 1. unfold Subject_next at 1.
    unfold bind at 1. rewrite (get_observers_spec s observers) by exact H.
    rewrite broadcast_plain by exact Hp.
    fold (Subject_nexts (2 + k) s values). rewrite IH by assumption.
    cbn. rewrite <- app_assoc. reflexivity.
Qed.

Lemma lookup_last {A} (l : list A) (x : A) : (l ++ [x]) !! length l = Some x.
Proof. induction l; simpl; auto. Qed.

Lemma insert_last {A} (l : list A) (x y : A) : <[length l := y]> (l ++ [x]) = l ++ [y].
Proof. induction l; simpl; [reflexivity | now f_equal]. Qed.

Section FreshSubject.

Variable st0 : State.

(** The Subject created in [st0] lives at the end of its heap. *)
Local Abbreviation s := (length (heap st0)).

Lemma new_Subject_spec :
  new_Subject st0 = Ok s (with_subject st0 [] (supply st0) (trace st0)).
Proof. reflexivity. Qed.

Lemma subscribe_with_subject observers fresh tr next error complete :
  Subject_subscribe s next error complete (with_subject st0 observers fresh tr)
  = Ok (mkSubscription (SubjectRemove s fresh))
       (with_subject st0 (observers ++ [(fresh, mkObserver next error complete)])
                     (S fresh) tr).
Proof.
  rewrite (Subject_subscribe_spec s observers) by apply lookup_last.
  unfold with_subject. cbn. now rewrite insert_last.
Qed.

Lemma dispose_with_subject k observers fresh tr oid :
  dispose (2 + k) (mkSubscription (SubjectRemove s oid)) (with_subject st0 observers fresh tr)
  = Ok tt (with_subject st0
             (List.filter (fun o => negb (Nat.eqb (fst o) oid)) observers) fresh tr).
Proof.
  rewrite (Subject_dispose_spec (1 + k) s oid observers) by apply lookup_last.
  unfold with_subject. cbn. now rewrite insert_last.
Qed.

Lemma nexts_with_subject k observers fresh tr values :
  Forall (fun o => plain (snd o)) observers ->
  Subject_nexts (2 + k) s values (with_subject st0 observers fresh tr)
  = Ok tt (with_subject st0 observers fresh (tr ++ flat_map (heard observers) values)).
Proof.
  intros H. rewrite (Subject_nexts_plain k s observers) by (apply lookup_last || exact H).
  reflexivity.
Qed.

End FreshSubject.

Lemma flat_map_singleton {A B} (f : A -> B) (l : list A) :
  flat_map (fun x => [f x]) l = List.map f l.
Proof. induction l; simpl; congruence. Qed.

(** C5: in any state of a program, create a Subject and subscribe twice,
    with user callbacks [ta] and [tb] for values (any callbacks, or none,
    for errors and completion; the two subscribers may even pass the very
    same callbacks).  Every value broadcast after both subscriptions
    reaches [ta] and then [tb]; values broadcast before the second
    subscription reach [ta] only; once the first subscription is disposed
    the collection holds the second observer alone and values reach [tb]
    only, and symmetrically for the second subscription. *)
Theorem subject_multicast (st0 : State) (ta tb : nat)
    (ea eb : option ErrorCallback) (ca cb : option CompleteCallback)
    (values early later : list value) (k : nat) :
  let a := listener ta ea ca in
  let b := listener tb eb cb in
  let both := fun v => [(ta, Next v); (tb, Next v)] in
  (exists s st,
     two_subscribers (2 + k) a b values st0 = Ok s st /\
     heap st !! s = Some (CSubject [(supply st0, a); (S (supply st0), b)]) /\
     trace st = trace st0 ++ flat_map both values) /\
  (exists s st,
     late_subscriber (2 + k) a b early later st0 = Ok s st /\
     trace st = trace st0 ++ List.map (fun v => (ta, Next v)) early
                          ++ flat_map both later) /\
  (exists s st,
     disposed_subscriber (2 + k) true a b values st0 = Ok s st /\
     heap st !! s = Some (CSubject [(S (supply st0), b)]) /\
     trace st = trace st0 ++ List.map (fun v => (tb, Next v)) values) /\
  (exists s st,
     disposed_subscriber (2 + k) false a b values st0 = Ok s st /\
     heap st !! s = Some (CSubject [(supply st0, a)]) /\
     trace st = trace st0 ++ List.map (fun v => (ta, Next v)) values).
Proof.
  intros a b both.
  assert (Hab : Forall (fun o : nat * Observer => plain (snd o))
                       [(supply st0, a); (S (supply st0), b)])
    by (repeat constructor).
  assert (Ha : Forall (fun o : nat * Observer => plain (snd o)) [(supply st0, a)])
    by (repeat constructor).
  assert (Hb : Forall (fun o : nat * Observer => plain (snd o)) [(S (supply st0), b)])
    by (repeat constructor).
  repeat split.
  - unfold two_subscribers. unfold bind at 1. rewrite new_Subject_spec.
    unfold bind at 1. rewrite subscribe_with_subject.
    unfold bind at 1. rewrite subscribe_with_subject.
    unfold bind at 1. cbn [app]. rewrite nexts_with_subject by exact Hab.
    do 2 eexists. split; [reflexivity|]. split; [apply lookup_last|reflexivity].
  - unfold late_subscriber. unfold bind at 1. rewrite new_Subject_spec.
    unfold bind at 1. rewrite subscribe_with_subject.
    unfold bind at 1. cbn [app]. rewrite nexts_with_subject by exact Ha.
    unfold bind at 1. rewrite subscribe_with_subject.
    unfold bind at 1. cbn [app]. rewrite nexts_with_subject by exact Hab.
    do 2 eexists. split; [reflexivity|].
    cbn [with_subject trace]. unfold heard at 1. cbn [flat_map snd _next a listener app].
    now rewrite flat_map_singleton, <- app_assoc.
  - unfold disposed_subscriber. unfold bind at 1. rewrite new_Subject_spec.
    unfold bind at 1. rewrite subscribe_with_subject.
    unfold bind at 1. rewrite subscribe_with_subject.
    unfold bind at 1. cbv beta iota. rewrite dispose_with_subject.
    cbn [app List.filter fst negb]. rewrite Nat.eqb_refl.
    replace (S (supply st0) =? supply st0)%nat with false
      by (symmetry; apply Nat.eqb_neq; lia).
    cbn [negb]. unfold bind at 1. rewrite nexts_with_subject by exact Hb.
    do 2 eexists. split; [reflexivity|]. split; [apply lookup_last|].
    cbn [with_subject trace]. unfold heard. cbn [flat_map snd _next b listener app].
    now rewrite flat_map_singleton.
  - unfold disposed_subscriber. unfold bind at 1. rewrite new_Subject_spec.
    unfold bind at 1. rewrite subscribe_with_subject.
    unfold bind at 1. rewrite subscribe_with_subject.
    unfold bind at 1. cbv beta iota. rewrite dispose_with_subject.
    cbn [app List.filter fst negb]. rewrite Nat.eqb_refl.
    replace (supply st0 =? S (supply st0))%nat with false
      by (symmetry; apply Nat.eqb_neq; lia).
    cbn [negb]. unfold bind at 1. rewrite nexts_with_subject by exact Ha.
    do 2 eexists. split; [reflexivity|]. split; [apply lookup_last|].
    cbn [with_subject trace]. unfold heard. cbn [flat_map snd _next a listener app].
    now rewrite flat_map_singleton.
Qed.

(** ** Disposal twice *)

Lemma get_cell_spec fr c st : heap st !! fr = Some c -> get_cell fr st = Ok c st.
Proof. intros H. unfold get_cell. now rewrite H. Qed.

Lemma lookup_set_cell fr c st :
  is_Some (heap st !! fr) ->
  heap (set_heap (<[fr := c]> (heap st)) st) !! fr = Some c.
Proof.
  intros [c0 H]. cbn. apply list_lookup_insert_eq. eapply lookup_lt_Some, H.
Qed.

Lemma flag_dispose_idem fr k st2 st3 :
  dispose k (mkSubscription (FlagDispose fr)) st2 = Ok tt st3 ->
  forall k', dispose (S k') (mkSubscription (FlagDispose fr)) st3 = Ok tt st3.
Proof.
  destruct k as [|k]; [discriminate|]. cbn [dispose].
  unfold bind, get_isdisposed, set_isdisposed, bind.
  destruct (heap st2 !! fr) as [c|] eqn:E;
    [rewrite (get_cell_spec fr c st2 E) | unfold get_cell; rewrite E; discriminate].
  destruct c; try discriminate; destruct isdisposed; cbn [ret negb when];
    try rewrite (get_cell_spec _ _ _ E); unfold ret, set_cell;
    intros H k'; injection H as <-.
  all: try (rewrite (get_cell_spec _ _ _ E); reflexivity).
  all: erewrite get_cell_spec by (apply lookup_set_cell; eauto); reflexivity.
Qed.

Lemma interval_dispose_idem fr k st2 st3 :
  dispose k (mkSubscription (IntervalDispose fr)) st2 = Ok tt st3 ->
  forall k', dispose (S k') (mkSubscription (IntervalDispose fr)) st3 = Ok tt st3.
Proof.
  destruct k as [|k]; [discriminate|]. cbn [dispose].
  unfold bind at 1. unfold get_isdisposed at 1. unfold bind at 1.
  destruct (heap st2 !! fr) as [c|] eqn:E;
    [rewrite (get_cell_spec fr c st2 E) | unfold get_cell; rewrite E; discriminate].
  destruct c; try discriminate; destruct isdisposed; cbn [ret negb when].
  - intros H k'; injection H as <-.
    unfold bind, get_isdisposed, bind. now rewrite (get_cell_spec _ _ _ E).
  - unfold bind at 1. unfold get_intervalHandler at 1. unfold bind at 1.
    rewrite (get_cell_spec _ _ _ E). discriminate.
  - intros H k'; injection H as <-.
    unfold bind, get_isdisposed, bind. now rewrite (get_cell_spec _ _ _ E).
  - unfold bind at 1. unfold get_intervalHandler at 1. unfold bind at 1.
    rewrite (get_cell_spec _ _ _ E). cbn [ret]. unfold bind at 1.
    assert (Hc : exists st', clearInterval intervalHandler st2 = Ok tt st' /\
                             heap st' = heap st2).
    { destruct intervalHandler; cbn; eauto. }
    destruct Hc as (st' & -> & Hh). unfold set_isdisposed, bind.
    rewrite <- Hh in E. rewrite (get_cell_spec _ _ _ E). unfold set_cell.
    intros H k'; injection H as <-.
    unfold get_isdisposed, bind.
    erewrite get_cell_spec by (apply lookup_set_cell; eauto). reflexivity.
Qed.

Lemma event_dispose_idem fr element eventName eventHandler k st2 st3 :
  dispose k (mkSubscription (EventDispose fr element eventName eventHandler)) st2
  = Ok tt st3 ->
  forall k', dispose (S k') (mkSubscription (EventDispose fr element eventName eventHandler))
                     st3 = Ok tt st3.
Proof.
  destruct k as [|k]; [discriminate|]. cbn [dispose].
  unfold bind at 1. unfold get_isdisposed at 1. unfold bind at 1.
  destruct (heap st2 !! fr) as [c|] eqn:E;
    [rewrite (get_cell_spec fr c st2 E) | unfold get_cell; rewrite E; discriminate].
  destruct c; try discriminate; destruct isdisposed; cbn [ret negb when];
    try (intros H k'; injection H as <-;
         unfold bind, get_isdisposed, bind; now rewrite (get_cell_spec _ _ _ E)).
  all: unfold bind at 1; unfold removeEventListener, bind, release;
    unfold set_isdisposed, bind, get_cell; cbn [heap set_host set_listeners];
    rewrite E; unfold set_cell; cbn [heap];
    intros H k'; injection H as <-;
    unfold get_isdisposed, bind, get_cell; cbn [heap set_heap set_listeners set_host];
    rewrite list_lookup_insert_eq by (eapply lookup_lt_Some, E); reflexivity.
Qed.

(** The subscriptions the guarded creation functions return. *)
Lemma creation_subscription this obs fuel st s st1 :
  guarded_creation this = true ->
  _subscribe fuel this obs st = Ok s st1 ->
  (exists fr, s = mkSubscription (FlagDispose fr)) \/
  (exists fr, s = mkSubscription (IntervalDispose fr)) \/
  (exists fr element eventName eventHandler,
      s = mkSubscription (EventDispose fr element eventName eventHandler)).
Proof.
  intros Hc H. destruct fuel as [|fuel]; [discriminate|].
  destruct this; try discriminate Hc; cbn [_subscribe] in H.
  - unfold bind, alloc in H.
    destruct (call_complete fuel _ _) in H; try discriminate.
    cbv beta delta [ret] in H. injection H as <- _. left. eexists. reflexivity.
  - cbn in H. cbv beta delta [ret] in H. injection H as <- _. left. eexists. reflexivity.
  - cbn in H. cbv beta delta [ret] in H. injection H as <- _. left. eexists. reflexivity.
  - unfold bind, alloc, setInterval, bind, fresh_id in H.
    destruct (set_intervalHandler _ _ _) in H; try discriminate.
    cbv beta delta [ret] in H. injection H as <- _. right. left. eexists. reflexivity.
  - cbn in H. cbv beta delta [ret] in H. injection H as <- _.
    right. right. do 4 eexists. reflexivity.
Qed.

(** C8: let [s] be the subscription returned by subscribing, in any state
    and with any observer, to [empty()], [of(v)], [from(values)],
    [interval(period)] or [fromEvent(element, eventName)].  Whenever a
    call of [s.dispose()] has returned, in whatever state it was made,
    another call changes nothing: neither the state nor the record of
    released resources.  So two disposals of an [interval] subscription
    clear the timer once, and two disposals of a [fromEvent] subscription
    remove the listener once; before the disposal a tick of the timer (a
    dispatched event) reaches the subscriber, afterwards it does not.  A
    [Subscription] built around a user teardown has no such guard: two
    disposals run the teardown twice. *)
Theorem creation_dispose_idempotent :
  (forall this obs fuel st s st1,
     guarded_creation this = true ->
     _subscribe fuel this obs st = Ok s st1 ->
     forall k st2 st3,
       dispose k s st2 = Ok tt st3 ->
       forall k', dispose (S k') s st3 = Ok tt st3) /\
  (forall period tag k,
     exists s st1 st2,
       subscribe_user (4 + k) (Interval period) tag init = Ok s st1 /\
       dispose_times (4 + k) s 1 st1 = Ok tt st2 /\
       dispose_times (4 + k) s 2 st1 = Ok tt st2 /\
       host st2 = [ClearInterval 0] /\ intervals st2 = [] /\
       tick (4 + k) 0 st1
       = Ok tt (log tag (Next (VNum 0))
                    (set_heap [CInterval (Some 0%nat) false 1] st1)) /\
       tick (4 + k) 0 st2 = Ok tt st2) /\
  (forall element eventName tag e k,
     exists s st1 st2,
       subscribe_user (4 + k) (FromEvent element eventName) tag init = Ok s st1 /\
       dispose_times (4 + k) s 1 st1 = Ok tt st2 /\
       dispose_times (4 + k) s 2 st1 = Ok tt st2 /\
       host st2 = [RemoveEventListener element eventName 0] /\ listeners st2 = [] /\
       dispatch (4 + k) element eventName e st1 = Ok tt (log tag (Next (VEvent e)) st1) /\
       dispatch (4 + k) element eventName e st2 = Ok tt st2) /\
  (forall tag k st,
     dispose_times (1 + k) (mkSubscription (UserTeardown tag)) 2 st
     = Ok tt (set_host (host st ++ [Teardown tag; Teardown tag]) st)).
Proof.
  split; [|split; [|split]].
  - intros this obs fuel st s st1 Hc Hs k st2 st3 Hd k'.
    destruct (creation_subscription _ _ _ _ _ _ Hc Hs)
      as [(fr & ->) | [(fr & ->) | (fr & el & nm & h & ->)]].
    + eapply flag_dispose_idem, Hd.
    + eapply interval_dispose_idem, Hd.
    + eapply event_dispose_idem, Hd.
  - intros period tag k. do 3 eexists. cbn.
    split; [reflexivity|]. cbn. split; [reflexivity|]. repeat split.
  - intros element eventName tag e k. do 3 eexists. cbn.
    split; [reflexivity|]. cbn.
    split; [reflexivity|]. split; [reflexivity|]. do 2 (split; [reflexivity|]).
    rewrite Nat.eqb_refl, String.eqb_refl. cbn. split; reflexivity.
  - intros tag k st. cbn. unfold bind, release, ret. cbn.
    now rewrite <- app_assoc.
Qed.

(** C8 at [interval(500)]: subscribe, dispose, dispose again. *)
Lemma creation_dispose_idempotent_witness :
  dispose 2 (mkSubscription (IntervalDispose 0%nat))
          (mkState [CInterval (Some 0%nat) true 0] [] [] [] 1%nat [] [ClearInterval 0])
  = Ok tt (mkState [CInterval (Some 0%nat) true 0] [] [] [] 1%nat [] [ClearInterval 0]).
Proof.
  apply (proj1 creation_dispose_idempotent (Interval 500) (user 0) 2%nat init
           (mkSubscription (IntervalDispose 0%nat))
           (mkState [CInterval (Some 0%nat) false 0]
                    [] [(0%nat, IntervalTask 0%nat (wrap (user 0)))] [] 1%nat [] [])
           eq_refl eq_refl 2%nat
           (mkState [CInterval (Some 0%nat) false 0]
                    [] [(0%nat, IntervalTask 0%nat (wrap (user 0)))] [] 1%nat [] [])
           _ eq_refl 1%nat).
Defined.

(** ** mergeMap and merge: completion counted against a growing array *)

(** C2 fails on the code.  [mergeMap] counts completions against
    [subscriptions.length], and a subscription is pushed only after its
    subscribe call has returned.  With an inner [empty()], which completes
    inside subscribe, the count reaches the length early: on a Subject
    that never completes, the first value completes the subscriber; on
    [from([1, 2])] the subscriber is completed three times, twice before
    the outer source completes; and with a source that emits inside
    subscribe the subscriber is completed while an inner subscription to a
    Subject is registered, neither completed nor disposed.  With inner
    observables that complete from a timer, as in
    [from([1, 2]).mergeMap(v => of(v))], the subscriber is completed once,
    after the outer source and both inner ones. *)
Theorem mergeMap_completes_early (tag k : nat) :
  (exists st,
     mergeMap_empty_on_subject (12 + k) tag init = Ok tt st /\
     trace st = [(tag, Complete)]) /\
  (exists st st',
     subscribe_user (12 + k) (MergeMap (fun _ => Empty) (From [VNum 1; VNum 2])) tag init
     = Ok (mkSubscription (DisposeAll 0%nat)) st /\
     run_timeout (12 + k) st = Ok tt st' /\
     trace st' = [(tag, Complete); (tag, Complete); (tag, Complete)]) /\
  (exists st inner,
     mergeMap_pending_inner (12 + k) tag init = Ok tt st /\
     trace st = [(tag, Complete)] /\
     heap st !! 0%nat = Some (CSubject [(0%nat, inner)]) /\
     heap st !! 1%nat
     = Some (CMergeMap [mkSubscription (SubjectRemove 0%nat 0%nat);
                        mkSubscription (FlagDispose 2%nat);
                        mkSubscription NoTeardown] 1) /\
     heap st !! 2%nat = Some (CProducer false)) /\
  (exists st,
     (subscribe_user (12 + k) (MergeMap (fun v => Of v) (From [VNum 1; VNum 2])) tag >>
      run_timeouts (12 + k) 3) init = Ok tt st /\
     trace st = [(tag, Next (VNum 1)); (tag, Next (VNum 2)); (tag, Complete)] /\
     quiescent st).
Proof.
  split; [|split; [|split]].
  - eexists. split; [vm_compute; reflexivity | reflexivity].
  - do 2 eexists. split; [vm_compute; reflexivity|].
    split; [vm_compute; reflexivity | reflexivity].
  - do 2 eexists. split; [vm_compute; reflexivity|]. repeat split.
  - eexists. split; [vm_compute; reflexivity|]. repeat split.
Qed.

(** C3 fails on the code for sources that complete inside subscribe.
    [merge] counts completions against [subscriptions.length], which
    grows as the sources are subscribed in turn.  In
    [merge(from([1]), empty())] the completion of [empty()] is counted
    when only the first subscription is registered: the subscriber is
    completed at subscribe time, before [from([1])] has delivered
    anything, receives 1 afterwards, and is completed a second time.  In
    [merge(empty())] the completion is counted against an empty array and
    the subscriber is never completed.  With sources that complete from a
    timer, as in [merge(from([1]), from([2]))], the subscriber is
    completed once, after both. *)
Theorem merge_completes_early (tag k : nat) :
  (exists s st st',
     subscribe_user (10 + k) merge_from_empty tag init = Ok s st /\
     trace st = [(tag, Complete)] /\
     length (timeouts st) = 1%nat /\
     run_timeout (10 + k) st = Ok tt st' /\
     trace st' = [(tag, Complete); (tag, Next (VNum 1)); (tag, Complete)] /\
     quiescent st') /\
  (exists s st,
     subscribe_user (10 + k) (Merge [Empty]) tag init = Ok s st /\
     trace st = [] /\ quiescent st) /\
  (exists st,
     (subscribe_user (10 + k) (Merge [From [VNum 1]; From [VNum 2]]) tag >>
      run_timeouts (10 + k) 2) init = Ok tt st /\
     trace st = [(tag, Next (VNum 1)); (tag, Next (VNum 2)); (tag, Complete)] /\
     quiescent st).
Proof.
  split; [|split].
  - do 3 eexists. split; [vm_compute; reflexivity|].
    do 2 (split; [reflexivity|]). split; [vm_compute; reflexivity|]. repeat split.
  - do 2 eexists. split; [vm_compute; reflexivity|]. repeat split.
  - eexists. split; [vm_compute; reflexivity|]. repeat split.
Qed.

(** * Further properties *)

(** ** Subject *)

Lemma relay_signal k sig : forall subs st,
  match sig with
  | Next v =>
      forEach (fun observer => call_next (2 + k) (ObserverNext (snd observer)) v)
              (user_observers subs) st
  | Error m =>
      forEach (fun observer => call_error (2 + k) (ObserverError (snd observer)) m)
              (user_observers subs) st
  | Complete =>
      forEach (fun observer => call_complete (2 + k) (ObserverComplete (snd observer)))
              (user_observers subs) st
  end
  = Ok tt (set_trace (trace st ++ relayed subs sig) st).
Proof.
  induction subs as [|[oid tag] subs IH]; intros st.
  - destruct sig; cbn; unfold ret; rewrite app_nil_r; destruct st; reflexivity.
  - destruct sig as [v|m|]; cbn [user_observers List.map forEach fst snd relayed] in *;
      unfold bind at 1.
    + change (call_next _ _ v st) with (Ok tt (log tag (Next v) st)).
      cbv beta iota. rewrite IH. cbn. rewrite <- app_assoc. reflexivity.
    + change (call_error _ _ m st) with (Ok tt (log tag (Error m) st)).
      cbv beta iota. rewrite IH. cbn. rewrite <- app_assoc. reflexivity.
    + change (call_complete _ _ st) with (Ok tt (log tag Complete st)).
      cbv beta iota. rewrite IH. cbn. rewrite <- app_assoc. reflexivity.
Qed.

(** X1: a Subject relays every call, [next], [error] and [complete] alike,
    to every registered observer in the order of the collection, and keeps
    no record of termination: whatever the sequence of calls, also after
    [complete()] or [error()], each call reaches every observer, and the
    collection is unchanged. *)
Theorem subject_relays_all (st : State) (s : loc) (subs : list (nat * nat))
    (sigs : list Signal) (k : nat) :
  heap st !! s = Some (CSubject (user_observers subs)) ->
  Subject_signals (2 + k) s sigs st
  = Ok tt (set_trace (trace st ++ flat_map (relayed subs) sigs) st).
Proof.
  intros H. revert st H. induction sigs as [|sig sigs IH]; intros st H.
  - cbn. unfold ret. rewrite app_nil_r. destruct st; reflexivity.
  - unfold Subject_signals. cbn [forEach flat_map]. unfold bind at 1.
    assert (Hs : Subject_signal (2 + k) s sig st
                 = Ok tt (set_trace (trace st ++ relayed subs sig) st)).
    { destruct sig; cbn [Subject_signal];
        unfold Subject_next, Subject_error, Subject_complete, bind;
        rewrite (get_observers_spec s _ st H);
        [apply (relay_signal k (Next v)) | apply (relay_signal k (Error message))
        | apply (relay_signal k Complete)]. }
    rewrite Hs. fold (Subject_signals (2 + k) s sigs).
    rewrite IH by exact H. cbn. rewrite <- app_assoc. reflexivity.
Qed.

(** X1 at a Subject with two observers: a value published after the
    completion still reaches both. *)
Lemma subject_relays_all_witness :
  Subject_signals 2 0%nat [Complete; Next (VNum 1)]
    (mkState [CSubject (user_observers [(0, 7); (1, 8)]%nat)] [] [] [] 2%nat [] [])
  = Ok tt (mkState [CSubject (user_observers [(0, 7); (1, 8)]%nat)] [] [] [] 2%nat
             [(7, Complete); (8, Complete); (7, Next (VNum 1)); (8, Next (VNum 1))]%nat
             []).
Proof.
  exact (subject_relays_all
           (mkState [CSubject (user_observers [(0, 7); (1, 8)]%nat)] [] [] [] 2%nat [] [])
           0%nat [(0, 7); (1, 8)]%nat [Complete; Next (VNum 1)] 0%nat eq_refl).
Defined.

Lemma filter_issued (observers : list (nat * Observer)) (fresh : nat) :
  Forall (fun o => (fst o < fresh)%nat) observers ->
  List.filter (fun o => negb (Nat.eqb (fst o) fresh)) observers = observers.
Proof.
  induction 1 as [|o l Ho _ IH]; [reflexivity|]. cbn.
  replace (fst o =? fresh)%nat with false by (symmetry; apply Nat.eqb_neq; lia).
  cbn. now rewrite IH.
Qed.

(** X2: subscribing to a Subject and disposing the subscription leaves the
    collection of observers as it was, whatever it held (only the supply of
    identities has advanced); a second disposal changes nothing; and the
    collection grown by a subscription again holds only identities issued
    earlier, so this holds for every later subscription as well. *)
Theorem subject_subscribe_dispose (st : State) (s : loc)
    (observers : list (nat * Observer)) (next : option NextCallback)
    (error : option ErrorCallback) (complete : option CompleteCallback) (k : nat) :
  heap st !! s = Some (CSubject observers) ->
  issued st observers ->
  exists sub st1,
    Subject_subscribe s next error complete st = Ok sub st1 /\
    heap st1 !! s
    = Some (CSubject (observers ++ [(supply st, mkObserver next error complete)])) /\
    issued st1 (observers ++ [(supply st, mkObserver next error complete)]) /\
    dispose (1 + k) sub st1 = Ok tt (set_supply (S (supply st)) st) /\
    dispose (1 + k) sub (set_supply (S (supply st)) st)
    = Ok tt (set_supply (S (supply st)) st).
Proof.
  intros H Hi.
  assert (Hlt : (s < length (heap st))%nat) by (eapply lookup_lt_Some, H).
  do 2 eexists. split; [apply (Subject_subscribe_spec s observers), H|].
  split; [cbn; now apply list_lookup_insert_eq|]. split.
  - unfold issued. cbn [supply set_heap set_supply]. apply Forall_app. split.
    + eapply Forall_impl; [exact Hi|]. cbn. intros; lia.
    + repeat constructor.
  - split.
    + erewrite Subject_dispose_spec by (cbn; now apply list_lookup_insert_eq).
      rewrite List.filter_app, (filter_issued observers (supply st) Hi).
      cbn. rewrite Nat.eqb_refl. cbn. rewrite app_nil_r.
      rewrite list_insert_insert_eq, list_insert_id by exact H.
      destruct st; reflexivity.
    + erewrite Subject_dispose_spec by (cbn; exact H).
      rewrite (filter_issued observers (supply st) Hi).
      cbn. rewrite list_insert_id by exact H. destruct st; reflexivity.
Qed.

(** X2 at a Subject that holds one observer. *)
Lemma subject_subscribe_dispose_witness :
  exists sub st1,
    Subject_subscribe 0%nat None None None
      (mkState [CSubject [(0%nat, user 7)]] [] [] [] 1%nat [] []) = Ok sub st1 /\
    dispose 1 sub st1 = Ok tt (mkState [CSubject [(0%nat, user 7)]] [] [] [] 2%nat [] []).
Proof.
  destruct (subject_subscribe_dispose
              (mkState [CSubject [(0%nat, user 7)]] [] [] [] 1%nat [] [])
              0%nat [(0%nat, user 7)] None None None 0%nat eq_refl)
    as (sub & st1 & H1 & _ & _ & H2 & _).
  - repeat constructor.
  - exists sub, st1. split; [exact H1 | exact H2].
Defined.

Lemma Subject_nexts_single k s oid o (out : value -> list (nat * Signal)) :
  (forall v st, call_next k (ObserverNext o) v st
                = Ok tt (set_trace (trace st ++ out v) st)) ->
  forall values st,
    heap st !! s = Some (CSubject [(oid, o)]) ->
    Subject_nexts k s values st
    = Ok tt (set_trace (trace st ++ flat_map out values) st).
Proof.
  intros Ho. induction values as [|v values IH]; intros st H.
  - cbn. unfold ret. rewrite app_nil_r. destruct st; reflexivity.
  - unfold Subject_nexts. cbn [forEach flat_map]. unfold bind at 1.
    unfold Subject_next at 1. unfold bind at 1.
    rewrite (get_observers_spec s _ st H). cbn [forEach snd]. unfold bind at 1.
    rewrite Ho. cbn [ret]. fold (Subject_nexts k s values).
    rewrite IH by exact H. cbn. rewrite <- app_assoc. reflexivity.
Qed.

(** X3: a Subject exposed through [asObservable()] feeds operators like any
    source.  For a Subject created in any state and a subscriber to
    [subject.asObservable().map(f)]: the values published before the
    subscription are not replayed, each value [v] published while
    subscribed arrives as [f(v)], and disposing the subscription returned
    by [map] unregisters the observer from the Subject, so that values
    published afterwards are not delivered and the collection is empty
    again. *)
Theorem subject_through_map (st0 : State) (f : value -> value) (tag : nat)
    (before during after : list value) (k : nat) :
  exists s st,
    published_through_map (6 + k) f tag before during after st0 = Ok s st /\
    trace st = trace st0 ++ List.map (fun v => (tag, Next (f v))) during /\
    heap st = heap st0 ++ [CSubject []].
Proof.
  unfold published_through_map. unfold bind at 1. rewrite new_Subject_spec.
  unfold bind at 1.
  rewrite (nexts_with_subject st0 (4 + k) [] _ _ before) by constructor.
  unfold bind at 1. unfold subscribe_user, subscribe.
  change (_subscribe (6 + k) (Map f (SubjectObs (length (heap st0)))) ?o)
    with (bind (Subject_subscribe (length (heap st0))
                  (Some (ObserverNext (map_observer f (user tag))))
                  (Some (ObserverError (map_observer f (user tag))))
                  (Some (ObserverComplete (map_observer f (user tag)))))
               (fun subscription => ret (mkSubscription (DisposeUpstream subscription)))).
  unfold bind at 1. rewrite subscribe_with_subject. cbn [ret app].
  unfold bind at 1.
  rewrite (Subject_nexts_single (6 + k) (length (heap st0)) (supply st0)
             (mkObserver (Some (ObserverNext (map_observer f (user tag))))
                         (Some (ObserverError (map_observer f (user tag))))
                         (Some (ObserverComplete (map_observer f (user tag)))))
             (fun v => [(tag, Next (f v))]) (fun v st => eq_refl))
    by apply lookup_last.
  change (set_trace ?t (with_subject ?a ?b ?c ?d)) with (with_subject a b c t).
  cbn [trace with_subject].
  unfold bind at 1.
  change (dispose (6 + k) (mkSubscription (DisposeUpstream ?x)))
    with (dispose (2 + (3 + k)) x).
  rewrite dispose_with_subject. cbn [List.filter fst]. rewrite Nat.eqb_refl. cbn [negb].
  unfold bind at 1.
  rewrite (nexts_with_subject st0 (4 + k) [] _ _ after) by constructor.
  do 2 eexists. split; [reflexivity|].
  cbn [with_subject trace heap flat_map app].
  assert (Hnone : forall l : list value, flat_map (heard []) l = [])
    by (induction l; auto).
  rewrite !Hnone, !app_nil_r, flat_map_singleton. split; reflexivity.
Qed.

(** ** interval *)

Lemma tick_interval tag k i tr :
  tick (4 + k) 0 (st_interval tag i tr)
  = Ok tt (st_interval tag (i + 1) (tr ++ [(tag, Next (VNum i))])).
Proof. reflexivity. Qed.

Lemma ticks_interval tag k : forall count i tr,
  ticks (4 + k) 0 count (st_interval tag i tr)
  = Ok tt (st_interval tag (i + Z.of_nat count)
             (tr ++ List.map (fun j => (tag, Next (VNum j))) (ascending i count))).
Proof.
  induction count as [|count IH]; intros i tr.
  - cbn. unfold ret. now rewrite Z.add_0_r, app_nil_r.
  - cbn [ticks ascending List.map]. unfold bind at 1. rewrite tick_interval, IH.
    replace (i + 1 + Z.of_nat count) with (i + Z.of_nat (S count)) by lia.
    now rewrite <- app_assoc.
Qed.

Lemma ticks_cleared k st : forall count,
  intervals st = [] ->
  ticks k 0 count st = Ok tt st.
Proof.
  intros count H. induction count as [|count IH]; [reflexivity|].
  cbn [ticks]. unfold bind at 1. unfold tick. rewrite H. cbn [List.find]. exact IH.
Qed.

(** X4: a subscriber to [interval(period)] receives the counter values 0,
    1, 2, ... one per firing of the timer, and is never completed: after
    [before] firings it has received exactly 0, ..., [before - 1] and the
    timer is still registered.  Disposing the subscription clears the
    timer, once; however often the host would fire it afterwards, nothing
    more is received. *)
Theorem interval_counts (period : Z) (tag before after k : nat) :
  (exists s st,
     (let* sub := subscribe_user (4 + k) (Interval period) tag in
      ticks (4 + k) 0 before >> ret sub) init = Ok s st /\
     trace st = List.map (fun j => (tag, Next (VNum j))) (ascending 0 before) /\
     intervals st = [(0%nat, IntervalTask 0%nat (wrap (user tag)))]) /\
  (exists st,
     interval_run (4 + k) period tag before after init = Ok tt st /\
     trace st = List.map (fun j => (tag, Next (VNum j))) (ascending 0 before) /\
     intervals st = [] /\
     host st = [ClearInterval 0]).
Proof.
  split.
  - unfold bind. change (subscribe_user (4 + k) (Interval period) tag init)
      with (Ok (mkSubscription (IntervalDispose 0%nat)) (st_interval tag 0 [])).
    cbv beta iota. unfold bind. rewrite ticks_interval.
    do 2 eexists. split; [reflexivity|]. split; reflexivity.
  - unfold interval_run, bind.
    change (subscribe_user (4 + k) (Interval period) tag init)
      with (Ok (mkSubscription (IntervalDispose 0%nat)) (st_interval tag 0 [])).
    cbv beta iota. rewrite ticks_interval.
    change (dispose (4 + k) (mkSubscription (IntervalDispose 0%nat))
              (st_interval tag (0 + Z.of_nat before)
                 ([] ++ List.map (fun j => (tag, Next (VNum j))) (ascending 0 before))))
      with (Ok tt (mkState [CInterval (Some 0%nat) true (0 + Z.of_nat before)] [] [] []
                     1%nat
                     ([] ++ List.map (fun j => (tag, Next (VNum j))) (ascending 0 before))
                     [ClearInterval 0])).
    cbv beta iota. rewrite ticks_cleared by reflexivity.
    eexists. split; [reflexivity|]. repeat split.
Qed.

(** ** fromEvent *)

Lemma dispatch_listening element eventName tag k el name e tr :
  dispatch (4 + k) el name e (st_listening element eventName tag tr)
  = Ok tt (st_listening element eventName tag
             (tr ++ if Nat.eqb element el && String.eqb eventName name
                    then [(tag, Next (VEvent e))] else [])).
Proof.
  unfold dispatch. cbn [listeners st_listening forEach]. unfold bind.
  destruct (Nat.eqb element el && String.eqb eventName name);
    cbn; rewrite ?app_nil_r; reflexivity.
Qed.

Lemma dispatches_listening element eventName tag k : forall events tr,
  dispatches (4 + k) events (st_listening element eventName tag tr)
  = Ok tt (st_listening element eventName tag
             (tr ++ List.map (fun e => (tag, Next (VEvent e)))
                             (events_on element eventName events))).
Proof.
  induction events as [|[[el name] e] events IH]; intros tr.
  - cbn. unfold ret. now rewrite app_nil_r.
  - unfold dispatches. cbn [forEach fst snd]. unfold bind at 1.
    rewrite dispatch_listening. fold (dispatches (4 + k) events). rewrite IH.
    unfold events_on. cbn [List.filter fst snd].
    destruct (Nat.eqb element el && String.eqb eventName name);
      cbn [List.map snd]; rewrite <- app_assoc; reflexivity.
Qed.

Lemma dispatches_unheard k st : forall events,
  listeners st = [] ->
  dispatches k events st = Ok tt st.
Proof.
  intros events H. induction events as [|ev events IH]; [reflexivity|].
  unfold dispatches. cbn [forEach]. unfold bind at 1. unfold dispatch at 1.
  rewrite H. cbn [forEach ret]. exact IH.
Qed.

(** X5: a subscriber to [fromEvent(element, eventName)] receives, in
    order, exactly the events dispatched on that element with that name
    (events on other elements or with other names are not received) and is
    never completed.  Disposing the subscription removes the listener,
    once; events dispatched afterwards are not received. *)
Theorem fromEvent_forwards (element : nat) (eventName : string) (tag k : nat)
    (before after : list (nat * string * nat)) :
  (exists s st,
     (let* sub := subscribe_user (4 + k) (FromEvent element eventName) tag in
      dispatches (4 + k) before >> ret sub) init = Ok s st /\
     trace st = List.map (fun e => (tag, Next (VEvent e)))
                         (events_on element eventName before) /\
     listeners st = [(element, eventName, 0%nat, EventHandler (wrap (user tag)))]) /\
  (exists st,
     fromEvent_run (4 + k) element eventName tag before after init = Ok tt st /\
     trace st = List.map (fun e => (tag, Next (VEvent e)))
                         (events_on element eventName before) /\
     listeners st = [] /\
     host st = [RemoveEventListener element eventName 0]).
Proof.
  split.
  - unfold bind.
    change (subscribe_user (4 + k) (FromEvent element eventName) tag init)
      with (Ok (mkSubscription (EventDispose 0%nat element eventName 0%nat))
               (st_listening element eventName tag [])).
    cbv beta iota. unfold bind. rewrite dispatches_listening.
    do 2 eexists. split; [reflexivity|]. split; reflexivity.
  - unfold fromEvent_run, bind.
    change (subscribe_user (4 + k) (FromEvent element eventName) tag init)
      with (Ok (mkSubscription (EventDispose 0%nat element eventName 0%nat))
               (st_listening element eventName tag [])).
    cbv beta iota. rewrite dispatches_listening.
    change (dispose (4 + k) (mkSubscription (EventDispose 0%nat element eventName 0%nat))
              (st_listening element eventName tag ?tr))
      with (Ok tt (mkState [CProducer true] [] [] [] 1%nat tr
                     [RemoveEventListener element eventName 0])).
    cbv beta iota. rewrite dispatches_unheard by reflexivity.
    eexists. split; [reflexivity|]. repeat split.
Qed.

(** ** take over interval *)

Lemma tick_interval_take n tag k i tr :
  tick (7 + k) 0 (st_interval_take n tag true i tr)
  = Ok tt (st_interval_take n tag (negb (i =? n - 1)) (i + 1)
             (tr ++ (if i <? n - 1 then [(tag, Next (VNum i))] else [])
                 ++ (if i =? n - 1 then [(tag, Next (VNum i)); (tag, Complete)] else []))).
Proof.
  destruct (i <? n - 1) eqn:Hlt, (i =? n - 1) eqn:Heq;
    do 2 (exec; rewrite ?Hlt, ?Heq); exec;
    rewrite ?app_nil_r, <- ?app_assoc; reflexivity.
Qed.

Lemma ticks_interval_take n tag k : forall count i tr,
  ticks (7 + k) 0 count (st_interval_take n tag true i tr)
  = Ok tt (st_interval_take n tag
             (negb ((i <=? n - 1) && (n - i <=? Z.of_nat count)))
             (i + Z.of_nat (Nat.min count (Z.to_nat (n - i)))
                + (if (i <=? n - 1) then 0 else Z.of_nat count))
             (tr ++ List.map (fun j => (tag, Next (VNum j)))
                             (ascending i (Nat.min count (Z.to_nat (n - i))))
                 ++ (if (i <=? n - 1) && (n - i <=? Z.of_nat count)
                     then [(tag, Complete)] else []))).
Proof.
  induction count as [|count IH]; intros i tr.
  - cbn [ticks Nat.min ascending List.map]. unfold ret.
    replace ((i <=? n - 1) && (n - i <=? Z.of_nat 0)) with false
      by (symmetry; apply andb_false_iff; rewrite Z.leb_gt, Z.leb_gt; lia).
    cbn [negb]. rewrite app_nil_r.
    replace (i + Z.of_nat 0 + (if i <=? n - 1 then 0 else Z.of_nat 0)) with i
      by (destruct (i <=? n - 1); lia).
    reflexivity.
  - cbn [ticks]. unfold bind at 1. rewrite tick_interval_take.
    destruct (Z.eqb_spec i (n - 1)) as [E|E]; cbn [negb].
    + (* the n-th value: the timer is cleared *)
      rewrite ticks_cleared by reflexivity.
      replace (i <? n - 1) with false by (symmetry; apply Z.ltb_ge; lia).
      replace (i <=? n - 1) with true by (symmetry; apply Z.leb_le; lia).
      replace (n - i <=? Z.of_nat (S count)) with true by (symmetry; apply Z.leb_le; lia).
      replace (Z.to_nat (n - i)) with 1%nat by lia.
      replace (Nat.min (S count) 1) with 1%nat by lia.
      cbn [andb negb ascending List.map app].
      replace (i + Z.of_nat 1 + 0) with (i + 1) by lia. reflexivity.
    + rewrite IH. destruct (Z.ltb_spec i (n - 1)) as [L|L].
      * replace (i + 1 <=? n - 1) with true by (symmetry; apply Z.leb_le; lia).
        replace (i <=? n - 1) with true by (symmetry; apply Z.leb_le; lia).
        replace (n - (i + 1) <=? Z.of_nat count) with (n - i <=? Z.of_nat (S count))
          by (apply eq_true_iff_eq; rewrite !Z.leb_le; lia).
        replace (Z.to_nat (n - i)) with (S (Z.to_nat (n - (i + 1)))) by lia.
        rewrite <- Nat.succ_min_distr.
        cbn [ascending List.map andb app].
        rewrite <- !app_assoc. cbn [app].
        replace (i + 1 + Z.of_nat (Nat.min count (Z.to_nat (n - (i + 1)))) + 0)
          with (i + Z.of_nat (S (Nat.min count (Z.to_nat (n - (i + 1))))) + 0) by lia.
        reflexivity.
      * replace (i + 1 <=? n - 1) with false by (symmetry; apply Z.leb_gt; lia).
        replace (i <=? n - 1) with false by (symmetry; apply Z.leb_gt; lia).
        replace (Z.to_nat (n - i)) with 0%nat by lia.
        replace (Z.to_nat (n - (i + 1))) with 0%nat by lia.
        rewrite !Nat.min_0_r. cbn [andb negb ascending List.map app].
        rewrite !app_nil_r.
        replace (i + 1 + Z.of_nat 0 + Z.of_nat count)
          with (i + Z.of_nat 0 + Z.of_nat (S count)) by lia.
        reflexivity.
Qed.

(** X6: [take(n)] stops an [interval].  A subscriber to
    [interval(period).take(n)] receives 0, 1, ... one per firing of the
    timer; with the [n]-th value (for [n >= 1]) it is completed and the
    timer is cleared, so that further firings requested of the host
    deliver nothing: after [count] firings it has received the first
    [min(count, n)] counter values, followed by one completion when
    [1 <= n <= count].  For [n <= 0] nothing is ever received and the
    timer is never cleared. *)
Theorem take_stops_interval (period n : Z) (tag count k : nat) :
  exists st,
    interval_take_run (7 + k) period n tag count init = Ok tt st /\
    trace st
    = List.map (fun j => (tag, Next (VNum j)))
               (ascending 0 (Nat.min count (Z.to_nat n)))
      ++ (if (1 <=? n) && (n <=? Z.of_nat count) then [(tag, Complete)] else []) /\
    length (intervals st)
    = (if (1 <=? n) && (n <=? Z.of_nat count) then 0%nat else 1%nat) /\
    host st = (if (1 <=? n) && (n <=? Z.of_nat count) then [ClearInterval 0] else []).
Proof.
  unfold interval_take_run, bind.
  change (subscribe_user (7 + k) (Take n (Interval period)) tag init)
    with (Ok (mkSubscription (DisposeUpstream (mkSubscription (IntervalDispose 1%nat))))
             (st_interval_take n tag true 0 [])).
  cbv beta iota. rewrite ticks_interval_take.
  eexists. split; [reflexivity|].
  rewrite Z.sub_0_r. replace (0 <=? n - 1) with (1 <=? n)
    by (apply eq_true_iff_eq; rewrite !Z.leb_le; lia).
  cbn [trace intervals host st_interval_take app].
  split; [reflexivity|].
  destruct ((1 <=? n) && (n <=? Z.of_nat count)); split; reflexivity.
Qed.

(** ** take over any scripted source *)

Lemma take_react_ok n tag j (i : Z) s st :
  heap st = [CTake i (Some (mkSubscription NoTeardown))] ->
  deliver (5 + j) (take_observer 0%nat n tag) s st
  = Ok tt (set_trace (trace st ++ List.map (pair tag) (snd (take_react n i s)))
             (set_heap [CTake (fst (take_react n i s)) (Some (mkSubscription NoTeardown))]
                st)).
Proof.
  intros H. destruct st as [h q iv ls su tr ho]. cbn in H. subst h.
  destruct s as [v|m|].
  - cbn [take_react fst snd].
    destruct (i <? n - 1) eqn:Hlt, (i =? n - 1) eqn:Heq;
      do 2 (exec; rewrite ?Hlt, ?Heq); exec;
      rewrite ?app_nil_r, <- ?app_assoc; reflexivity.
  - reflexivity.
  - reflexivity.
Qed.

Lemma take_reacts_safe n : forall l i,
  i + Z.of_nat (length (nexts l)) < n ->
  reacts (take_react n) i l = (i + Z.of_nat (length (nexts l)), l).
Proof.
  induction l as [|s l IH]; intros i H.
  - cbn. now rewrite Z.add_0_r.
  - destruct s as [v|m|]; cbn [reacts take_react nexts length] in *.
    + replace (i <? n - 1) with true by (symmetry; apply Z.ltb_lt; lia).
      replace (i =? n - 1) with false by (symmetry; apply Z.eqb_neq; lia).
      rewrite IH by lia. cbn [app]. f_equal. lia.
    + now rewrite IH.
    + now rewrite IH.
Qed.

Lemma take_reacts_values n : forall l i,
  nexts (snd (reacts (take_react n) i l)) = firstn (Z.to_nat (n - i)) (nexts l).
Proof.
  induction l as [|s l IH]; intros i.
  - cbn. now rewrite firstn_nil.
  - destruct s as [v|m|]; cbn [reacts take_react nexts].
    + specialize (IH (i + 1)). destruct (reacts (take_react n) (i + 1) l) as [t out].
      cbn [snd] in *. rewrite !nexts_app, IH.
      destruct (Z.ltb_spec i (n - 1)), (Z.eqb_spec i (n - 1)); try lia; cbn [nexts app].
      * replace (Z.to_nat (n - i)) with (S (Z.to_nat (n - (i + 1)))) by lia. reflexivity.
      * replace (Z.to_nat (n - i)) with 1%nat by lia.
        replace (Z.to_nat (n - (i + 1))) with 0%nat by lia.
        cbn. now rewrite !firstn_O.
      * replace (Z.to_nat (n - i)) with 0%nat by lia.
        replace (Z.to_nat (n - (i + 1))) with 0%nat by lia.
        now rewrite !firstn_O.
    + specialize (IH i). destruct (reacts (take_react n) i l). cbn [snd] in *.
      exact IH.
    + specialize (IH i). destruct (reacts (take_react n) i l). cbn [snd] in *.
      exact IH.
Qed.

Lemma errors_app l1 l2 : errors (l1 ++ l2) = errors l1 ++ errors l2.
Proof. induction l1 as [|[]]; simpl; congruence. Qed.

Lemma completions_app l1 l2 : completions (l1 ++ l2) = (completions l1 + completions l2)%nat.
Proof. induction l1 as [|[]]; simpl; congruence. Qed.

Lemma take_reacts_errors n : forall l i,
  errors (snd (reacts (take_react n) i l)) = errors l.
Proof.
  induction l as [|s l IH]; intros i; [reflexivity|].
  destruct s as [v|m|]; cbn [reacts take_react errors].
  - specialize (IH (i + 1)). destruct (reacts (take_react n) (i + 1) l).
    cbn [snd] in *. rewrite !errors_app, IH.
    destruct (i <? n - 1), (i =? n - 1); reflexivity.
  - specialize (IH i). destruct (reacts (take_react n) i l). cbn [snd] in *.
    cbn. now rewrite IH.
  - specialize (IH i). destruct (reacts (take_react n) i l). cbn [snd] in *.
    exact IH.
Qed.

Lemma take_reacts_completions n : forall l i,
  completions (snd (reacts (take_react n) i l))
  = (completions l
     + if ((i <=? n - 1) && (n - i <=? Z.of_nat (length (nexts l))))%Z then 1 else 0)%nat.
Proof.
  induction l as [|s l IH]; intros i.
  - cbn [nexts length completions Nat.add]. change (Z.of_nat 0) with 0.
    destruct (Z.leb_spec i (n - 1)), (Z.leb_spec (n - i) 0); try reflexivity; lia.
  - destruct s as [v|m|]; cbn [reacts take_react completions nexts length].
    + specialize (IH (i + 1)). destruct (reacts (take_react n) (i + 1) l).
      cbn [snd] in *. rewrite !completions_app, IH.
      destruct (Z.ltb_spec i (n - 1)), (Z.eqb_spec i (n - 1)); try lia;
        cbn [completions Nat.add].
      * replace (i + 1 <=? n - 1) with true by (symmetry; apply Z.leb_le; lia).
        replace (i <=? n - 1) with true by (symmetry; apply Z.leb_le; lia).
        replace (n - (i + 1) <=? Z.of_nat (length (nexts l)))
          with (n - i <=? Z.of_nat (S (length (nexts l))))
          by (apply eq_true_iff_eq; rewrite !Z.leb_le; lia).
        reflexivity.
      * replace (i + 1 <=? n - 1) with false by (symmetry; apply Z.leb_gt; lia).
        replace (i <=? n - 1) with true by (symmetry; apply Z.leb_le; lia).
        replace (n - i <=? Z.of_nat (S (length (nexts l)))) with true
          by (symmetry; apply Z.leb_le; lia).
        cbn. lia.
      * replace (i + 1 <=? n - 1) with false by (symmetry; apply Z.leb_gt; lia).
        replace (i <=? n - 1) with false by (symmetry; apply Z.leb_gt; lia).
        reflexivity.
    + specialize (IH i). destruct (reacts (take_react n) i l). cbn [snd] in *.
      exact IH.
    + specialize (IH i). destruct (reacts (take_react n) i l). cbn [snd] in *.
      cbn. now rewrite IH.
Qed.

Lemma run_script_take F n sync deferred tag timers i tr :
  forEach (deliver F (take_observer 0%nat n tag)) sync (st_take_sync 0 [])
  = Ok tt (st_take_sync i tr) ->
  run_script (S (S F)) (Take n) sync deferred tag timers init
  = run_timeouts (S (S F)) timers
      (mkState [CTake i (Some (mkSubscription NoTeardown))]
               (List.map (CustomTask (take_observer 0%nat n tag)) deferred)
               [] [] 0%nat tr []).
Proof.
  intros H. unfold run_script, bind.
  now rewrite (subscribe_take_ok F n sync deferred tag i tr H).
Qed.

(** X7: [take(n)] caps the values and nothing else.  Let a scripted source
    deliver fewer than [n] values inside subscribe and any signals from
    its timers, and let it ignore disposal.  At every point of the run a
    subscriber to [source.take(n)] has received: of the values delivered
    so far, the first [n] and no more; every error delivered so far,
    also those after the [n]-th value; and every completion delivered so
    far plus one of [take]'s own once the [n]-th value has arrived, so
    that a source that completes after its [n]-th value completes the
    subscriber a second time. *)
Theorem take_caps_values_only (n : Z) (sync : list Signal) (deferred : list (list Signal))
    (tag timers k : nat) :
  Z.of_nat (length (nexts sync)) < n ->
  exists st,
    run_script (7 + k) (Take n) sync deferred tag timers init = Ok tt st /\
    trace st = List.map (pair tag)
                 (snd (reacts (take_react n) 0 (script sync (firstn timers deferred)))) /\
    nexts (List.map snd (trace st))
    = firstn (Z.to_nat n) (nexts (script sync (firstn timers deferred))) /\
    errors (List.map snd (trace st)) = errors (script sync (firstn timers deferred)) /\
    completions (List.map snd (trace st))
    = (completions (script sync (firstn timers deferred))
       + if (n <=? Z.of_nat (length (nexts (script sync (firstn timers deferred)))))%Z
         then 1 else 0)%nat.
Proof.
  intros Hsync.
  pose proof (take_sync_safe n tag k sync 0 [] ltac:(lia)) as Hs.
  change (7 + k)%nat with (S (S (5 + k))).
  rewrite (run_script_take (5 + k) n sync deferred tag timers _ _ Hs).
  rewrite (run_batches (take_observer 0%nat n tag) tag Z
             (fun i => [CTake i (Some (mkSubscription NoTeardown))])
             (take_react n) 5 (take_react_ok n tag) (2 + k) timers deferred
             (0 + Z.of_nat (length (nexts sync)))) by reflexivity.
  eexists. split; [reflexivity|].
  cbn [trace set_timeouts set_trace set_heap app].
  assert (Ht : List.map (pair tag) sync
               ++ List.map (pair tag)
                    (snd (reacts (take_react n) (0 + Z.of_nat (length (nexts sync)))
                            (concat (firstn timers deferred))))
               = List.map (pair tag)
                   (snd (reacts (take_react n) 0 (script sync (firstn timers deferred))))).
  { unfold script. rewrite reacts_app, (take_reacts_safe n sync 0) by lia. cbn [fst snd].
    now rewrite map_app. }
  rewrite Ht. split; [reflexivity|].
  rewrite map_map. cbn [snd]. rewrite map_id.
  rewrite take_reacts_values, take_reacts_errors, take_reacts_completions, Z.sub_0_r.
  split; [reflexivity|]. split; [reflexivity|].
  replace (0 <=? n - 1) with true by (symmetry; apply Z.leb_le; lia).
  reflexivity.
Qed.

(** X7 at [take(1)] over a source whose timer delivers 1, 2 and a
    completion: the subscriber gets 1 and is completed twice. *)
Lemma take_caps_values_only_witness :
  exists st,
    run_script 7 (Take 1) [] [[Next (VNum 1); Next (VNum 2); Complete]] 0 1 init
    = Ok tt st /\
    trace st = [(0%nat, Next (VNum 1)); (0%nat, Complete); (0%nat, Complete)].
Proof.
  destruct (take_caps_values_only 1 [] [[Next (VNum 1); Next (VNum 2); Complete]]
              0 1 0 ltac:(cbn; lia)) as (st & Hrun & Htrace & _).
  exists st. split; [exact Hrun | exact Htrace].
Defined.

(** ** Observers with absent callbacks *)

Lemma partial_react_ok tag next error complete j (h : list Cell) s st :
  heap st = h ->
  deliver (2 + j) (partial_user tag next error complete) s st
  = Ok tt (set_trace (trace st ++ List.map (pair tag)
                        (snd (partial_react next error complete h s)))
             (set_heap h st)).
Proof.
  intros <-. destruct s, st, next, error, complete; cbn; unfold ret;
    rewrite ?app_nil_r; reflexivity.
Qed.

Lemma partial_reacts {T} next error complete : forall l (t : T),
  reacts (partial_react next error complete) t l
  = (t, List.filter (accepts next error complete) l).
Proof.
  induction l as [|s l IH]; intros t; [reflexivity|].
  cbn [reacts partial_react List.filter]. rewrite IH.
  now destruct (accepts next error complete s).
Qed.

(** X8: a callback that was not given is skipped, and nothing else
    changes.  Subscribe to a scripted source with any choice of the three
    callbacks, in any state with no timer pending, and let some of the
    source's timers run: the callbacks given have received, in delivery
    order, exactly the signals of their kind; signals for an absent
    callback raise nothing and leave no mark. *)
Theorem absent_callbacks_skip (sync : list Signal) (deferred : list (list Signal))
    (tag : nat) (next error complete : bool) (timers k : nat) (st : State) :
  timeouts st = [] ->
  run_partial (3 + k) sync deferred tag next error complete timers st
  = Ok tt (set_timeouts
             (List.map (CustomTask (partial_user tag next error complete))
                       (skipn timers deferred))
             (set_trace
                (trace st ++ List.map (pair tag)
                               (List.filter (accepts next error complete)
                                            (script sync (firstn timers deferred))))
                st)).
Proof.
  intros Hq.
  destruct (scripted_run (partial_user tag next error complete) tag (list Cell)
              (fun h => h) (partial_react next error complete) 2
              (partial_react_ok tag next error complete)
              k (1 + k) sync deferred timers (heap st) st eq_refl Hq)
    as (st' & Hsub & Hrun).
  unfold run_partial, bind.
  change (3 + k)%nat with (S (2 + k)) at 1. rewrite Hsub.
  change (3 + k)%nat with (2 + (1 + k))%nat. rewrite Hrun.
  rewrite partial_reacts. cbn [fst snd]. destruct st; reflexivity.
Qed.

(** X8 for a subscriber with a value callback only, on a source that
    delivers 1 and an error at once and 2 and a completion from a timer. *)
Lemma absent_callbacks_skip_witness :
  run_partial 3 [Next (VNum 1); Error "e"] [[Next (VNum 2); Complete]] 0
              true false false 1 init
  = Ok tt (set_trace [(0%nat, Next (VNum 1)); (0%nat, Next (VNum 2))] init).
Proof.
  exact (absent_callbacks_skip [Next (VNum 1); Error "e"] [[Next (VNum 2); Complete]] 0
           true false false 1 0 init eq_refl).
Defined.

(** ** The first pipeline of [src/index.ts] *)





(** ** range, then take *)

Lemma firstn_ascending : forall m first count,
  firstn m (ascending first count) = ascending first (Nat.min m count).
Proof.
  induction m as [|m IH]; intros first count.
  - now rewrite firstn_O.
  - destruct count as [|count]; [reflexivity|].
    cbn [ascending Nat.min]. rewrite firstn_cons, IH. reflexivity.
Qed.

(** X10: [range(min, max).take(n)], for all integers [min] and [max]
    with [-2^53 <= min], [max <= 2^53 - 1] and [max - min + 1] at most
    2^32 - 1, and every integer [n]:
    the call of [range] returns, and the subscriber receives [min],
    [min + 1], ... and stops after [n] values or at [max], whichever
    comes first (no value when [n <= 0] or [max < min]), then is
    completed once; no timer is left. *)
Theorem take_range_delivers (min max n : Z) (tag j k : nat) :
  - MAX_SAFE_INTEGER - 1 <= min ->
  max <= MAX_SAFE_INTEGER ->
  max - min + 1 <= MAX_ARRAY_LENGTH ->
  exists st,
    run_take_range (S (Z.to_nat (max - min + 1)) + j) (6 + k) min max n tag init
    = Ok tt st /\
    trace st
    = List.map (fun z => (tag, Next (VNum z)))
               (ascending min (Nat.min (Z.to_nat n) (Z.to_nat (max - min + 1))))
      ++ [(tag, Complete)] /\
    quiescent st.
Proof.
  intros Hmin Hmax Hcount.
  unfold run_take_range, range. unfold bind at 1. unfold bind at 1.
  rewrite (range_loop_ascending (Z.to_nat (max - min + 1)) j min max [] init)
    by (unfold MAX_ARRAY_LENGTH in *; cbn [length]; lia).
  cbn [ret]. rewrite app_nil_l.
  destruct (take_from_task n tag k
              (List.map VNum (ascending min (Z.to_nat (max - min + 1)))) 0 [])
    as (i' & d & H).
  eexists. split; [exact H|]. cbn [st_take trace app].
  rewrite Z.sub_0_r, firstn_map, firstn_ascending, map_map.
  split; [reflexivity | repeat split].
Qed.

(** X10 at [range(4, 8).take(2)]. *)
Lemma take_range_delivers_witness :
  exists st,
    run_take_range 6 6 4 8 2 0 init = Ok tt st /\
    trace st = [(0%nat, Next (VNum 4)); (0%nat, Next (VNum 5)); (0%nat, Complete)].
Proof.
  assert (H4 : - MAX_SAFE_INTEGER - 1 <= 4) by (unfold MAX_SAFE_INTEGER; lia).
  assert (H8 : 8 <= MAX_SAFE_INTEGER) by (unfold MAX_SAFE_INTEGER; lia).
  assert (Hc : 8 - 4 + 1 <= MAX_ARRAY_LENGTH) by (unfold MAX_ARRAY_LENGTH; lia).
  destruct (take_range_delivers 4 8 2 0 0 0 H4 H8 Hc) as (st & Hrun & Htrace & _).
  exists st. split; [exact Hrun | exact Htrace].
Defined.

(** ** merge and mergeMap over [from] sources *)

Ltac exec_len :=
  lazy -[Z.ltb Z.eqb Z.add Z.sub Z.of_nat Z.to_nat app firstn skipn List.map concat length].

Lemma merge_react_ok tag j subs rest (c : Z) s st :
  heap st = CMerge subs c :: rest ->
  deliver (5 + j) (merge_observer 0%nat (user tag)) s st
  = Ok tt (set_trace (trace st ++ List.map (pair tag) (snd (merge_react (length subs) c s)))
             (set_heap (CMerge subs (fst (merge_react (length subs) c s)) :: rest) st)).
Proof.
  intros H. destruct st as [h q iv ls su tr ho]. cbn in H. subst h.
  destruct s as [v|m|].
  - reflexivity.
  - reflexivity.
  - cbn [merge_react fst snd].
    destruct (c + 1 =? Z.of_nat (length subs)) eqn:E;
      exec_len; rewrite E; exec_len; rewrite ?app_nil_r; reflexivity.
Qed.

Lemma mergeMap_react_ok tag j subs rest (c : Z) s st :
  heap st = CMergeMap subs c :: rest ->
  deliver (5 + j) (mergeMap_observer 0%nat (user tag)) s st
  = Ok tt (set_trace (trace st ++ List.map (pair tag) (snd (merge_react (length subs) c s)))
             (set_heap (CMergeMap subs (fst (merge_react (length subs) c s)) :: rest) st)).
Proof.
  intros H. destruct st as [h q iv ls su tr ho]. cbn in H. subst h.
  destruct s as [v|m|].
  - reflexivity.
  - reflexivity.
  - cbn [merge_react fst snd].
    destruct (c + 1 =? Z.of_nat (length subs)) eqn:E;
      exec_len; rewrite E; exec_len; rewrite ?app_nil_r; reflexivity.
Qed.

(** The timers of [from] sources subscribed with one observer that acts
    as a transition function. *)
Section FromSources.

Variables (obs : Observer) (tag : nat).
Variable T : Type.
Variable heap_of : T -> list Cell.
Variable react : T -> Signal -> T * list Signal.
Variable depth : nat.

Hypothesis react_ok : forall j t s st,
  heap st = heap_of t ->
  deliver (depth + j) obs s st
  = Ok tt (set_trace (trace st ++ List.map (pair tag) (snd (react t s)))
             (set_heap (heap_of (fst (react t s))) st)).

Lemma run_from_tasks j : forall timers pending fr t st,
  heap st = heap_of t ->
  timeouts st = from_tasks (wrap obs) fr pending ->
  (forall t' i, (i < length pending)%nat ->
                heap_of t' !! (fr + i)%nat = Some (CProducer false)) ->
  run_timeouts (S (depth + j)) timers st
  = Ok tt (set_timeouts
             (from_tasks (wrap obs) (fr + Nat.min timers (length pending))%nat
                         (skipn timers pending))
             (set_trace
                (trace st ++ List.map (pair tag)
                               (snd (reacts react t (from_signals (firstn timers pending)))))
                (set_heap
                   (heap_of (fst (reacts react t (from_signals (firstn timers pending)))))
                   st))).
Proof.
  induction timers as [|timers IH]; intros pending fr t st H Hq Hfr.
  - rewrite firstn_O, skipn_O. cbn [run_timeouts from_signals List.map concat reacts fst snd].
    unfold ret. rewrite Nat.min_0_l, Nat.add_0_r, app_nil_r, <- H, <- Hq.
    destruct st; reflexivity.
  - destruct pending as [|values pending].
    + rewrite firstn_nil, skipn_nil.
      cbn [run_timeouts]. unfold bind at 1. unfold run_timeout. rewrite Hq.
      cbn [from_tasks]. rewrite (IH [] fr t st H Hq Hfr).
      rewrite firstn_nil, skipn_nil. cbn [length]. rewrite !Nat.min_0_r. reflexivity.
    + rewrite firstn_cons, skipn_cons.
      cbn [run_timeouts]. unfold bind at 1. unfold run_timeout. rewrite Hq.
      cbn [from_tasks].
      rewrite (from_task_reacts obs tag T heap_of react depth react_ok j fr values t
                 (set_timeouts (from_tasks (wrap obs) (S fr) pending) st) H).
      2:{ intros t'. rewrite <- (Nat.add_0_r fr). apply Hfr. cbn. lia. }
      rewrite (IH pending (S fr) (fst (reacts react t (List.map Next values ++ [Complete])))).
      * cbn [from_signals List.map concat]. fold (from_signals (firstn timers pending)).
        rewrite reacts_app with (l1 := List.map Next values ++ [Complete]).
        set (R := reacts react t (List.map Next values ++ [Complete])).
        cbn [fst snd length].
        replace (fr + Nat.min (S timers) (S (length pending)))%nat
          with (S fr + Nat.min timers (length pending))%nat by lia.
        destruct st as [h q iv ls su tr ho].
        cbn [set_timeouts set_trace set_heap trace heap timeouts].
        rewrite List.map_app, List.app_assoc. reflexivity.
      * reflexivity.
      * reflexivity.
      * intros t' i Hi. replace (S fr + i)%nat with (fr + S i)%nat by lia.
        apply Hfr. cbn. lia.
Qed.

End FromSources.

Lemma merge_reacts registered : forall sources c,
  0 <= c ->
  c + Z.of_nat (length sources) <= Z.of_nat registered ->
  reacts (merge_react registered) c (from_signals sources)
  = (c + Z.of_nat (length sources),
     List.map Next (concat sources)
     ++ if (1 <=? Z.of_nat (length sources))
           && (c + Z.of_nat (length sources) =? Z.of_nat registered)
        then [Complete] else []).
Proof.
  induction sources as [|values sources IH]; intros c H0 H.
  - cbn. now rewrite Z.add_0_r.
  - unfold from_signals. cbn [List.map concat]. fold (from_signals sources).
    rewrite <- app_assoc, reacts_app.
    assert (Hv : forall (t : Z), reacts (merge_react registered) t (List.map Next values)
                 = (t, List.map Next values)).
    { clear. induction values as [|v values IHv]; intros t; [reflexivity|].
      cbn [List.map reacts merge_react]. now rewrite IHv. }
    rewrite Hv. cbn [fst snd app reacts merge_react].
    cbn [length] in H. rewrite IH by lia.
    cbn [length concat]. rewrite map_app, <- app_assoc.
    replace (1 <=? Z.of_nat (S (length sources))) with true
      by (symmetry; apply Z.leb_le; lia).
    cbn [fst snd andb]. f_equal; [lia|]. f_equal.
    destruct (Z.eqb_spec (c + 1) (Z.of_nat registered)) as [E|E].
    + destruct sources as [|s0 sources]; [|cbn [length] in H; lia].
      cbn [length concat List.map app]. change (Z.of_nat 1) with 1.
      replace (c + 1 =? Z.of_nat registered) with true
        by (symmetry; apply Z.eqb_eq; lia).
      reflexivity.
    + cbn [app].
      replace (c + 1 + Z.of_nat (length sources) =? Z.of_nat registered)
        with (c + Z.of_nat (S (length sources)) =? Z.of_nat registered)
        by (f_equal; lia).
      destruct (Z.leb_spec 1 (Z.of_nat (length sources))); cbn [andb]; [reflexivity|].
      destruct (Z.eqb_spec (c + Z.of_nat (S (length sources))) (Z.of_nat registered));
        [|reflexivity].
      destruct sources; [|cbn [length] in *; lia]. cbn in *. lia.
Qed.

Lemma length_from_tasks observer : forall sources fr,
  length (from_tasks observer fr sources) = length sources.
Proof. induction sources; intros; cbn; auto. Qed.

Lemma from_subscriptions_snoc : forall count fr,
  from_subscriptions fr count ++ [mkSubscription (FlagDispose (fr + count)%nat)]
  = from_subscriptions fr (S count).
Proof.
  induction count as [|count IH]; intros fr.
  - cbn. now rewrite Nat.add_0_r.
  - cbn [from_subscriptions app]. f_equal.
    replace (fr + S count)%nat with (S fr + count)%nat by lia.
    now rewrite IH.
Qed.

Lemma length_from_subscriptions : forall count fr,
  length (from_subscriptions fr count) = count.
Proof. induction count; intros; cbn; auto. Qed.

Lemma from_tasks_snoc observer : forall sources fr values,
  from_tasks observer fr sources ++ [FromTask (fr + length sources)%nat observer values]
  = from_tasks observer fr (sources ++ [values]).
Proof.
  induction sources as [|s sources IH]; intros fr values.
  - cbn. now rewrite Nat.add_0_r.
  - cbn [from_tasks app length]. f_equal.
    replace (fr + S (length sources))%nat with (S fr + length sources)%nat by lia.
    now rewrite IH.
Qed.

(** The loop of [merge] over [from] sources (lines 421-434): one frame,
    one timer and one subscription per source. *)
Lemma merge_subscribe_loop F tag : forall sources done c st,
  heap st = CMerge (from_subscriptions 1%nat (length done)) c
            :: replicate (length done) (CProducer false) ->
  timeouts st = from_tasks (wrap (merge_observer 0%nat (user tag))) 1%nat done ->
  forEach (fun source =>
             let* s := _subscribe (S F) source (merge_observer 0%nat (user tag)) in
             push_subscription 0%nat s)
          (List.map From sources) st
  = Ok tt (set_timeouts
             (from_tasks (wrap (merge_observer 0%nat (user tag))) 1%nat (done ++ sources))
             (set_heap
                (CMerge (from_subscriptions 1%nat (length (done ++ sources))) c
                 :: replicate (length (done ++ sources)) (CProducer false))
                st)).
Proof.
  induction sources as [|values sources IH]; intros done c st H Hq.
  - cbn [List.map forEach]. unfold ret. rewrite app_nil_r, <- H, <- Hq.
    destruct st; reflexivity.
  - cbn [List.map forEach]. unfold bind at 1.
    destruct st as [h q iv ls su tr ho]. cbn in H, Hq. subst h q.
    cbn [_subscribe]. unfold bind, alloc, setTimeout, push_subscription, bind, get_cell,
      set_cell, ret.
    cbn [heap set_heap set_timeouts timeouts length].
    rewrite length_replicate.
    change (CMerge ?a ?b :: ?l ++ ?r) with ((CMerge a b :: l) ++ r).
    cbn [app lookup list_lookup].
    rewrite (IH (done ++ [values]) c).
    + rewrite <- !app_assoc. reflexivity.
    + cbn [heap set_heap set_timeouts]. rewrite length_app. cbn [length].
      rewrite Nat.add_1_r. cbn [insert list_insert].
      rewrite <- (from_subscriptions_snoc (length done) 1%nat).
      replace (1 + length done)%nat with (S (length done)) by lia.
      f_equal. cbn [replicate].
      clear. induction (length done); [reflexivity|]. cbn. now f_equal.
    + cbn [timeouts set_heap set_timeouts].
      rewrite <- from_tasks_snoc. reflexivity.
Qed.

Lemma merge_subscribe_unfold F tag sources st :
  subscribe_user (S F) (merge_from sources) tag st
  = (let* fr := alloc (CMerge [] 0) in
     forEach (fun source =>
                let* s := _subscribe F source (merge_observer fr (user tag)) in
                push_subscription fr s)
             (List.map From sources) >>
     ret (mkSubscription (DisposeAll fr))) st.
Proof. reflexivity. Qed.

Lemma merge_subscribe F tag sources :
  subscribe_user (S (S F)) (merge_from sources) tag init
  = Ok (mkSubscription (DisposeAll 0%nat))
       (mkState (CMerge (from_subscriptions 1%nat (length sources)) 0
                 :: replicate (length sources) (CProducer false))
                (from_tasks (wrap (merge_observer 0%nat (user tag))) 1%nat sources)
                [] [] 0%nat [] []).
Proof.
  rewrite merge_subscribe_unfold.
  unfold bind at 1. cbn [alloc init heap length app set_heap].
  unfold bind at 1.
  rewrite (merge_subscribe_loop F tag sources [] 0) by reflexivity.
  reflexivity.
Qed.

(** X11: [merge] over asynchronous sources.  For any number of arrays,
    a subscriber to [merge(from(a), from(b), ...)] has received, once
    [timers] timers ran, the values of the first [timers] arrays, array
    by array, and a single completion after the values of the last array
    -- none before all sources have completed, and none at all for
    [merge()] without sources.  When every timer has run no timer is
    left. *)
Theorem merge_from_delivers (sources : list (list value)) (tag timers k : nat) :
  exists st,
    run_merge_from (6 + k) sources tag timers init = Ok tt st /\
    trace st
    = List.map (fun v => (tag, Next v)) (concat (firstn timers sources))
      ++ (if ((1 <=? length sources) && (length sources <=? timers))%nat
          then [(tag, Complete)] else []) /\
    length (timeouts st) = (length sources - timers)%nat /\
    intervals st = [] /\ listeners st = [].
Proof.
  unfold run_merge_from, bind.
  change (6 + k)%nat with (S (S (4 + k))) at 1. rewrite merge_subscribe.
  change (6 + k)%nat with (S (5 + k)).
  rewrite (run_from_tasks (merge_observer 0%nat (user tag)) tag Z
             (fun c => CMerge (from_subscriptions 1%nat (length sources)) c
                       :: replicate (length sources) (CProducer false))
             (merge_react (length (from_subscriptions 1%nat (length sources)))) 5
             (fun j c s st =>
                merge_react_ok tag j (from_subscriptions 1%nat (length sources))
                  (replicate (length sources) (CProducer false)) c s st)
             k timers sources 1%nat 0).
  2: reflexivity.
  2: reflexivity.
  2:{ intros c i Hi. cbn [lookup list_lookup Nat.add]. now apply lookup_replicate_2. }
  rewrite length_from_subscriptions.
  rewrite merge_reacts by (try rewrite length_firstn; lia).
  eexists. split; [reflexivity|].
  cbn [trace timeouts set_timeouts set_trace set_heap fst snd app].
  split.
  - rewrite List.map_app, map_map. f_equal.
    rewrite length_firstn.
    destruct (Nat.leb_spec 1 (length sources)), (Nat.leb_spec (length sources) timers),
      (Z.leb_spec 1 (Z.of_nat (Nat.min timers (length sources)))),
      (Z.eqb_spec (0 + Z.of_nat (Nat.min timers (length sources)))
                  (Z.of_nat (length sources)));
      cbn [andb List.map]; try reflexivity; lia.
  - rewrite length_from_tasks, length_skipn. repeat split.
Qed.

Lemma dispose_from_subscriptions F : forall count done st c,
  heap st = c :: replicate done (CProducer true) ++ replicate count (CProducer false) ->
  forEach (dispose (S (S F))) (from_subscriptions (S done) count) st
  = Ok tt (set_heap (c :: replicate (done + count) (CProducer true)) st).
Proof.
  induction count as [|count IH]; intros done st c H.
  - cbn [from_subscriptions forEach]. unfold ret.
    rewrite Nat.add_0_r. rewrite app_nil_r in H. rewrite <- H. destruct st; reflexivity.
  - cbn [from_subscriptions forEach]. unfold bind at 1.
    assert (Hl : heap st !! S done = Some (CProducer false)).
    { rewrite H.
      change ((replicate done (CProducer true) ++ replicate (S count) (CProducer false))
                !! done = Some (CProducer false)).
      rewrite lookup_app_r by (rewrite length_replicate; lia).
      rewrite length_replicate, Nat.sub_diag. reflexivity. }
    cbn [dispose]. unfold bind at 1. unfold get_isdisposed, bind.
    rewrite (get_cell_spec _ _ _ Hl). cbn [ret negb when].
    unfold set_isdisposed, bind. rewrite (get_cell_spec _ _ _ Hl).
    unfold set_cell.
    rewrite (IH (S done) _ c).
    + rewrite Nat.add_succ_r. destruct st; reflexivity.
    + destruct st as [h q iv ls su tr ho]. cbn [heap set_heap] in *. subst h.
      change (<[S done := CProducer true]> (c :: ?l))
        with (c :: <[done := CProducer true]> l). f_equal.
      rewrite insert_app_r_alt by (rewrite length_replicate; lia).
      rewrite length_replicate, Nat.sub_diag.
      change (<[0%nat := CProducer true]> (replicate (S count) (CProducer false)))
        with (CProducer true :: replicate count (CProducer false)).
      change (CProducer true :: replicate count (CProducer false))
        with ([CProducer true] ++ replicate count (CProducer false)).
      rewrite app_assoc. f_equal.
      clear. induction done; [reflexivity|]. cbn. now f_equal.
Qed.

Lemma run_from_tasks_disposed F observer : forall timers pending fr st,
  timeouts st = from_tasks observer fr pending ->
  (forall i, (i < length pending)%nat -> heap st !! (fr + i)%nat = Some (CProducer true)) ->
  run_timeouts F timers st
  = Ok tt (set_timeouts (from_tasks observer (fr + Nat.min timers (length pending))%nat
                                    (skipn timers pending)) st).
Proof.
  induction timers as [|timers IH]; intros pending fr st Hq Hfr.
  - rewrite skipn_O, Nat.min_0_l, Nat.add_0_r, <- Hq. destruct st; reflexivity.
  - cbn [run_timeouts]. unfold bind at 1. unfold run_timeout. rewrite Hq.
    destruct pending as [|values pending].
    + cbn [from_tasks]. rewrite (IH [] fr st Hq Hfr).
      rewrite !skipn_nil. cbn [length]. rewrite !Nat.min_0_r. reflexivity.
    + cbn [from_tasks]. rewrite skipn_cons.
      assert (H0 : heap st !! fr = Some (CProducer true)).
      { rewrite <- (Nat.add_0_r fr). apply Hfr. cbn. lia. }
      unfold run_task. unfold bind at 1.
      rewrite from_loop_disposed by exact H0.
      rewrite guarded_disposed by exact H0.
      rewrite (IH pending (S fr)).
      * cbn [length]. replace (fr + Nat.min (S timers) (S (length pending)))%nat
          with (S fr + Nat.min timers (length pending))%nat by lia.
        destruct st; reflexivity.
      * reflexivity.
      * intros i Hi. replace (S fr + i)%nat with (fr + S i)%nat by lia.
        apply Hfr. cbn. lia.
Qed.

(** X12: disposing the subscription of [merge] disposes every source
    (lines 436-440).  Subscribe to [merge(from(a), from(b), ...)] and
    dispose at once: whatever timers run afterwards, the subscriber
    receives nothing, not even a completion, and every source is
    flagged as disposed. *)
Theorem merge_dispose_silences (sources : list (list value)) (tag timers k : nat) :
  exists st,
    dispose_merge_from (3 + k) sources tag timers init = Ok tt st /\
    trace st = [] /\
    heap st = CMerge (from_subscriptions 1%nat (length sources)) 0
              :: replicate (length sources) (CProducer true).
Proof.
  unfold dispose_merge_from. unfold bind at 1.
  change (3 + k)%nat with (S (S (1 + k))) at 1. rewrite merge_subscribe.
  unfold bind. change (3 + k)%nat with (S (S (S k))) at 1.
  cbn [dispose]. unfold bind at 1. unfold get_subscriptions, bind, get_cell.
  cbn [heap lookup list_lookup ret].
  rewrite (dispose_from_subscriptions k (length sources) 0 _
             (CMerge (from_subscriptions 1%nat (length sources)) 0)) by reflexivity.
  erewrite run_from_tasks_disposed.
  - eexists. split; [reflexivity|]. split; reflexivity.
  - reflexivity.
  - intros i Hi. cbn [heap set_heap lookup list_lookup Nat.add].
    now apply lookup_replicate_2.
Qed.

(** ** mergeMap over [from] sources *)

Lemma mergeMap_subscribe F inner values tag :
  subscribe_user (S (S F)) (mergeMap_from inner values) tag init
  = Ok (mkSubscription (DisposeAll 0%nat))
       (mkState [CMergeMap [mkSubscription (FlagDispose 1%nat)] 0; CProducer false]
                [FromTask 1%nat
                   (wrap (mergeMap_outer_observer 0%nat (fun v => From (inner v))
                            (user tag)))
                   values]
                [] [] 0%nat [] []).
Proof. reflexivity. Qed.

Lemma mergeMap_outer_next F inner tag v st :
  call_next (S (S (S F)))
    (ObserverNext (wrap (mergeMap_outer_observer 0%nat (fun v => From (inner v))
                           (user tag)))) v st
  = (let* s := _subscribe F (From (inner v)) (mergeMap_observer 0%nat (user tag)) in
     push_subscription 0%nat s) st.
Proof. reflexivity. Qed.

Lemma mergeMap_outer_complete j tag mergeMap subs rest (c : Z) st :
  heap st = CMergeMap subs c :: rest ->
  call_complete (6 + j)
    (ObserverComplete (wrap (mergeMap_outer_observer 0%nat mergeMap (user tag)))) st
  = Ok tt (set_trace (trace st ++ List.map (pair tag)
                                   (snd (merge_react (length subs) c Complete)))
             (set_heap (CMergeMap subs (c + 1) :: rest) st)).
Proof.
  intros H. destruct st as [h q iv ls su tr ho]. cbn in H. subst h.
  cbn [merge_react fst snd].
  destruct (c + 1 =? Z.of_nat (length subs)) eqn:E;
    exec_len; rewrite E; exec_len; rewrite ?app_nil_r; reflexivity.
Qed.

(** The loop of the outer [from] (lines 345-347) into the handler of
    [mergeMap] (lines 219-227): one inner subscription per value. *)
Lemma mergeMap_outer_loop F inner tag : forall values done c st,
  heap st = CMergeMap (from_subscriptions 1%nat (S (length done))) c
            :: replicate (S (length done)) (CProducer false) ->
  timeouts st = from_tasks (wrap (mergeMap_observer 0%nat (user tag))) 2%nat
                           (List.map inner done) ->
  forEach (fun value =>
             let* isdisposed := get_isdisposed 1%nat in
             when (negb isdisposed)
               (call_next (S (S (S (S F))))
                  (ObserverNext (wrap (mergeMap_outer_observer 0%nat
                                         (fun v => From (inner v)) (user tag))))
                  value))
          values st
  = Ok tt (set_timeouts
             (from_tasks (wrap (mergeMap_observer 0%nat (user tag))) 2%nat
                         (List.map inner (done ++ values)))
             (set_heap
                (CMergeMap (from_subscriptions 1%nat (S (length (done ++ values)))) c
                 :: replicate (S (length (done ++ values))) (CProducer false))
                st)).
Proof.
  induction values as [|v values IH]; intros done c st H Hq.
  - cbn [forEach]. unfold ret. rewrite app_nil_r, <- H, <- Hq.
    destruct st; reflexivity.
  - cbn [forEach]. unfold bind at 1.
    rewrite guarded_live by (rewrite H; reflexivity).
    rewrite mergeMap_outer_next.
    destruct st as [h q iv ls su tr ho]. cbn in H, Hq. subst h q.
    cbn [_subscribe]. unfold bind, alloc, setTimeout, push_subscription, bind, get_cell,
      set_cell, ret.
    cbn [heap set_heap set_timeouts timeouts length].
    rewrite length_replicate.
    change (CMergeMap ?a ?b :: ?l ++ ?r) with ((CMergeMap a b :: l) ++ r).
    cbn [app lookup list_lookup].
    rewrite (IH (done ++ [v]) c).
    + rewrite <- !app_assoc. reflexivity.
    + cbn [heap set_heap set_timeouts]. rewrite length_app. cbn [length].
      rewrite Nat.add_1_r.
      change (<[0%nat := ?x]> (?y :: ?l)) with (x :: l).
      rewrite <- (from_subscriptions_snoc (S (length done)) 1%nat).
      replace (1 + S (length done))%nat with (S (S (length done))) by lia.
      f_equal. 
      change (replicate (S (S (length done))) (CProducer false))
        with (CProducer false :: replicate (S (length done)) (CProducer false)).
      change (replicate (S (length done)) (CProducer false))
        with (CProducer false :: replicate (length done) (CProducer false)).
      cbn [app]. do 2 f_equal.
      clear. induction (length done); [reflexivity|]. cbn. now f_equal.
    + cbn [timeouts set_heap set_timeouts].
      rewrite List.map_app. cbn [List.map].
      rewrite <- from_tasks_snoc, length_map. reflexivity.
Qed.

(** X13: [mergeMap] over asynchronous inner Observables.  A subscriber to
    [from(values).mergeMap(v => from(inner(v)))] has received, once the
    timer of the outer [from] and [timers] of the inner timers ran, the
    values of the first [timers] inner arrays, in the order of [values],
    and one completion once all inner timers have run (at once when
    [values] is empty); then no timer is left. *)
Theorem mergeMap_from_delivers (inner : value -> list value) (values : list value)
    (tag timers k : nat) :
  exists st,
    run_mergeMap_from (6 + k) inner values tag timers init = Ok tt st /\
    trace st
    = List.map (fun v => (tag, Next v)) (flat_map inner (firstn timers values))
      ++ (if (length values <=? timers)%nat then [(tag, Complete)] else []) /\
    length (timeouts st) = (length values - timers)%nat /\
    intervals st = [] /\ listeners st = [].
Proof.
  unfold run_mergeMap_from. unfold bind at 1. unfold bind at 1.
  change (6 + k)%nat with (S (S (4 + k))) at 1. rewrite mergeMap_subscribe.
  unfold run_timeout at 1. cbn [timeouts run_task]. unfold bind at 1.
  change (6 + k)%nat with (S (S (S (S (2 + k))))) at 1.
  rewrite (mergeMap_outer_loop (2 + k) inner tag values [] 0) by reflexivity.
  cbn [app List.map length from_tasks].
  rewrite guarded_live by reflexivity.
  change (S (S (S (S (2 + k))))) with (6 + k)%nat.
  rewrite (mergeMap_outer_complete k tag _
             (from_subscriptions 1%nat (S (length values)))
             (replicate (S (length values)) (CProducer false)) 0) by reflexivity.
  change (6 + k)%nat with (S (5 + k)).
  rewrite (run_from_tasks (mergeMap_observer 0%nat (user tag)) tag Z
             (fun c => CMergeMap (from_subscriptions 1%nat (S (length values))) c
                       :: replicate (S (length values)) (CProducer false))
             (merge_react (length (from_subscriptions 1%nat (S (length values))))) 5
             (fun j c s st =>
                mergeMap_react_ok tag j (from_subscriptions 1%nat (S (length values)))
                  (replicate (S (length values)) (CProducer false)) c s st)
             k timers (List.map inner values) 2%nat (0 + 1)).
  2: reflexivity.
  2: reflexivity.
  2:{ intros c i Hi. rewrite length_map in Hi.
      change (replicate (length values) (CProducer false) !! i = Some (CProducer false)).
      now apply lookup_replicate_2. }
  rewrite length_from_subscriptions.
  rewrite merge_reacts by (try rewrite length_firstn, length_map; lia).
  eexists. split; [reflexivity|].
  cbn [trace timeouts set_timeouts set_trace set_heap fst snd app merge_react].
  split.
  - rewrite length_firstn, length_map, firstn_map, flat_map_concat_map.
    rewrite List.map_app, map_map, app_assoc.
    destruct values as [|v values].
    + rewrite firstn_nil. cbn [length]. rewrite Nat.min_0_r. reflexivity.
    + cbn [length].
      replace (0 + 1 =? Z.of_nat (S (S (length values)))) with false
        by (symmetry; apply Z.eqb_neq; lia).
      cbn [List.map app]. f_equal.
      destruct (Nat.leb_spec (S (length values)) timers),
        (Z.leb_spec 1 (Z.of_nat (Nat.min timers (S (length values))))),
        (Z.eqb_spec (0 + 1 + Z.of_nat (Nat.min timers (S (length values))))
                    (Z.of_nat (S (S (length values)))));
        cbn [andb List.map]; try reflexivity; lia.
  - rewrite length_from_tasks, length_skipn, length_map. repeat split.
Qed.

(** ** Disposal through a chain of operators *)

Lemma dispose_upstream : forall n F s st,
  dispose (n + F) (upstream n s) st = dispose F s st.
Proof.
  induction n as [|n IH]; intros F s st; [reflexivity|].
  cbn [Nat.add upstream Nat.iter dispose]. apply IH.
Qed.

Lemma lookup_app_Some {A} (l l' : list A) i x :
  l !! i = Some x -> (l ++ l') !! i = Some x.
Proof. intros H. now apply lookup_app_l_Some. Qed.

Lemma creation_subscribe source k obs st :
  async_creation source = true ->
  exists st1,
    _subscribe (2 + k) source obs st
    = Ok (mkSubscription (source_disposer source (length (heap st)) (supply st))) st1 /\
    heap st1 = heap st ++ [source_cell source (supply st)] /\
    timeouts st1 = timeouts st ++ source_timeouts source (length (heap st)) obs /\
    intervals st1
    = intervals st ++ source_intervals source (length (heap st)) (supply st) obs /\
    listeners st1
    = listeners st ++ source_listeners source (length (heap st)) (supply st) obs /\
    trace st1 = trace st /\ host st1 = host st.
Proof.
  intros Hs. change (2 + k)%nat with (S (S k)).
  destruct source; try discriminate Hs; cbn [_subscribe].
  - eexists. split; [reflexivity|]. cbn. rewrite !app_nil_r. repeat split.
  - eexists. split; [reflexivity|]. cbn. rewrite !app_nil_r. repeat split.
  - unfold bind, alloc, setInterval, bind, fresh_id, set_intervalHandler, bind.
    rewrite (get_cell_spec (length (heap st)) (CInterval None false 0))
      by (cbn; apply lookup_last).
    unfold set_cell, ret. cbn [heap set_heap set_intervals set_supply].
    rewrite insert_last.
    eexists. split; [reflexivity|]. cbn. rewrite !app_nil_r. repeat split.
  - eexists. split; [reflexivity|]. cbn. rewrite !app_nil_r. repeat split.
Qed.

Lemma pipe_subscribe source :
  async_creation source = true ->
  forall ops k obs st,
  exists fr obs' st1,
    _subscribe (length ops + (2 + k)) (pipe source ops) obs st
    = Ok (upstream (length ops)
            (mkSubscription (source_disposer source fr (supply st)))) st1 /\
    heap st1 !! fr = Some (source_cell source (supply st)) /\
    (forall i c, heap st !! i = Some c -> heap st1 !! i = Some c) /\
    timeouts st1 = timeouts st ++ source_timeouts source fr obs' /\
    intervals st1 = intervals st ++ source_intervals source fr (supply st) obs' /\
    listeners st1 = listeners st ++ source_listeners source fr (supply st) obs' /\
    trace st1 = trace st /\ host st1 = host st.
Proof.
  intros Hs ops. induction ops as [|op ops IH] using rev_ind; intros k obs st.
  - destruct (creation_subscribe source k obs st Hs)
      as (st1 & Hsub & Hh & Hq & Hi & Hl & Ht & Hho).
    exists (length (heap st)), obs, st1. cbn [length Nat.add pipe fold_left upstream Nat.iter].
    split; [exact Hsub|]. split; [rewrite Hh; apply lookup_last|].
    split; [intros i c Hic; rewrite Hh; now apply lookup_app_Some|].
    repeat split; assumption.
  - unfold pipe. rewrite fold_left_app, length_app. cbn [fold_left length].
    fold (pipe source ops).
    replace (length ops + 1 + (2 + k))%nat with (S (length ops + (2 + k))) by lia.
    replace (length ops + 1)%nat with (S (length ops)) by lia.
    cbn [upstream Nat.iter]. fold (upstream (length ops)).
    destruct op as [n|map|]; cbn [apply_operator _subscribe].
    + (* take *)
      unfold bind at 1. unfold alloc at 1.
      set (sta := set_heap (heap st ++ [CTake 0 None]) st).
      destruct (IH k (mkObserver (Some (TakeNext (length (heap st)) n (wrap obs)))
                                 (Some (ObserverError (wrap obs)))
                                 (Some (ObserverComplete (wrap obs)))) sta)
        as (fr & obs' & st1 & Hsub & Hfr & Hpres & Hq & Hi & Hl & Ht & Hho).
      unfold bind at 1. rewrite Hsub.
      assert (Hta : heap st1 !! length (heap st) = Some (CTake 0 None)).
      { apply Hpres. cbn. apply lookup_last. }
      unfold bind at 1. unfold init_subscription, bind.
      rewrite (get_cell_spec _ _ _ Hta). unfold set_cell. cbn [ret].
      assert (Hne : fr <> length (heap st)).
      { intros E. rewrite E in Hfr. pose proof (eq_trans (eq_sym Hfr) Hta) as X.
        destruct source; discriminate X. }
      eexists fr, obs', _. split; [reflexivity|].
      cbn [heap timeouts intervals listeners trace host set_heap].
      split; [rewrite list_lookup_insert_ne by congruence; exact Hfr|].
      split.
      { intros i c Hic. assert (i < length (heap st))%nat by (eapply lookup_lt_Some, Hic).
        rewrite list_lookup_insert_ne by lia.
        apply Hpres. cbn. now apply lookup_app_Some. }
      repeat split; assumption.
    + (* map *)
      destruct (IH k (mkObserver (Some (MapNext map (wrap obs)))
                                 (Some (ObserverError (wrap obs)))
                                 (Some (ObserverComplete (wrap obs)))) st)
        as (fr & obs' & st1 & Hsub & Hfr & Hpres & Hq & Hi & Hl & Ht & Hho).
      unfold bind at 1. rewrite Hsub.
      eexists fr, obs', st1. split; [reflexivity|]. repeat split; assumption.
    + (* join *)
      unfold bind at 1. unfold alloc at 1.
      set (sta := set_heap (heap st ++ [CJoin []]) st).
      destruct (IH k (mkObserver (Some (JoinNext (length (heap st))))
                                 (Some (ObserverError (wrap obs)))
                                 (Some (JoinComplete (length (heap st)) (wrap obs)))) sta)
        as (fr & obs' & st1 & Hsub & Hfr & Hpres & Hq & Hi & Hl & Ht & Hho).
      unfold bind at 1. rewrite Hsub.
      eexists fr, obs', st1. split; [reflexivity|].
      split; [exact Hfr|].
      split; [intros i c Hic; apply Hpres; cbn; now apply lookup_app_Some|].
      repeat split; assumption.
Qed.

Lemma run_timeouts_idle F st : forall timers,
  timeouts st = [] -> run_timeouts F timers st = Ok tt st.
Proof.
  intros timers H. induction timers as [|timers IH]; [reflexivity|].
  cbn [run_timeouts]. unfold bind at 1. unfold run_timeout. rewrite H. exact IH.
Qed.

Lemma fire_idle F st : forall handles,
  intervals st = [] -> forEach (tick F) handles st = Ok tt st.
Proof.
  intros handles H. induction handles as [|h handles IH]; [reflexivity|].
  cbn [forEach]. unfold bind at 1. unfold tick. rewrite H. cbn [List.find]. exact IH.
Qed.

Lemma run_timeouts_disposed F fr observer values st : forall timers,
  timeouts st = [FromTask fr observer values] ->
  heap st !! fr = Some (CProducer true) ->
  exists q, run_timeouts F timers st = Ok tt (set_timeouts q st).
Proof.
  intros [|timers] Hq Hfr.
  - exists (timeouts st). destruct st; reflexivity.
  - exists []. cbn [run_timeouts]. unfold bind at 1. unfold run_timeout. rewrite Hq.
    unfold run_task. unfold bind at 1.
    rewrite from_loop_disposed by exact Hfr.
    rewrite guarded_disposed by exact Hfr.
    now rewrite run_timeouts_idle by reflexivity.
Qed.

(** X14: disposal travels up a chain of operators.  Put any chain of
    [take(n)], [map(f)] and [join()] on [from(values)],
    [interval(period)] or [fromEvent(element, eventName)], subscribe and
    dispose: the timer of [interval] is cleared, the listener of
    [fromEvent] is removed, each once, and whatever timers run, interval
    handles fire or events are dispatched afterwards, the subscriber
    receives nothing. *)
Theorem pipe_dispose_silences (source : Observable) (ops : list Operator) (tag timers : nat)
    (handles : list nat) (events : list (nat * string * nat)) (k : nat) :
  silenced_by_dispose source = true ->
  exists st,
    dispose_pipe (length ops + (2 + k)) source ops tag timers handles events init
    = Ok tt st /\
    trace st = [] /\ intervals st = [] /\ listeners st = [] /\
    host st = released source.
Proof.
  intros Hs.
  assert (Ha : async_creation source = true) by (destruct source; try discriminate; reflexivity).
  destruct (pipe_subscribe source Ha ops k (user tag) init)
    as (fr & obs' & st1 & Hsub & Hfr & _ & Hq & Hi & Hl & Ht & Hho).
  unfold dispose_pipe, subscribe_user, subscribe. fold (user tag).
  unfold bind at 1. rewrite Hsub.
  unfold bind at 1. rewrite dispose_upstream.
  destruct st1 as [h q iv ls su tr ho]. cbn [heap timeouts intervals listeners trace host init
    supply app] in *. subst q iv ls tr ho.
  change (2 + k)%nat with (S (S k)) at 1.
  destruct source; try discriminate Hs;
    cbn [source_disposer source_cell source_timeouts source_intervals source_listeners
         released dispose] in *.
  - (* from *)
    unfold get_isdisposed, bind.
    unfold get_cell at 1; cbn [heap]; rewrite Hfr. cbn [ret negb when].
    unfold set_isdisposed, bind. unfold get_cell at 1; cbn [heap]; rewrite Hfr. unfold set_cell.
    unfold set_heap, set_host, set_intervals, set_listeners.
    cbn [heap timeouts intervals listeners supply trace host].
    destruct (run_timeouts_disposed (length ops + (2 + k)) fr (wrap obs') values
                (mkState (<[fr := CProducer true]> h)
                         [FromTask fr (wrap obs') values] [] [] su [] [])
                timers eq_refl) as (q & Hrun).
    { cbn [heap]. apply list_lookup_insert_eq. eapply lookup_lt_Some, Hfr. }
    rewrite Hrun.
    rewrite fire_idle by reflexivity.
    rewrite dispatches_unheard by reflexivity.
    eexists. split; [reflexivity|]. repeat split.
  - (* interval *)
    unfold get_isdisposed, bind.
    unfold get_cell at 1; cbn [heap]; rewrite Hfr. cbn [ret negb when].
    unfold get_intervalHandler, bind.
    unfold get_cell at 1; cbn [heap]; rewrite Hfr. cbn [ret clearInterval].
    unfold release.
    unfold set_host, set_intervals.
    cbn [heap timeouts intervals listeners supply trace host
         List.filter fst Nat.eqb negb app].
    unfold set_isdisposed, bind. unfold get_cell at 1; cbn [heap]; rewrite Hfr. unfold set_cell.
    unfold set_heap, set_host, set_intervals, set_listeners.
    cbn [heap timeouts intervals listeners supply trace host].
    rewrite run_timeouts_idle by reflexivity.
    rewrite fire_idle by reflexivity.
    rewrite dispatches_unheard by reflexivity.
    eexists. split; [reflexivity|]. repeat split.
  - (* fromEvent *)
    unfold get_isdisposed, bind.
    unfold get_cell at 1; cbn [heap]; rewrite Hfr. cbn [ret negb when].
    unfold removeEventListener, bind, release.
    unfold set_host, set_listeners.
    cbn [heap timeouts intervals listeners supply trace host
         List.filter fst snd Nat.eqb negb app].
    unfold set_isdisposed, bind. unfold get_cell at 1; cbn [heap]; rewrite Hfr. unfold set_cell.
    unfold set_heap, set_host, set_intervals, set_listeners.
    cbn [heap timeouts intervals listeners supply trace host].
    rewrite run_timeouts_idle by reflexivity.
    rewrite fire_idle by reflexivity.
    rewrite dispatches_unheard by reflexivity.
    eexists. split; [reflexivity|]. repeat split.
Qed.

(** X14 for [interval(500).map(f).take(3).join()]. *)
Lemma pipe_dispose_silences_witness :
  exists st,
    dispose_pipe 5 (Interval 500) [OpMap (fun v => v); OpTake 3; OpJoin] 0 1 [0%nat; 0%nat] []
                 init
    = Ok tt st /\
    trace st = [] /\ intervals st = [] /\ listeners st = [] /\
    host st = [ClearInterval 0].
Proof.
  exact (pipe_dispose_silences (Interval 500) [OpMap (fun v => v); OpTake 3; OpJoin]
           0 1 [0%nat; 0%nat] [] 0 eq_refl).
Defined.

(** * The DOM wrappers *)

Lemma after_app c prefix rest :
  Dom.after c prefix = None ->
  Dom.after c (prefix ++ String c rest)%string = Some rest.
Proof.
  induction prefix as [|a prefix IH]; cbn [Dom.after String.append].
  - intros _. now rewrite Ascii.eqb_refl.
  - destruct (Ascii.eqb a c); [discriminate | exact IH].
Qed.

Lemma line_app id tail :
  Dom.one_line id = true ->
  Dom.ends_line tail = true ->
  Dom.line (id ++ tail)%string = id.
Proof.
  intros Hid Htail. induction id as [|a id IH]; cbn [String.append Dom.line].
  - destruct tail as [|t tail]; [reflexivity|]. cbn [Dom.ends_line] in Htail.
    cbn [Dom.line]. now rewrite Htail.
  - cbn [Dom.one_line] in Hid. apply andb_true_iff in Hid as [Ha Hid].
    apply negb_true_iff in Ha. rewrite Ha. now rewrite IH.
Qed.

(** X15: a selector that holds a hash sign selects by id, and by id
    only.  Whatever stands before the first hash sign (a tag, a class)
    is ignored; the id is what follows it up to the end of the selector
    or to the first line terminator, whatever comes after that; the
    element is looked up in the whole document, also when [select] is
    called on an element; and when the document has no such element the
    call throws [Element with id ... not found]. *)
Theorem select_by_id (document : Dom.Document) (element : option nat)
    (prefix id tail : string) :
  Dom.after "#" prefix = None ->
  Dom.one_line id = true ->
  Dom.ends_line tail = true ->
  Dom.select document element (prefix ++ String "#" (id ++ tail))%string
  = match Dom.getElementById document id with
    | Some found => Dom.Returns (Dom.One (Dom.new_ElementWrapper found))
    | None => Dom.Throws ("Element with id " ++ id ++ " not found")%string
    end.
Proof.
  intros Hprefix Hid Htail. unfold Dom.select, Dom.capture.
  rewrite (after_app "#" prefix (id ++ tail) Hprefix). cbn [option_map].
  rewrite (line_app id tail Hid Htail). reflexivity.
Qed.

(** X15 on the selector [.card #app], a line feed and [#other], called
    on element 7 of a document that has no element with id [app]. *)
Lemma select_by_id_witness :
  Dom.select (Dom.mkDocument (fun _ => None) (fun _ _ => [1%nat]) (fun _ _ => [2%nat]))
             (Some 7%nat)
             (".card " ++ String "#" ("app" ++ String "010" "#other"))%string
  = Dom.Throws "Element with id app not found".
Proof.
  exact (select_by_id
           (Dom.mkDocument (fun _ => None) (fun _ _ => [1%nat]) (fun _ _ => [2%nat]))
           (Some 7%nat) ".card " "app" (String "010" "#other") eq_refl eq_refl eq_refl).
Defined.

Lemma eqb_none_hidden s : String.eqb s "none" = false -> s <> "none"%string.
Proof. intros H ->. discriminate H. Qed.

(** X16: [hide()] then [show()] on a new wrapper restores the display
    of the element, unless that display was the empty string (no inline
    display) or [none]: then the element ends with display [initial].
    A second [show()] in a row, and any [show()] on a wrapper that has
    not hidden the element, set the display to [initial] whatever it
    was. *)
Theorem hide_show_display (element : nat) (style_display : string) :
  snd (Dom.toggles [Dom.CallHide; Dom.CallShow]
                   (Dom.new_ElementWrapper element, style_display))
  = (if String.eqb style_display "" || String.eqb style_display "none"
     then "initial" else style_display)%string /\
  snd (Dom.toggles [Dom.CallHide; Dom.CallShow; Dom.CallShow]
                   (Dom.new_ElementWrapper element, style_display))
  = "initial"%string /\
  Dom.show (Dom.new_ElementWrapper element) style_display
  = (Dom.new_ElementWrapper element, "initial"%string).
Proof.
  cbn [Dom.toggles fold_left Dom.toggle fst snd].
  unfold Dom.hide.
  destruct (String.eqb_spec style_display "none") as [->|Hn].
  - repeat split.
  - cbn [negb fst snd]. unfold Dom.show at 1 3. cbn [Dom.display Dom.truthy Dom.nativeElement].
    destruct style_display as [|a s]; [repeat split|].
    cbn [Dom.truthy String.eqb orb fst snd].
    unfold Dom.show. cbn. repeat split.
Qed.

Lemma toggle_keeps_display t view :
  Dom.display (fst view) <> Some "none"%string ->
  Dom.display (fst (Dom.toggle t view)) <> Some "none"%string.
Proof.
  destruct view as [w s]. cbn [fst]. intros H.
  destruct t; cbn [Dom.toggle fst snd].
  - unfold Dom.hide. destruct (String.eqb_spec s "none") as [->|Hn]; cbn; [exact H|].
    congruence.
  - unfold Dom.show. destruct (Dom.truthy (Dom.display w)); [|exact H].
    destruct (String.eqb s "none"); cbn; [discriminate | exact H].
Qed.

Lemma toggles_keep_display : forall calls view,
  Dom.display (fst view) <> Some "none"%string ->
  Dom.display (fst (Dom.toggles calls view)) <> Some "none"%string.
Proof.
  induction calls as [|t calls IH]; intros view H; [exact H|].
  cbn [Dom.toggles fold_left]. apply IH. now apply toggle_keeps_display.
Qed.

(** X17: after any sequence of [hide()] and [show()] calls on a new
    wrapper, whatever the display of the element was at first, a call
    of [hide()] leaves the element with display [none] and a call of
    [show()] leaves it with a display other than [none]. *)
Theorem show_after_any_calls (calls : list Dom.Toggle) (element : nat)
    (style_display : string) :
  snd (Dom.toggles (calls ++ [Dom.CallHide])
                   (Dom.new_ElementWrapper element, style_display)) = "none"%string /\
  String.eqb (snd (Dom.toggles (calls ++ [Dom.CallShow])
                               (Dom.new_ElementWrapper element, style_display)))
             "none" = false.
Proof.
  unfold Dom.toggles. rewrite !fold_left_app. cbn [fold_left Dom.toggle].
  fold (Dom.toggles calls (Dom.new_ElementWrapper element, style_display)).
  pose proof (toggles_keep_display calls (Dom.new_ElementWrapper element, style_display))
    as H.
  destruct (Dom.toggles calls (Dom.new_ElementWrapper element, style_display)) as [w s].
  cbn [fst snd] in *. specialize (H ltac:(discriminate)).
  split.
  - unfold Dom.hide. destruct (String.eqb_spec s "none") as [->|Hn]; reflexivity.
  - apply String.eqb_neq.
    unfold Dom.show. destruct (Dom.display w) as [d|] eqn:E; cbn [Dom.truthy].
    + destruct d as [|a d]; [cbn; discriminate|].
      destruct (String.eqb_spec s "none") as [->|Hn]; cbn [snd]; [congruence | exact Hn].
    + cbn. discriminate.
Qed.

Lemma listen_all_spec : forall subscribers st,
  Dom.handlers (Dom.listen_all subscribers st)
  = Dom.handlers st ++ combine (seq (Dom.fresh st) (length subscribers)) subscribers /\
  Dom.fresh (Dom.listen_all subscribers st) = (Dom.fresh st + length subscribers)%nat /\
  Dom.isdisposed (Dom.listen_all subscribers st) = Dom.isdisposed st /\
  Dom.eventHandler (Dom.listen_all subscribers st)
  = match subscribers with
    | [] => Dom.eventHandler st
    | _ => Some (Dom.fresh st + length subscribers - 1)%nat
    end.
Proof.
  induction subscribers as [|a subscribers IH]; intros st.
  - cbn. rewrite app_nil_r, Nat.add_0_r. repeat split.
  - unfold Dom.listen_all. cbn [fold_left]. fold (Dom.listen_all subscribers (Dom.listen a st)).
    destruct (IH (Dom.listen a st)) as (Hh & Hf & Hd & He).
    rewrite Hh, Hf, Hd, He. cbn [Dom.listen Dom.handlers Dom.fresh Dom.isdisposed
      Dom.eventHandler length seq combine].
    rewrite <- app_assoc. cbn [app]. repeat split; [lia|].
    destruct subscribers; cbn [length]; f_equal; lia.
Qed.

Lemma unlisten_disposed st :
  Dom.isdisposed st = true -> forall n, Nat.iter n Dom.unlisten st = st.
Proof.
  intros H n. induction n as [|n IH]; [reflexivity|].
  change (Nat.iter (S n) Dom.unlisten st) with (Dom.unlisten (Nat.iter n Dom.unlisten st)).
  rewrite IH. unfold Dom.unlisten. now rewrite H.
Qed.

Lemma filter_below (h : nat) : forall (l : list nat) first,
  (first + length l <= h)%nat ->
  List.filter (fun p : nat * nat => negb (Nat.eqb (fst p) h)) (combine (seq first (length l)) l)
  = combine (seq first (length l)) l.
Proof.
  induction l as [|a l IH]; intros first H; [reflexivity|].
  cbn [length seq combine List.filter fst]. cbn [length] in H.
  replace (Nat.eqb first h) with false by (symmetry; apply Nat.eqb_neq; lia).
  cbn [negb]. f_equal. apply IH. lia.
Qed.

Lemma snd_combine_seq : forall (l : list nat) first,
  List.map snd (combine (seq first (length l)) l) = l.
Proof.
  induction l as [|a l IH]; intros first; [reflexivity|].
  cbn [length seq combine List.map snd]. f_equal. apply IH.
Qed.

(** X18: the subscriptions of one [addEventListener$] Observable share
    their disposal.  Let any number of subscribers subscribe to the
    Observable one wrapper call returned.  The first disposal, of
    whichever subscription, removes the listener of the subscriber that
    subscribed last, and no disposal removes anything afterwards: all
    earlier subscribers, and all that subscribe later, keep receiving
    the events, however often their subscriptions are disposed. *)
Theorem shared_listener_disposal (subscribers : list nat) (last : nat) (more : list nat)
    (disposals later : nat) :
  Dom.reached
    (Nat.iter later Dom.unlisten
       (Dom.listen_all more
          (Nat.iter (S disposals) Dom.unlisten
             (Dom.listen_all (subscribers ++ [last]) Dom.new_Listening))))
  = subscribers ++ more.
Proof.
  destruct (listen_all_spec subscribers Dom.new_Listening) as (Hh & Hf & Hd & _).
  cbn [Dom.new_Listening Dom.handlers Dom.fresh Dom.isdisposed app Nat.add] in Hh, Hf, Hd.
  assert (E : Dom.listen_all (subscribers ++ [last]) Dom.new_Listening
              = Dom.listen last (Dom.listen_all subscribers Dom.new_Listening)).
  { unfold Dom.listen_all. now rewrite fold_left_app. }
  rewrite E, Nat.iter_succ_r.
  set (st1 := Dom.listen last (Dom.listen_all subscribers Dom.new_Listening)).
  assert (Hu : Dom.unlisten st1
               = Dom.mkListening true (Some (length subscribers))
                   (combine (seq 0 (length subscribers)) subscribers)
                   (S (length subscribers))).
  { unfold st1, Dom.unlisten, Dom.listen.
    cbn [Dom.isdisposed Dom.eventHandler Dom.handlers Dom.fresh].
    rewrite Hd, Hh, Hf. f_equal.
    rewrite List.filter_app, filter_below by lia.
    cbn [List.filter fst]. rewrite Nat.eqb_refl. cbn [negb]. now rewrite app_nil_r. }
  rewrite (unlisten_disposed (Dom.unlisten st1)) by (now rewrite Hu).
  rewrite Hu.
  destruct (listen_all_spec more
              (Dom.mkListening true (Some (length subscribers))
                 (combine (seq 0 (length subscribers)) subscribers)
                 (S (length subscribers)))) as (Hh2 & _ & Hd2 & _).
  rewrite unlisten_disposed by (now rewrite Hd2).
  unfold Dom.reached. rewrite Hh2. cbn [Dom.handlers Dom.fresh].
  now rewrite List.map_app, !snd_combine_seq.
Qed.

(** * The last pipeline of [src/index.ts] *)

Lemma index_subscribe F period n tag :
  subscribe (S (S (S (S (S F))))) (index_pipeline period n) (Some (UserNext tag)) None None
            init
  = Ok (mkSubscription
          (DisposeUpstream (mkSubscription
             (DisposeUpstream (mkSubscription (DisposeAll 2%nat))))))
       (st_index n tag true 0 []).
Proof. reflexivity. Qed.

Lemma index_fire_unfold F n tag st :
  run_task (S (S (S F))) (index_interval_task n tag) st
  = ((let* i := get_i 3%nat in
      let* s := _subscribe F (Of (VNum i))
                  (mergeMap_observer 2%nat (index_take_observer n tag)) in
      push_subscription 2%nat s) >>
     let* i := get_i 3%nat in
     set_i 3%nat (i + 1)) st.
Proof. reflexivity. Qed.

Lemma replicate_snoc {A} (x : A) : forall m, replicate m x ++ [x] = replicate (S m) x.
Proof. induction m as [|m IH]; [reflexivity|]. cbn. now f_equal. Qed.

Lemma index_fire F n tag m :
  tick (5 + F) 0 (st_index n tag true m []) = Ok tt (st_index_fired n tag m).
Proof.
  unfold tick, st_index. cbn [intervals List.find fst Nat.eqb].
  change (5 + F)%nat with (S (S (S (S (S F))))). rewrite index_fire_unfold.
  cbn [_subscribe negb].
  unfold bind, get_i, bind, get_cell, alloc, setTimeout, push_subscription, bind, get_cell,
    set_cell, set_i, bind, get_cell, set_cell, ret.
  cbn [heap set_heap set_timeouts timeouts lookup list_lookup app insert list_insert length].
  rewrite length_replicate. unfold st_index_fired, index_of_task.
  rewrite replicate_snoc.
  rewrite <- (from_subscriptions_snoc m 4%nat).
  reflexivity.
Qed.

Lemma bind_run {A B} (m : M A) (k : A -> M B) st a st1 r :
  m st = Ok a st1 -> k a st1 = r -> bind m k st = r.
Proof. intros H1 H2. unfold bind. now rewrite H1. Qed.

Lemma dispose_flags F pre : forall count done st,
  heap st = pre ++ replicate done (CProducer true) ++ replicate count (CProducer false) ->
  forEach (dispose (S (S F))) (from_subscriptions (length pre + done)%nat count) st
  = Ok tt (set_heap (pre ++ replicate (done + count) (CProducer true)) st).
Proof.
  induction count as [|count IH]; intros done st H.
  - cbn [from_subscriptions forEach]. unfold ret.
    rewrite Nat.add_0_r. rewrite app_nil_r in H. rewrite <- H. destruct st; reflexivity.
  - cbn [from_subscriptions forEach]. unfold bind at 1.
    assert (Hl : heap st !! (length pre + done)%nat = Some (CProducer false)).
    { rewrite H. rewrite lookup_app_r by lia.
      rewrite lookup_app_r by (rewrite length_replicate; lia).
      rewrite length_replicate.
      replace (length pre + done - length pre - done)%nat with 0%nat by lia. reflexivity. }
    cbn [dispose]. unfold bind at 1. unfold get_isdisposed, bind.
    rewrite (get_cell_spec _ _ _ Hl). cbn [ret negb when].
    unfold set_isdisposed, bind. rewrite (get_cell_spec _ _ _ Hl).
    unfold set_cell.
    replace (S (length pre + done)) with (length pre + S done)%nat by lia.
    rewrite (IH (S done)).
    + rewrite Nat.add_succ_r. destruct st; reflexivity.
    + destruct st as [h q iv ls su tr ho]. cbn [heap set_heap] in *. subst h.
      rewrite insert_app_r_alt by lia.
      rewrite insert_app_r_alt by (rewrite length_replicate; lia).
      rewrite length_replicate.
      replace (length pre + done - length pre - done)%nat with 0%nat by lia.
      change (<[0%nat := CProducer true]> (replicate (S count) (CProducer false)))
        with ([CProducer true] ++ replicate count (CProducer false)).
      rewrite (app_assoc (replicate done _)), replicate_snoc. reflexivity.
Qed.

Lemma index_dispose_all F J T c ci m q task ls su tr ho :
  dispose (3 + F) (mkSubscription (DisposeAll 2%nat))
    (mkState (J :: T
              :: CMergeMap (mkSubscription (IntervalDispose 3%nat) :: from_subscriptions 4%nat m)
                           c
              :: CInterval (Some 0%nat) false ci
              :: replicate m (CProducer false))
             q [(0%nat, task)] ls su tr ho)
  = Ok tt
      (mkState (J :: T
                :: CMergeMap (mkSubscription (IntervalDispose 3%nat)
                              :: from_subscriptions 4%nat m) c
                :: CInterval (Some 0%nat) true ci
                :: replicate m (CProducer true))
               q [] ls su tr (ho ++ [ClearInterval 0])).
Proof.
  change (3 + F)%nat with (S (S (S F))). cbn [dispose].
  eapply bind_run; [reflexivity|]. cbn [forEach].
  eapply bind_run; [reflexivity|].
  rewrite (dispose_flags F
             [J; T;
              CMergeMap (mkSubscription (IntervalDispose 3%nat) :: from_subscriptions 4%nat m) c;
              CInterval (Some 0%nat) true ci] m 0) by reflexivity.
  reflexivity.
Qed.

Lemma ascending_snoc : forall count first,
  ascending first (S count) = ascending first count ++ [first + Z.of_nat count].
Proof.
  induction count as [|count IH]; intros first.
  - cbn. now rewrite Z.add_0_r.
  - change (ascending first (S (S count)))
      with (first :: ascending (first + 1) (S count)).
    rewrite IH. cbn [ascending app]. do 3 f_equal. lia.
Qed.

Lemma index_of_unfold F n tag i st :
  run_task (5 + F) (index_of_task n tag i) st
  = (call_next F (TakeNext 1%nat n (wrap (index_join_observer tag))) (VNum i) >>
     call_complete (3 + F) (MergeMapComplete 2%nat (wrap (index_take_observer n tag)))) st.
Proof. reflexivity. Qed.

Lemma index_complete_pending F observer a b subs c rest q iv ls su tr ho :
  c + 1 <> Z.of_nat (length subs) ->
  call_complete (S F) (MergeMapComplete 2%nat observer)
    (mkState (a :: b :: CMergeMap subs c :: rest) q iv ls su tr ho)
  = Ok tt (mkState (a :: b :: CMergeMap subs (c + 1) :: rest) q iv ls su tr ho).
Proof.
  intros H. apply Z.eqb_neq in H.
  exec_len. rewrite H. reflexivity.
Qed.

Lemma index_take_early F n tag v vals i sub rest q iv ls su tr ho :
  i < n - 1 ->
  call_next (4 + F) (TakeNext 1%nat n (wrap (index_join_observer tag))) v
    (mkState (CJoin vals :: CTake i sub :: rest) q iv ls su tr ho)
  = Ok tt (mkState (CJoin (vals ++ [v]) :: CTake (i + 1) sub :: rest) q iv ls su tr ho).
Proof.
  intros H.
  assert (Hlt : (i <? n - 1) = true) by (apply Z.ltb_lt; lia).
  assert (Heq : (i =? n - 1) = false) by (apply Z.eqb_neq; lia).
  do 2 (exec_len; rewrite ?Hlt, ?Heq); exec_len. reflexivity.
Qed.

Lemma index_take_last F n tag v vals c ci m q task ls su tr ho :
  call_next (7 + F) (TakeNext 1%nat n (wrap (index_join_observer tag))) v
    (mkState (CJoin vals
              :: CTake (n - 1) (Some (mkSubscription (DisposeAll 2%nat)))
              :: CMergeMap (mkSubscription (IntervalDispose 3%nat) :: from_subscriptions 4%nat m)
                           c
              :: CInterval (Some 0%nat) false ci
              :: replicate m (CProducer false))
             q [(0%nat, task)] ls su tr ho)
  = Ok tt
      (mkState (CJoin (vals ++ [v])
                :: CTake (n - 1 + 1) (Some (mkSubscription (DisposeAll 2%nat)))
                :: CMergeMap (mkSubscription (IntervalDispose 3%nat)
                              :: from_subscriptions 4%nat m) c
                :: CInterval (Some 0%nat) true ci
                :: replicate m (CProducer true))
               q [] ls su (tr ++ [(tag, Next (VArr (vals ++ [v])))])
               (ho ++ [ClearInterval 0])).
Proof.
  change (7 + F)%nat with (S (6 + F)). cbn [call_next].
  eapply bind_run.
  { eapply bind_run; [reflexivity|]. cbv beta. rewrite Z.ltb_irrefl. reflexivity. }
  cbv beta. eapply bind_run.
  { eapply bind_run; [reflexivity|]. cbv beta. rewrite Z.eqb_refl. cbn [when].
    eapply bind_run; [reflexivity|]. cbv beta.
    eapply bind_run; [reflexivity|]. cbv beta.
    eapply bind_run; [reflexivity|]. cbv beta.
    change (6 + F)%nat with (3 + (3 + F))%nat.
    apply index_dispose_all. }
  reflexivity.
Qed.

Lemma index_round_early F n tag m :
  Z.of_nat m < n - 1 ->
  round (12 + F) (st_index n tag true m []) = Ok tt (st_index n tag true (S m) []).
Proof.
  intros H. unfold round.
  eapply bind_run; [exact (index_fire (7 + F) n tag m)|].
  unfold run_timeout, st_index_fired. cbn [timeouts set_timeouts].
  change (12 + F)%nat with (5 + (7 + F))%nat. rewrite index_of_unfold.
  eapply bind_run.
  { change (7 + F)%nat with (4 + (3 + F))%nat. apply index_take_early. exact H. }
  cbv beta. change (3 + (7 + F))%nat with (S (9 + F)).
  rewrite index_complete_pending
    by (cbn [length]; rewrite length_from_subscriptions; lia).
  unfold st_index. cbn [negb]. rewrite ascending_snoc, List.map_app.
  cbn [List.map]. rewrite Nat2Z.inj_succ. unfold Z.succ. rewrite Z.add_0_l.
  reflexivity.
Qed.

Lemma index_round_last F n tag m :
  Z.of_nat m = n - 1 ->
  round (12 + F) (st_index n tag true m [])
  = Ok tt (st_index n tag false (S m)
             [(tag, Next (VArr (List.map VNum (ascending 0 (S m)))))]).
Proof.
  intros H. unfold round.
  eapply bind_run; [exact (index_fire (7 + F) n tag m)|].
  unfold run_timeout, st_index_fired. cbn [timeouts set_timeouts].
  change (12 + F)%nat with (5 + (7 + F))%nat. rewrite index_of_unfold.
  eapply bind_run.
  { rewrite H at 2. unfold index_interval_task. apply index_take_last. }
  cbv beta. change (3 + (7 + F))%nat with (S (9 + F)).
  rewrite index_complete_pending
    by (cbn [length]; rewrite length_from_subscriptions; lia).
  unfold st_index. cbn [negb app]. rewrite ascending_snoc, List.map_app.
  cbn [List.map]. rewrite Nat2Z.inj_succ. unfold Z.succ. rewrite Z.add_0_l, <- H.
  reflexivity.
Qed.

Lemma index_rounds_done F n tag m tr : forall count,
  rounds F count (st_index n tag false m tr) = Ok tt (st_index n tag false m tr).
Proof.
  induction count as [|count IH]; [reflexivity|].
  cbn [rounds]. eapply bind_run; [|exact IH].
  destruct F; reflexivity.
Qed.

Lemma index_rounds F n tag : forall count m,
  Z.of_nat m < n ->
  rounds (12 + F) count (st_index n tag true m [])
  = Ok tt (if n <=? Z.of_nat (m + count)
           then st_index n tag false (Z.to_nat n)
                  [(tag, Next (VArr (List.map VNum (ascending 0 (Z.to_nat n)))))]
           else st_index n tag true (m + count) []).
Proof.
  induction count as [|count IH]; intros m H.
  - cbn [rounds]. rewrite Nat.add_0_r.
    destruct (Z.leb_spec n (Z.of_nat m)); [lia | reflexivity].
  - cbn [rounds]. destruct (Z.eq_dec (Z.of_nat m) (n - 1)) as [E|E].
    + eapply bind_run; [exact (index_round_last F n tag m E)|].
      rewrite index_rounds_done.
      destruct (Z.leb_spec n (Z.of_nat (m + S count))); [|lia].
      replace (Z.to_nat n) with (S m) by lia. reflexivity.
    + eapply bind_run; [apply index_round_early; lia|].
      rewrite IH by lia. now rewrite Nat.add_succ_r.
Qed.

(** X19: the last pipeline of [src/index.ts],
    [interval(period).mergeMap((i) => of(i)).take(n).join().subscribe(console.log)],
    for every [n >= 1].  While the timer of [interval] has fired fewer
    than [n] times (each firing followed by the zero-delay timer of its
    [of(i)]) nothing is logged and the interval timer stays set.  With
    the [n]-th round the callback is called once, with the array
    [[0, 1, ..., n - 1]], the interval timer is cleared, once, and no
    timer is left: later rounds change nothing. *)
Theorem index_pipeline_logs (period n : Z) (tag count k : nat) :
  1 <= n ->
  exists st,
    run_index_pipeline (12 + k) period n tag count init = Ok tt st /\
    trace st = (if n <=? Z.of_nat count
                then [(tag, Next (VArr (List.map VNum (ascending 0 (Z.to_nat n)))))]
                else []) /\
    host st = (if n <=? Z.of_nat count then [ClearInterval 0] else []) /\
    length (intervals st) = (if n <=? Z.of_nat count then 0%nat else 1%nat) /\
    timeouts st = [] /\ listeners st = [].
Proof.
  intros Hn. unfold run_index_pipeline.
  eexists. split.
  - eapply bind_run; [exact (index_subscribe (7 + k) period n tag)|].
    cbv beta. apply (index_rounds k n tag count 0). lia.
  - cbn [Nat.add]. destruct (n <=? Z.of_nat count); repeat split.
Qed.

(** X19 with the numbers of the source: [take(10)], after ten rounds. *)
Lemma index_pipeline_logs_witness :
  exists st,
    run_index_pipeline 12 500 10 0 10 init = Ok tt st /\
    trace st = [(0%nat, Next (VArr [VNum 0; VNum 1; VNum 2; VNum 3; VNum 4; VNum 5;
                                    VNum 6; VNum 7; VNum 8; VNum 9]))].
Proof.
  destruct (index_pipeline_logs 500 10 0 10 0 ltac:(lia)) as (st & Hrun & Htrace & _).
  exists st. split; [exact Hrun | exact Htrace].
Defined.

(** * take on a Subject *)

Lemma subject_take_subscribe F n tag values :
  subject_take_run (S (S F)) n tag values init
  = (Subject_nexts (S (S F)) 0%nat values >> ret 0%nat) (st_subject_take n tag true 0 []).
Proof. reflexivity. Qed.

Lemma subject_take_next F n tag v i tr :
  Subject_next (6 + F) 0%nat v (st_subject_take n tag true i tr)
  = Ok tt (st_subject_take n tag (negb (i =? n - 1)) (i + 1)
             (tr ++ (if i <? n - 1 then [(tag, Next v)] else [])
                 ++ (if i =? n - 1 then [(tag, Next v); (tag, Complete)] else []))).
Proof.
  destruct (i <? n - 1) eqn:Hlt, (i =? n - 1) eqn:Heq;
    do 2 (exec; rewrite ?Hlt, ?Heq); exec;
    rewrite ?app_nil_r, <- ?app_assoc; reflexivity.
Qed.

Lemma subject_take_left F n tag i tr : forall values,
  Subject_nexts F 0%nat values (st_subject_take n tag false i tr)
  = Ok tt (st_subject_take n tag false i tr).
Proof.
  induction values as [|v values IH]; [reflexivity|].
  unfold Subject_nexts. cbn [forEach]. eapply bind_run; [reflexivity | exact IH].
Qed.

Lemma subject_take_nexts F n tag : forall values i tr,
  Subject_nexts (6 + F) 0%nat values (st_subject_take n tag true i tr)
  = Ok tt (if (i <=? n - 1) && (n - i <=? Z.of_nat (length values))
           then st_subject_take n tag false n
                  (tr ++ List.map (fun v => (tag, Next v)) (firstn (Z.to_nat (n - i)) values)
                      ++ [(tag, Complete)])
           else st_subject_take n tag true (i + Z.of_nat (length values))
                  (tr ++ List.map (fun v => (tag, Next v))
                           (firstn (Z.to_nat (n - i)) values))).
Proof.
  induction values as [|v values IH]; intros i tr.
  - rewrite firstn_nil. cbn [length List.map]. rewrite app_nil_r, Z.add_0_r.
    replace ((i <=? n - 1) && (n - i <=? Z.of_nat 0)) with false
      by (destruct (Z.leb_spec i (n - 1)), (Z.leb_spec (n - i) (Z.of_nat 0));
          cbn; try reflexivity; lia).
    reflexivity.
  - unfold Subject_nexts. cbn [forEach].
    eapply bind_run; [apply subject_take_next|]. cbv beta.
    fold (Subject_nexts (6 + F) 0%nat values).
    destruct (Z.ltb_spec i (n - 1)), (Z.eqb_spec i (n - 1)); try lia; cbn [negb app].
    + (* before the n-th value *)
      rewrite IH.
      replace (Z.to_nat (n - i)) with (S (Z.to_nat (n - (i + 1)))) by lia.
      rewrite firstn_cons. cbn [List.map length].
      replace ((i + 1 <=? n - 1) && (n - (i + 1) <=? Z.of_nat (length values)))
        with ((i <=? n - 1) && (n - i <=? Z.of_nat (S (length values))))
        by (apply eq_true_iff_eq; rewrite !andb_true_iff, !Z.leb_le; lia).
      rewrite <- !app_assoc. cbn [app].
      replace (i + 1 + Z.of_nat (length values)) with (i + Z.of_nat (S (length values)))
        by lia.
      reflexivity.
    + (* the n-th value *)
      rewrite subject_take_left.
      replace ((i <=? n - 1) && (n - i <=? Z.of_nat (length (v :: values)))) with true
        by (symmetry; rewrite andb_true_iff, !Z.leb_le; cbn [length]; lia).
      replace (Z.to_nat (n - i)) with 1%nat by lia.
      rewrite firstn_cons, firstn_O. cbn [List.map app].
      replace (i + 1) with n by lia. rewrite ?app_nil_r. reflexivity.
    + (* [n] is not positive *)
      rewrite ?app_nil_r, IH.
      replace (Z.to_nat (n - i)) with 0%nat by lia.
      replace (Z.to_nat (n - (i + 1))) with 0%nat by lia.
      rewrite !firstn_O. cbn [length].
      replace ((i + 1 <=? n - 1) && (n - (i + 1) <=? Z.of_nat (length values))) with false
        by (symmetry; apply andb_false_iff; left; apply Z.leb_gt; lia).
      replace ((i <=? n - 1) && (n - i <=? Z.of_nat (S (length values)))) with false
        by (symmetry; apply andb_false_iff; left; apply Z.leb_gt; lia).
      replace (i + 1 + Z.of_nat (length values)) with (i + Z.of_nat (S (length values)))
        by lia.
      reflexivity.
Qed.

(** X20: [take(n)] on a Subject.  A subscriber to
    [subject.asObservable().take(n)] receives the first [n] values the
    Subject publishes and, with the [n]-th, one completion; at that
    moment [take] disposes its subscription, which removes its observer
    from the Subject, so that nothing published later reaches it.  If
    fewer than [n] values are published (or [n] is not positive) the
    observer stays registered and no completion is delivered. *)
Theorem take_leaves_subject (n : Z) (tag : nat) (values : list value) (k : nat) :
  exists st,
    subject_take_run (6 + k) n tag values init = Ok 0%nat st /\
    trace st
    = List.map (fun v => (tag, Next v)) (firstn (Z.to_nat n) values)
      ++ (if (1 <=? n) && (n <=? Z.of_nat (length values)) then [(tag, Complete)] else []) /\
    heap st !! 0%nat
    = Some (CSubject (if (1 <=? n) && (n <=? Z.of_nat (length values))
                      then []
                      else [(0%nat, wrap (take_observer 1%nat n tag))])).
Proof.
  change (6 + k)%nat with (S (S (4 + k))). rewrite subject_take_subscribe.
  change (S (S (4 + k))) with (6 + k)%nat.
  eexists. split.
  - eapply bind_run; [apply subject_take_nexts | reflexivity].
  - rewrite Z.sub_0_r.
    replace ((0 <=? n - 1) && (n <=? Z.of_nat (length values)))
      with ((1 <=? n) && (n <=? Z.of_nat (length values)))
      by (apply eq_true_iff_eq; rewrite !andb_true_iff, !Z.leb_le; lia).
    destruct ((1 <=? n) && (n <=? Z.of_nat (length values)));
      cbn [st_subject_take trace heap app]; rewrite ?app_nil_r; split; reflexivity.
Qed.
